(** * trak: the track lifecycle and reconciliation engine

    A shallow embedding of the orchestration layer of trak (package [ops])
    together with the SQLite registry it drives (package [db]).

    The engine talks to four outside systems through the packages [git],
    [github], [devbox] and the SQL driver.  Each function of those packages
    is a call to the outside world: its reply is not computed by the engine,
    so the model draws it from a [World] oracle that sees the whole history
    of earlier calls, and records call and reply in a trace.  The registry
    itself is modelled concretely, as the rows of the [tracks] table. *)

From Stdlib Require Import String Ascii List ZArith Bool Lia DecimalString.
From Stdlib Require Import Sorted Permutation.
Import ListNotations.
Local Open Scope string_scope.
Local Open Scope Z_scope.

Set Implicit Arguments.

(** ** Go values *)

(** A Go [error] is observed through [err.Error()]; [None] is [nil]. *)
Definition error := option string.

(** [fmt.Errorf(prefix + "%w", err)]. *)
Definition Errorf (prefix e : string) : error := Some (prefix ++ e).

(** [strings.Contains]. *)
Fixpoint Contains (s sub : string) : bool :=
  if String.prefix sub s then true
  else match s with
       | EmptyString => false
       | String _ rest => Contains rest sub
       end.

(** [%d] of [fmt.Sprintf]. *)
Definition itoa (n : Z) : string := NilZero.string_of_int (Z.to_int n).

Definition nl : string := String (ascii_of_nat 10) EmptyString.

(** ** package time

    An instant is a count of nanoseconds from the zero instant of
    [time.Time]; a [Duration] is a signed 64-bit count of nanoseconds. *)
Module time.
Definition Time := Z.
Definition Duration := Z.

Definition Nanosecond : Duration := 1.
Definition Second : Duration := 1000000000 * Nanosecond.
Definition Minute : Duration := 60 * Second.
Definition Hour : Duration := 60 * Minute.

Definition maxDuration : Duration := 2 ^ 63 - 1.
Definition minDuration : Duration := - 2 ^ 63.

Definition IsZero (t : Time) : bool := t =? 0.

(** [t.Sub(u)]: the difference, saturated to the range of [Duration]. *)
Definition Sub (t u : Time) : Duration :=
  let d := t - u in
  if d >? maxDuration then maxDuration
  else if d <? minDuration then minDuration
  else d.
End time.

(** ** Records of the packages *)

(** db.TrackType is a Go string; the two constants of the package. *)
Definition TrackType := string.
Definition TrackTypeWorktree : TrackType := "worktree".
Definition TrackTypeDevbox : TrackType := "devbox".

(** db.Track *)
Module Track.
Record t := mk {
  ID : Z;
  Branch : string;
  RemoteURL : string;
  HeadSHA : string;
  Type_ : TrackType;          (* Go field Type *)
  Path : option string;        (* worktree path, nil for devbox *)
  DevboxName : option string;  (* devbox name, nil for worktree *)
  CreatedAt : time.Time;
  LastAccessed : option time.Time
}.

Definition with_ID (x : t) (i : Z) : t :=
  mk i (Branch x) (RemoteURL x) (HeadSHA x) (Type_ x) (Path x)
     (DevboxName x) (CreatedAt x) (LastAccessed x).
Definition with_CreatedAt (x : t) (c : time.Time) : t :=
  mk (ID x) (Branch x) (RemoteURL x) (HeadSHA x) (Type_ x) (Path x)
     (DevboxName x) c (LastAccessed x).
Definition with_HeadSHA (x : t) (h : string) : t :=
  mk (ID x) (Branch x) (RemoteURL x) h (Type_ x) (Path x)
     (DevboxName x) (CreatedAt x) (LastAccessed x).
Definition with_LastAccessed (x : t) (l : option time.Time) : t :=
  mk (ID x) (Branch x) (RemoteURL x) (HeadSHA x) (Type_ x) (Path x)
     (DevboxName x) (CreatedAt x) l.
End Track.

(** github.PR *)
Module PR.
Record t := mk {
  Number : Z;
  Branch : string;
  State : string;         (* "open", "closed", "merged" *)
  CIStatus : string;      (* "success", "failure", "pending", "unknown" *)
  ReviewStatus : string   (* "approved", "changes_requested", "pending", "unknown" *)
}.
End PR.

(** track.GitStatus *)
Module GitStatus.
Record t := mk {
  Clean : bool;
  Ahead : bool;
  Behind : bool;
  AheadCount : Z;
  BehindCount : Z
}.
Definition zero : t := mk false false false 0 0.

Definition with_Clean (g : t) (b : bool) : t :=
  mk b (Ahead g) (Behind g) (AheadCount g) (BehindCount g).
Definition with_counts (g : t) (ahead behind : Z) : t :=
  mk (Clean g) (ahead >? 0) (behind >? 0) ahead behind.
End GitStatus.

(** track.PRStatus *)
Module PRStatus.
Record t := mk { Number : Z; URL : string; State : string; Draft : bool }.
End PRStatus.

(** track.CIStatus *)
Module CIStatus.
Record t := mk { Passing : bool; Pending : bool; Failing : bool; URL : string }.
End CIStatus.

(** track.ReviewStatus *)
Module ReviewStatus.
Record t := mk {
  Approved : bool;
  ChangesRequested : bool;
  Pending : bool;
  ReviewerCount : Z
}.
End ReviewStatus.

(** track.TrackStatus *)
Module TrackStatus.
Record t := mk {
  GitStatus : GitStatus.t;
  PR : option PRStatus.t;
  CI : option CIStatus.t;
  Review : option ReviewStatus.t;
  IsStale : bool;
  SHAMismatch : bool
}.
(** [track.TrackStatus{}] *)
Definition zero : t := mk GitStatus.zero None None None false false.

Definition with_GitStatus (x : t) (g : GitStatus.t) : t :=
  mk g (PR x) (CI x) (Review x) (IsStale x) (SHAMismatch x).
Definition with_review (x : t) (pr : option PRStatus.t)
           (ci : option CIStatus.t) (rv : option ReviewStatus.t) : t :=
  mk (GitStatus x) pr ci rv (IsStale x) (SHAMismatch x).
Definition with_IsStale (x : t) (b : bool) : t :=
  mk (GitStatus x) (PR x) (CI x) (Review x) b (SHAMismatch x).
Definition with_SHAMismatch (x : t) (b : bool) : t :=
  mk (GitStatus x) (PR x) (CI x) (Review x) (IsStale x) b.
End TrackStatus.

(** ops.SyncResult *)
Module SyncResult.
Record t := mk {
  Rebased : bool;
  Pushed : bool;
  PRCreated : bool;
  PRNumber : Z;
  HasConflicts : bool;
  ConflictsPath : string
}.
(** [&SyncResult{}] *)
Definition zero : t := mk false false false 0 false "".

Definition with_Rebased (x : t) (b : bool) : t :=
  mk b (Pushed x) (PRCreated x) (PRNumber x) (HasConflicts x) (ConflictsPath x).
Definition with_Pushed (x : t) (b : bool) : t :=
  mk (Rebased x) b (PRCreated x) (PRNumber x) (HasConflicts x) (ConflictsPath x).
Definition with_PR (x : t) (created : bool) (num : Z) : t :=
  mk (Rebased x) (Pushed x) created num (HasConflicts x) (ConflictsPath x).
Definition with_conflicts (x : t) (b : bool) (path : string) : t :=
  mk (Rebased x) (Pushed x) (PRCreated x) (PRNumber x) b path.
End SyncResult.

(** config.RepoConfig and config.Config (the fields the engine reads). *)
Module RepoConfig.
Record t := mk { Path : string; Remote : string }.
End RepoConfig.

Module Config.
Record t := mk { Repo : RepoConfig.t }.
End Config.

(** ** The outside world *)

(** The statements package [db] sends to the driver, with their arguments. *)
Inductive SqlStmt : Type :=
| InsertInto (row : Track.t)
| DeleteFrom (remoteURL branch : string)
| SetLastAccessed (now : time.Time) (remoteURL branch : string)
| SetHeadSHA (sha remoteURL branch : string).

(** Every call that leaves the engine. *)
Inductive Call : Type :=
(* package git *)
| GitFetch (repoPath : string)
| GitGetDefaultBranch (repoPath : string)
| GitCreateBranch (repoPath branchName baseBranch : string)
| GitWorktreeAdd (repoPath worktreePath branch : string)
| GitWorktreeRemove (repoPath worktreePath : string)
| GitWorktreePrune (repoPath : string)
| GitRebase (repoPath ontoBranch : string)
| GitPushForce (repoPath branch : string)
| GitPushDelete (repoPath branch : string)
| GitAheadBehind (repoPath branch baseBranch : string)
| GitGetHeadSHA (repoPath : string)
| GitGetBranchSHA (repoPath branch : string)
| GitIsDirty (repoPath : string)
(* package github *)
| GhGetPRForBranch (remote branch : string)
| GhCreatePR (remote branch baseBranch title : string)
(* package devbox *)
| DevboxExists (name : string)
| DevboxCreate (name repoURL branch : string)
| DevboxDelete (name : string)
(* SQL driver *)
| SqlExec (q : SqlStmt)
| SqlRowsAffected
| SqlQueryRow (remoteURL branch : string)
(* operating system *)
| OsUserHomeDir
| OsMkdirAll (path : string)
| OsStderr (text : string)
| TimeNow.

(** What comes back.  A call reads the fields of its own result type; on an
    error the Go functions return the zero value next to it. *)
Record Reply := mkReply {
  r_err : error;
  r_str : string;
  r_bool : bool;
  r_int : Z;
  r_int2 : Z;
  r_pr : option PR.t
}.

Definition ok : Reply := mkReply None "" false 0 0 None.
Definition failed (e : string) : Reply := mkReply (Some e) "" false 0 0 None.

Definition Event : Type := Call * Reply.
Definition Trace : Type := list Event.

(** The world answers each call knowing everything that happened before.
    [track.GenerateSlug] and [track.Slugify] (internal/track/slug.go) and
    [filepath.Join] (Go standard library) are pure functions the engine
    calls; nothing proved below depends on what they compute, so they are
    parameters of the world.

    The table of the model holds the timestamps of a row as instants.  The
    file holds them as the text the driver wrote, which the model does not
    compute: [column_text column row] is the text of a timestamp column of
    a stored row, and [time_Parse] is what [scanTrack] does with such a
    text: [time.Parse] in the layout "2006-01-02 15:04:05" and, failing
    that, in RFC 3339, whose error is the one returned ([None] when either
    layout parses). *)
Record World := mkWorld {
  respond : Trace -> Call -> Reply;
  GenerateSlug : string -> string -> string;
  Slugify : string -> string;
  filepath_Join : string -> string -> string;
  column_text : string -> Track.t -> string;
  time_Parse : string -> error
}.

(** The state the engine runs in: the rows of table [tracks], and the trace. *)
Record State := mkState {
  rows : list Track.t;
  trace : Trace
}.

(** ** The monad of engine code: reads the world, threads the state. *)
Definition M (A : Type) : Type := World -> State -> A * State.

Definition ret {A} (a : A) : M A := fun _ s => (a, s).

Definition bind {A B} (m : M A) (k : A -> M B) : M B :=
  fun w s => let (a, s1) := m w s in k a w s1.

Notation "x <- m ;; k" := (bind m (fun x => k))
  (at level 61, m at next level, right associativity).
Notation "m ;;; k" := (bind m (fun _ => k))
  (at level 61, right associativity).

Definition record (ev : Event) (s : State) : State :=
  mkState (rows s) (trace s ++ [ev])%list.

(** Ask the world; write call and reply down. *)
Definition ask (c : Call) : M Reply :=
  fun w s => (respond w (trace s) c, s).

Definition log (ev : Event) : M unit := fun _ s => (tt, record ev s).

(** One call to the outside: ask the world, log call and reply. *)
Definition call (c : Call) : M Reply :=
  r <- ask c ;; log (c, r) ;;; ret r.

Definition pure_of {A} (f : World -> A) : M A := fun w s => (f w, s).

Definition get_rows : M (list Track.t) := fun _ s => (rows s, s).
Definition put_rows (l : list Track.t) : M unit :=
  fun _ s => (tt, mkState l (trace s)).

(** The events a run added to the trace. *)
Definition events_since (s s' : State) : Trace :=
  skipn (length (trace s)) (trace s').

(** ** Go strings, as the packages below use them *)

(** [strings.Join] *)
Definition Join (elems : list string) (sep : string) : string :=
  String.concat sep elems.

(** [strings.Split] with a separator of one byte: the pieces between the
    separators, one more than there are separators. *)
Fixpoint Split (s : string) (sep : ascii) : list string :=
  match s with
  | EmptyString => [EmptyString]
  | String c rest =>
      if Ascii.eqb c sep then EmptyString :: Split rest sep
      else match Split rest sep with
           | [] => [String c EmptyString]
           | piece :: pieces => String c piece :: pieces
           end
  end.

(** The last piece, [parts[len(parts)-1]]. *)
Definition last_piece (parts : list string) : string := last parts "".

(** [strings.ReplaceAll] of one byte by one byte. *)
Fixpoint ReplaceAll (s : string) (old new : ascii) : string :=
  match s with
  | EmptyString => EmptyString
  | String c rest =>
      String (if Ascii.eqb c old then new else c) (ReplaceAll rest old new)
  end.

Definition byte_in (lo hi : nat) (c : ascii) : bool :=
  (lo <=? nat_of_ascii c)%nat && (nat_of_ascii c <=? hi)%nat.

Definition is_digit (c : ascii) : bool := byte_in 48 57 c.
Definition is_upper (c : ascii) : bool := byte_in 65 90 c.
Definition is_lower (c : ascii) : bool := byte_in 97 122 c.
Definition hyphen : ascii := "-"%char.

(** The bytes the class [a-zA-Z0-9-] accepts. *)
Definition is_slug_byte (c : ascii) : bool :=
  is_lower c || is_upper c || is_digit c || Ascii.eqb c hyphen.

(** [int64] bounds, and the wrap-around of a 64-bit signed result. *)
Definition minInt64 : Z := - 2 ^ 63.
Definition maxInt64 : Z := 2 ^ 63 - 1.
Definition in_int64 (z : Z) : bool := (minInt64 <=? z) && (z <=? maxInt64).
Definition wrap64 (z : Z) : Z := (z + 2 ^ 63) mod 2 ^ 64 - 2 ^ 63.

Definition digit_value (c : ascii) : Z := Z.of_nat (nat_of_ascii c) - 48.

Fixpoint digits_value (acc : Z) (s : string) : option Z :=
  match s with
  | EmptyString => Some acc
  | String c rest =>
      if is_digit c then digits_value (10 * acc + digit_value c) rest
      else None
  end.

(** [strconv.Atoi] on a 64-bit platform: an optional sign, then one or more
    decimal digits, and the value must fit an int; [None] is its error. *)
Definition Atoi (s : string) : option Z :=
  let '(neg, body) :=
    match s with
    | String "-"%char rest => (true, rest)
    | String "+"%char rest => (false, rest)
    | _ => (false, s)
    end in
  match body with
  | EmptyString => None
  | _ =>
      match digits_value 0 body with
      | Some v =>
          let v := if neg then - v else v in
          if in_int64 v then Some v else None
      | None => None
      end
  end.

(** ** A wider world: command lines, listings, the environment

    The packages [git], [tmux], [github] and [devbox] run command lines
    through [os/exec]; [db.ListTracks] runs a query and scans its rows.
    These calls are answered by a second oracle, and everything that
    happens, the calls of the engine above included, goes into one
    journal in the order it happened. *)

(** [exec.Command(name, args...)] with [cmd.Dir]; [tty] marks a command run
    on the terminal of the user ([runner.Exec]). *)
Record Cmd := mkCmd {
  cmd_dir : string;
  cmd_name : string;
  cmd_args : list string;
  cmd_tty : bool
}.

(** What [cmd.Run()] leaves: its error, and the two captured streams. *)
Record Exit := mkExit {
  run_err : error;
  stdout : string;
  stderr : string
}.

Inductive Call2 : Type :=
| SqlQuery                 (* db.conn.Query of ListTracks *)
| SqlScan (row : Track.t)  (* rows.Scan of one row *)
| SqlRowsErr               (* rows.Err() *)
| OsGetenv (key : string).

Inductive Event2 : Type :=
| Core (ev : Event)
| Outer (c : Call2) (r : Reply)
| Proc (c : Cmd) (x : Exit).

Definition Journal : Type := list Event2.

(** github.ghPR, the JSON shape of [gh pr view] and [gh pr list]. *)
Module ghPR.
Record t := mk {
  Number : Z;
  HeadRefName : string;
  State : string;
  StatusRollup : string;
  ReviewDecision : string
}.
End ghPR.

(** devbox.Devbox *)
Module Devbox.
Record t := mk { Name : string; Status : string }.
End Devbox.

(** The wider world contains the world of the engine.  The functions of
    the Go standard library that depend on Unicode tables or parse JSON
    are parameters: [strings.TrimSpace], [strings.Fields],
    [strings.ToUpper], [strings.ToLower], [json.Unmarshal] at the three
    types it is used at (a right value is its error text), and the text of
    the error of [strconv.Atoi]; so are [track.SanitizeForTmux], which
    maps runes through [unicode.IsPrint], and the package variable
    [devboxBinary]. *)
Record World2 := mkWorld2 {
  inner : World;
  respond2 : Journal -> Call2 -> Reply;
  exec : Journal -> Cmd -> Exit;
  TrimSpace : string -> string;
  Fields : string -> list string;
  ToUpper : string -> string;
  ToLower : string -> string;
  Unmarshal_ghPR : string -> ghPR.t + string;
  Unmarshal_ghPRs : string -> list ghPR.t + string;
  Unmarshal_devboxes : string -> list Devbox.t + string;
  Atoi_error : string -> string;
  SanitizeForTmux : string -> string;
  devboxBinary : string
}.

Record State2 := mkState2 {
  core : State;
  journal : Journal
}.

Definition M2 (A : Type) : Type := World2 -> State2 -> A * State2.

Definition ret2 {A} (a : A) : M2 A := fun _ s => (a, s).

Definition bind2 {A B} (m : M2 A) (k : A -> M2 B) : M2 B :=
  fun w s => let (a, s1) := m w s in k a w s1.

Notation "x <~ m ;; k" := (bind2 m (fun x => k))
  (at level 61, m at next level, right associativity).
Notation "m ;;~ k" := (bind2 m (fun _ => k))
  (at level 61, right associativity).

(** Engine code of the inner world runs as it is; its events enter the
    journal. *)
Definition lift {A} (m : M A) : M2 A :=
  fun w s =>
    let (a, c) := m (inner w) (core s) in
    (a, mkState2 c (journal s ++ map Core (events_since (core s) c))%list).

Definition ask2 (c : Call2) : M2 Reply :=
  fun w s => (respond2 w (journal s) c, s).

Definition ask_exec (c : Cmd) : M2 Exit :=
  fun w s => (exec w (journal s) c, s).

Definition log2 (ev : Event2) : M2 unit :=
  fun _ s => (tt, mkState2 (core s) (journal s ++ [ev])%list).

Definition call2 (c : Call2) : M2 Reply :=
  r <~ ask2 c ;; log2 (Outer c r) ;;~ ret2 r.

Definition run_cmd (c : Cmd) : M2 Exit :=
  x <~ ask_exec c ;; log2 (Proc c x) ;;~ ret2 x.

Definition pure2 {A} (f : World2 -> A) : M2 A := fun w s => (f w, s).

Definition get_rows2 : M2 (list Track.t) := fun _ s => (rows (core s), s).

(** The events a run added to the journal. *)
Definition journal_since (s s' : State2) : Journal :=
  skipn (length (journal s)) (journal s').

(** [DefaultRunner.Run] of the packages (and [runGit], which also sets the
    directory): run the command, capture the streams; an error carries the
    command line and stderr, a success the trimmed stdout. *)
Definition runner_Run (dir name : string) (args : list string)
  : M2 (string * error) :=
  x <~ run_cmd (mkCmd dir name args false) ;;
  match run_err x with
  | Some e =>
      ret2 ("", Some (name ++ " " ++ Join args " " ++ " failed: " ++ e
                        ++ nl ++ "stderr: " ++ stderr x))
  | None =>
      out <~ pure2 (fun w => TrimSpace w (stdout x)) ;;
      ret2 (out, None)
  end.

(** [DefaultRunner.Exec]: run on the terminal, return the error as it is. *)
Definition runner_Exec (name : string) (args : list string) : M2 error :=
  x <~ run_cmd (mkCmd "" name args true) ;;
  ret2 (run_err x).

(** ** package git (git.go), at its API

    Each function runs the git command line; what git answers is the world's
    reply.  As in git.go, an error comes with the zero value of the result. *)
Module git.
Definition run (c : Call) : M error := r <- call c ;; ret (r_err r).

Definition run_string (c : Call) : M (string * error) :=
  r <- call c ;;
  ret (match r_err r with
       | Some e => ("", Some e)
       | None => (r_str r, None)
       end).

Definition Fetch (repoPath : string) : M error := run (GitFetch repoPath).

Definition GetDefaultBranch (repoPath : string) : M (string * error) :=
  run_string (GitGetDefaultBranch repoPath).

Definition CreateBranch (repoPath branchName baseBranch : string) : M error :=
  run (GitCreateBranch repoPath branchName baseBranch).

Definition WorktreeAdd (repoPath worktreePath branch : string) : M error :=
  run (GitWorktreeAdd repoPath worktreePath branch).

Definition WorktreeRemove (repoPath worktreePath : string) : M error :=
  run (GitWorktreeRemove repoPath worktreePath).

Definition WorktreePrune (repoPath : string) : M error :=
  run (GitWorktreePrune repoPath).

(** Returns true if there are conflicts, false otherwise. *)
Definition Rebase (repoPath ontoBranch : string) : M (bool * error) :=
  r <- call (GitRebase repoPath ontoBranch) ;;
  ret (match r_err r with
       | Some e => (false, Some e)
       | None => (r_bool r, None)
       end).

Definition PushForce (repoPath branch : string) : M error :=
  run (GitPushForce repoPath branch).

Definition PushDelete (repoPath branch : string) : M error :=
  run (GitPushDelete repoPath branch).

Definition AheadBehind (repoPath branch baseBranch : string)
  : M (Z * Z * error) :=
  r <- call (GitAheadBehind repoPath branch baseBranch) ;;
  ret (match r_err r with
       | Some e => (0, 0, Some e)
       | None => (r_int r, r_int2 r, None)
       end).

Definition GetHeadSHA (repoPath : string) : M (string * error) :=
  run_string (GitGetHeadSHA repoPath).

Definition GetBranchSHA (repoPath branch : string) : M (string * error) :=
  run_string (GitGetBranchSHA repoPath branch).

Definition IsDirty (repoPath : string) : M (bool * error) :=
  r <- call (GitIsDirty repoPath) ;;
  ret (match r_err r with
       | Some e => (false, Some e)
       | None => (r_bool r, None)
       end).
End git.

(** ** package github, at its API (the gh command line) *)
Module github.
(** The PR of a branch, or nil if none exists. *)
Definition GetPRForBranch (remote branch : string)
  : M (option PR.t * error) :=
  r <- call (GhGetPRForBranch remote branch) ;;
  ret (match r_err r with
       | Some e => (None, Some e)
       | None => (r_pr r, None)
       end).

Definition CreatePR (remote branch baseBranch title : string)
  : M (Z * error) :=
  r <- call (GhCreatePR remote branch baseBranch title) ;;
  ret (match r_err r with
       | Some e => (0, Some e)
       | None => (r_int r, None)
       end).
End github.

(** ** package devbox, at its API (the devbox command line) *)
Module devbox.
Definition Exists (name : string) : M (bool * error) :=
  r <- call (DevboxExists name) ;;
  ret (match r_err r with
       | Some e => (false, Some e)
       | None => (r_bool r, None)
       end).

Definition Create (name repoURL branch : string) : M error :=
  r <- call (DevboxCreate name repoURL branch) ;; ret (r_err r).

Definition Delete (name : string) : M error :=
  r <- call (DevboxDelete name) ;; ret (r_err r).
End devbox.

(** ** Operating system, clock, package config *)
Module os.
Definition MkdirAll (path : string) : M error :=
  r <- call (OsMkdirAll path) ;; ret (r_err r).

Definition UserHomeDir : M (string * error) :=
  r <- call OsUserHomeDir ;;
  ret (match r_err r with
       | Some e => ("", Some e)
       | None => (r_str r, None)
       end).

(** [fmt.Fprintf(os.Stderr, ...)] *)
Definition Stderr (text : string) : M unit :=
  call (OsStderr text) ;;; ret tt.

(** [time.Now()] *)
Definition Now : M time.Time := r <- call TimeNow ;; ret (r_int r).

(** [time.Since(t)] *)
Definition Since (t : time.Time) : M time.Duration :=
  now <- Now ;; ret (time.Sub now t).
End os.

Module config.
(** GetWorktreeBaseDir returns the base directory for worktrees. *)
Definition GetWorktreeBaseDir : M string :=
  r <- os.UserHomeDir ;;
  match r with
  | (_, Some _) => ret "worktrees"
  | (home, None) => pure_of (fun w => filepath_Join w home "worktrees")
  end.
End config.

(** ** package db: the registry

    Table [tracks] with its constraints:
      type TEXT NOT NULL CHECK (type IN ('worktree', 'devbox')),
      id INTEGER PRIMARY KEY, UNIQUE(remote_url, branch).
    Timestamps are kept as instants.  Their textual form in the file is
    given by the world ([column_text]); reading a row back parses that text
    and can fail (a row that parses is returned with the instants the table
    holds), and the ORDER BY of a listing compares that text. *)
Module db.
(** WHERE remote_url = ? AND branch = ? *)
Definition same_key (remoteURL branch : string) (row : Track.t) : bool :=
  (Track.RemoteURL row =? remoteURL)%string
  && (Track.Branch row =? branch)%string.

Definition type_ok (ty : TrackType) : bool :=
  (ty =? TrackTypeWorktree)%string || (ty =? TrackTypeDevbox)%string.

(** The rowid SQLite gives to a new row: one more than the largest. *)
Definition next_id (tbl : list Track.t) : Z :=
  1 + fold_right (fun row m => Z.max (Track.ID row) m) 0 tbl.

Definition update_where (p : Track.t -> bool) (f : Track.t -> Track.t)
           (tbl : list Track.t) : list Track.t :=
  map (fun row => if p row then f row else row) tbl.

Definition count_where (p : Track.t -> bool) (tbl : list Track.t) : Z :=
  Z.of_nat (length (filter p tbl)).

(** What SQLite does with a statement: the new table and the number of
    rows affected, or the message of the constraint that rejects it. *)
Definition run_stmt (q : SqlStmt) (tbl : list Track.t)
  : (list Track.t * Z) + string :=
  match q with
  | InsertInto row =>
      if negb (type_ok (Track.Type_ row)) then
        inr "constraint failed: CHECK constraint failed: type IN ('worktree', 'devbox') (275)"
      else if existsb (same_key (Track.RemoteURL row) (Track.Branch row)) tbl
      then inr "constraint failed: UNIQUE constraint failed: tracks.remote_url, tracks.branch (2067)"
      else inl ((tbl ++ [Track.with_ID row (next_id tbl)])%list, 1)
  | DeleteFrom remoteURL branch =>
      let p := same_key remoteURL branch in
      inl (filter (fun row => negb (p row)) tbl, count_where p tbl)
  | SetLastAccessed now remoteURL branch =>
      let p := same_key remoteURL branch in
      inl (update_where p (fun row => Track.with_LastAccessed row (Some now)) tbl,
           count_where p tbl)
  | SetHeadSHA sha remoteURL branch =>
      let p := same_key remoteURL branch in
      inl (update_where p (fun row => Track.with_HeadSHA row sha) tbl,
           count_where p tbl)
  end.

(** [db.conn.Exec]: the driver may fail before the statement runs (the
    world's reply); otherwise the statement runs on the table. *)
Definition Exec (q : SqlStmt) : M (Z * error) :=
  r <- ask (SqlExec q) ;;
  match r_err r with
  | Some e => log (SqlExec q, r) ;;; ret (0, Some e)
  | None =>
      tbl <- get_rows ;;
      match run_stmt q tbl with
      | inr msg => log (SqlExec q, failed msg) ;;; ret (0, Some msg)
      | inl (tbl', n) =>
          put_rows tbl' ;;; log (SqlExec q, r) ;;; ret (n, None)
      end
  end.

(** [result.RowsAffected()] *)
Definition RowsAffected (n : Z) : M (Z * error) :=
  r <- call SqlRowsAffected ;;
  ret (match r_err r with
       | Some e => (0, Some e)
       | None => (n, None)
       end).

(** The tail shared by DeleteTrack, UpdateLastAccessed and UpdateHeadSHA. *)
Definition check_affected (n : Z) : M error :=
  r <- RowsAffected n ;;
  match r with
  | (_, Some e) => ret (Errorf "failed to get rows affected: " e)
  | (rows, None) =>
      if rows =? 0 then ret (Some "track not found") else ret None
  end.

(** InsertTrack inserts a new track into the database. *)
Definition InsertTrack (track : Track.t) : M error :=
  createdAt <- (if time.IsZero (Track.CreatedAt track)
                then os.Now
                else ret (Track.CreatedAt track)) ;;
  r <- Exec (InsertInto (Track.with_CreatedAt track createdAt)) ;;
  match r with
  | (_, Some e) => ret (Errorf "failed to insert track: " e)
  | (_, None) => ret None
  end.

(** DeleteTrack deletes a track by remote URL and branch. *)
Definition DeleteTrack (remoteURL branch : string) : M error :=
  r <- Exec (DeleteFrom remoteURL branch) ;;
  match r with
  | (_, Some e) => ret (Errorf "failed to delete track: " e)
  | (n, None) => check_affected n
  end.

(** [time.Parse] of a timestamp column of a row, in the two layouts of
    scanTrack and scanTrackRow; the error is that of the second layout. *)
Definition parse_column (w : World) (column : string) (row : Track.t)
  : error :=
  time_Parse w (column_text w column row).

(** GetTrack retrieves a track by remote URL and branch (QueryRow, then
    scanTrack): (nil, nil) when no row matches (sql.ErrNoRows); a row found
    has its two timestamps parsed. *)
Definition GetTrack (remoteURL branch : string)
  : M (option Track.t * error) :=
  r <- call (SqlQueryRow remoteURL branch) ;;
  match r_err r with
  | Some e => ret (None, Errorf "failed to scan track: " e)
  | None =>
      tbl <- get_rows ;;
      match find (same_key remoteURL branch) tbl with
      | None => ret (None, None)
      | Some row =>
          (* Parse created_at *)
          e <- pure_of (fun w => parse_column w "created_at" row) ;;
          match e with
          | Some x => ret (None, Errorf "failed to parse created_at: " x)
          | None =>
              (* Parse last_accessed if present *)
              match Track.LastAccessed row with
              | Some _ =>
                  e <- pure_of (fun w => parse_column w "last_accessed" row) ;;
                  match e with
                  | Some x =>
                      ret (None, Errorf "failed to parse last_accessed: " x)
                  | None => ret (Some row, None)
                  end
              | None => ret (Some row, None)
              end
          end
      end
  end.

(** UpdateLastAccessed updates the last_accessed timestamp for a track. *)
Definition UpdateLastAccessed (remoteURL branch : string) : M error :=
  now <- os.Now ;;
  r <- Exec (SetLastAccessed now remoteURL branch) ;;
  match r with
  | (_, Some e) => ret (Errorf "failed to update last accessed: " e)
  | (n, None) => check_affected n
  end.

(** UpdateHeadSHA updates the head SHA for a track. *)
Definition UpdateHeadSHA (remoteURL branch sha : string) : M error :=
  r <- Exec (SetHeadSHA sha remoteURL branch) ;;
  match r with
  | (_, Some e) => ret (Errorf "failed to update head SHA: " e)
  | (n, None) => check_affected n
  end.

(** ORDER BY last_accessed DESC NULLS LAST, created_at DESC: whether row
    [a] may stand before row [b].  The columns hold text, which SQLite
    compares byte by byte; [text] is the stored text of a column of a
    row. *)
Definition sorts_before (text : string -> Track.t -> string)
           (a b : Track.t) : bool :=
  match Track.LastAccessed a, Track.LastAccessed b with
  | Some _, Some _ =>
      let x := text "last_accessed" a in
      let y := text "last_accessed" b in
      (y <? x)%string
      || ((x =? y)%string
          && (text "created_at" b <=? text "created_at" a)%string)
  | Some _, None => true
  | None, Some _ => false
  | None, None => (text "created_at" b <=? text "created_at" a)%string
  end.

Fixpoint insert_row (text : string -> Track.t -> string) (x : Track.t)
         (sorted : list Track.t) : list Track.t :=
  match sorted with
  | [] => [x]
  | y :: rest =>
      if sorts_before text x y then x :: y :: rest
      else y :: insert_row text x rest
  end.

(** The rows in the order of the ORDER BY clause; rows that the clause
    does not tell apart stay in the order of the table. *)
Definition order_rows (text : string -> Track.t -> string)
           (tbl : list Track.t) : list Track.t :=
  fold_right (insert_row text) [] tbl.

(** scanTrackRow: scan the columns, then parse the two timestamps, as
    scanTrack does. *)
Definition scanTrackRow (row : Track.t) : M2 (Track.t + string) :=
  r <~ call2 (SqlScan row) ;;
  match r_err r with
  | Some e => ret2 (inr ("failed to scan track: " ++ e))
  | None =>
      (* Parse created_at *)
      e <~ pure2 (fun w => parse_column (inner w) "created_at" row) ;;
      match e with
      | Some x => ret2 (inr ("failed to parse created_at: " ++ x))
      | None =>
          (* Parse last_accessed if present *)
          match Track.LastAccessed row with
          | Some _ =>
              e <~ pure2 (fun w =>
                            parse_column (inner w) "last_accessed" row) ;;
              match e with
              | Some x => ret2 (inr ("failed to parse last_accessed: " ++ x))
              | None => ret2 (inl row)
              end
          | None => ret2 (inl row)
          end
      end
  end.

(** The loop [for rows.Next()] of ListTracks, then [rows.Err()].  The
    cursor hands out every row of the result before it is asked for its
    error. *)
Fixpoint scan_rows (pending tracks : list Track.t)
  : M2 (list Track.t * error) :=
  match pending with
  | [] =>
      r <~ call2 SqlRowsErr ;;
      match r_err r with
      | Some e => ret2 ([], Errorf "error iterating tracks: " e)
      | None => ret2 (tracks, None)
      end
  | row :: rest =>
      r <~ scanTrackRow row ;;
      match r with
      | inr e => ret2 ([], Some e)
      | inl track => scan_rows rest (tracks ++ [track])%list
      end
  end.

(** ListTracks retrieves all tracks from the database. *)
Definition ListTracks : M2 (list Track.t * error) :=
  r <~ call2 SqlQuery ;;
  match r_err r with
  | Some e => ret2 ([], Errorf "failed to list tracks: " e)
  | None =>
      tbl <~ get_rows2 ;;
      text <~ pure2 (fun w => column_text (inner w)) ;;
      scan_rows (order_rows text tbl) []
  end.
End db.

(** ** package track (types.go, slug.go) *)
Module track.
(** The loop of itoa: digits in reverse while n > 0.  An int has at most
    19 decimal digits, so 20 rounds always reach n = 0. *)
Fixpoint itoa_digits (rounds : nat) (n : Z) (digits : list ascii)
  : list ascii :=
  match rounds with
  | O => digits
  | S rounds' =>
      if n >? 0 then
        itoa_digits rounds' (Z.quot n 10)
                    (digits ++ [ascii_of_nat (48 + Z.to_nat (Z.rem n 10))])%list
      else digits
  end.

(** itoa converts an integer to a string without importing strconv. *)
Definition itoa (n : Z) : string :=
  if n =? 0 then "0"
  else
    let negative := n <? 0 in
    let n := if negative then wrap64 (- n) else n in
    (* Build digits in reverse, then reverse *)
    let digits := rev (itoa_digits 20 n []) in
    if negative then "-" ++ string_of_list_ascii digits
    else string_of_list_ascii digits.

Definition up_arrow : string := "↑".
Definition down_arrow : string := "↓".
Definition check_mark : string := "✓".
Definition circle : string := "○".
Definition cross : string := "✗".
Definition dash : string := "—".

(** String returns a human-readable representation of the git status. *)
Definition GitStatus_String (s : GitStatus.t) : string :=
  if negb (GitStatus.Clean s) then "dirty"
  else if negb (GitStatus.Ahead s) && negb (GitStatus.Behind s) then "clean"
  else
    let result := "" in
    let result :=
      if GitStatus.Ahead s
      then result ++ up_arrow ++ itoa (GitStatus.AheadCount s)
      else result in
    let result :=
      if GitStatus.Behind s
      then result ++ down_arrow ++ itoa (GitStatus.BehindCount s)
      else result in
    result.

(** Symbol of a CI status; the receiver may be nil. *)
Definition CIStatus_Symbol (s : option CIStatus.t) : string :=
  match s with
  | None => dash
  | Some s =>
      if CIStatus.Passing s then check_mark
      else if CIStatus.Pending s then circle
      else if CIStatus.Failing s then cross
      else dash
  end.

(** Symbol of a review status; the receiver may be nil. *)
Definition ReviewStatus_Symbol (s : option ReviewStatus.t) : string :=
  match s with
  | None => dash
  | Some s =>
      if ReviewStatus.Approved s then check_mark
      else if ReviewStatus.ChangesRequested s then cross
      else if ReviewStatus.Pending s then circle
      else dash
  end.

(** nonAlphanumericRegex.ReplaceAllString(slug, ""): every byte outside
    [a-zA-Z0-9-] goes (a rune outside ASCII has only such bytes). *)
Fixpoint remove_non_alphanumeric (s : string) : string :=
  match s with
  | EmptyString => EmptyString
  | String c rest =>
      if is_slug_byte c then String c (remove_non_alphanumeric rest)
      else remove_non_alphanumeric rest
  end.

(** multipleHyphensRegex.ReplaceAllString(slug, "-") *)
Fixpoint collapse_hyphens (s : string) : string :=
  match s with
  | EmptyString => EmptyString
  | String c rest =>
      if Ascii.eqb c hyphen then
        match rest with
        | String d _ =>
            if Ascii.eqb d hyphen then collapse_hyphens rest
            else String c (collapse_hyphens rest)
        | EmptyString => String c EmptyString
        end
      else String c (collapse_hyphens rest)
  end.

Fixpoint trim_left (s : string) (cut : ascii) : string :=
  match s with
  | EmptyString => EmptyString
  | String c rest => if Ascii.eqb c cut then trim_left rest cut else s
  end.

Fixpoint trim_right (s : string) (cut : ascii) : string :=
  match s with
  | EmptyString => EmptyString
  | String c rest =>
      match trim_right rest cut with
      | EmptyString => if Ascii.eqb c cut then EmptyString
                       else String c EmptyString
      | kept => String c kept
      end
  end.

(** [strings.Trim(s, cutset)] with a cutset of one byte. *)
Definition Trim (s : string) (cut : ascii) : string :=
  trim_right (trim_left s cut) cut.

(** Slugify converts a branch name to a URL-safe slug.  [lower] is
    [strings.ToLower]. *)
Definition Slugify (lower : string -> string) (branch : string) : string :=
  (* Convert to lowercase *)
  let slug := lower branch in
  (* Replace common separators with hyphens *)
  let slug := ReplaceAll slug "/" hyphen in
  let slug := ReplaceAll slug "_" hyphen in
  let slug := ReplaceAll slug " " hyphen in
  let slug := ReplaceAll slug "." hyphen in
  let slug := ReplaceAll slug "@" hyphen in
  let slug := ReplaceAll slug "#" hyphen in
  (* Remove any remaining non-alphanumeric characters (except hyphens) *)
  let slug := remove_non_alphanumeric slug in
  (* Collapse multiple hyphens into single hyphen *)
  let slug := collapse_hyphens slug in
  (* Trim leading and trailing hyphens *)
  Trim slug hyphen.

(** GenerateSlug creates a worktree directory name from branch and SHA. *)
Definition GenerateSlug (lower : string -> string) (branch sha : string)
  : string :=
  let slug := Slugify lower branch in
  (* Take first 7 characters of SHA (standard short SHA) *)
  let shortSHA :=
    if (7 <? String.length sha)%nat then substring 0 7 sha else sha in
  if (shortSHA =? "")%string then slug
  else slug ++ "-" ++ shortSHA.
End track.

(** ** package git (git.go), down to the command line *)
Module git_go.
(** runGit executes a git command in the specified directory. *)
Definition runGit (repoPath : string) (args : list string)
  : M2 (string * error) :=
  runner_Run repoPath "git" args.

Definition only_err (m : M2 (string * error)) : M2 error :=
  r <~ m ;; ret2 (snd r).

(** Fetch fetches from origin. *)
Definition Fetch (repoPath : string) : M2 error :=
  only_err (runGit repoPath ["fetch"; "origin"]).

(** GetDefaultBranch detects the default branch: first from the remote
    HEAD ref, then by checking common branch names. *)
Definition GetDefaultBranch (repoPath : string) : M2 (string * error) :=
  (* Try to get from symbolic-ref of origin/HEAD *)
  r <~ runGit repoPath ["symbolic-ref"; "refs/remotes/origin/HEAD"] ;;
  match (match r with
         | (output, None) =>
             (* Output is like "refs/remotes/origin/main" *)
             let parts := Split output "/" in
             if (0 <? length parts)%nat then Some (last_piece parts)
             else None
         | (_, Some _) => None
         end) with
  | Some name => ret2 (name, None)
  | None =>
      (* Fallback: check if origin/main or origin/master exists *)
      r <~ runGit repoPath ["rev-parse"; "--verify"; "origin/main"] ;;
      match snd r with
      | None => ret2 ("main", None)
      | Some _ =>
          r <~ runGit repoPath ["rev-parse"; "--verify"; "origin/master"] ;;
          match snd r with
          | None => ret2 ("master", None)
          | Some _ => ret2 ("", Some "could not determine default branch")
          end
      end
  end.

(** CreateBranch creates a new branch from a base branch. *)
Definition CreateBranch (repoPath branchName baseBranch : string) : M2 error :=
  only_err (runGit repoPath ["branch"; branchName; baseBranch]).

(** WorktreeAdd adds a new worktree at the specified path. *)
Definition WorktreeAdd (repoPath worktreePath branch : string) : M2 error :=
  only_err (runGit repoPath ["worktree"; "add"; worktreePath; branch]).

(** WorktreeRemove removes a worktree at the specified path. *)
Definition WorktreeRemove (repoPath worktreePath : string) : M2 error :=
  only_err (runGit repoPath ["worktree"; "remove"; worktreePath]).

(** WorktreePrune prunes stale worktree references. *)
Definition WorktreePrune (repoPath : string) : M2 error :=
  only_err (runGit repoPath ["worktree"; "prune"]).

(** Rebase rebases current branch onto another branch.  Returns true if
    there are conflicts, false otherwise. *)
Definition Rebase (repoPath ontoBranch : string) : M2 (bool * error) :=
  r <~ runGit repoPath ["rebase"; ontoBranch] ;;
  match snd r with
  | Some e =>
      (* Check if it's a conflict situation *)
      if Contains e "CONFLICT" || Contains e "conflict" then ret2 (true, None)
      else
        (* Check rebase status *)
        st <~ runGit repoPath ["rebase"; "--show-current-patch"] ;;
        match snd st with
        | None => (* We're in a rebase with conflicts *) ret2 (true, None)
        | Some _ => ret2 (false, Some e)
        end
  | None => ret2 (false, None)
  end.

(** RebaseAbort aborts an in-progress rebase. *)
Definition RebaseAbort (repoPath : string) : M2 error :=
  only_err (runGit repoPath ["rebase"; "--abort"]).

(** RebaseContinue continues a rebase after conflicts are resolved. *)
Definition RebaseContinue (repoPath : string) : M2 error :=
  only_err (runGit repoPath ["rebase"; "--continue"]).

(** Push pushes a branch to origin. *)
Definition Push (repoPath branch : string) : M2 error :=
  only_err (runGit repoPath ["push"; "origin"; branch]).

(** PushForce force-pushes a branch to origin (needed after rebase). *)
Definition PushForce (repoPath branch : string) : M2 error :=
  only_err (runGit repoPath ["push"; "--force-with-lease"; "origin"; branch]).

(** PushDelete deletes a remote branch. *)
Definition PushDelete (repoPath branch : string) : M2 error :=
  only_err (runGit repoPath ["push"; "origin"; "--delete"; branch]).

(** AheadBehind returns how many commits ahead and behind a branch is from
    base, from git rev-list --left-right --count. *)
Definition AheadBehind (repoPath branch baseBranch : string)
  : M2 (Z * Z * error) :=
  r <~ runGit repoPath ["rev-list"; "--left-right"; "--count";
                        branch ++ "..." ++ baseBranch] ;;
  match r with
  | (_, Some e) => ret2 (0, 0, Some e)
  | (output, None) =>
      parts <~ pure2 (fun w => Fields w output) ;;
      if negb (length parts =? 2)%nat then
        ret2 (0, 0, Some ("unexpected rev-list output: " ++ output))
      else
        match Atoi (nth 0 parts "") with
        | None =>
            e <~ pure2 (fun w => Atoi_error w (nth 0 parts "")) ;;
            ret2 (0, 0, Errorf "failed to parse ahead count: " e)
        | Some ahead =>
            match Atoi (nth 1 parts "") with
            | None =>
                e <~ pure2 (fun w => Atoi_error w (nth 1 parts "")) ;;
                ret2 (0, 0, Errorf "failed to parse behind count: " e)
            | Some behind => ret2 (ahead, behind, None)
            end
        end
  end.

(** GetHeadSHA returns the SHA of HEAD. *)
Definition GetHeadSHA (repoPath : string) : M2 (string * error) :=
  runGit repoPath ["rev-parse"; "HEAD"].

(** GetBranchSHA returns the SHA of a specific branch. *)
Definition GetBranchSHA (repoPath branch : string) : M2 (string * error) :=
  runGit repoPath ["rev-parse"; branch].

(** IsDirty returns true if there are uncommitted changes. *)
Definition IsDirty (repoPath : string) : M2 (bool * error) :=
  r <~ runGit repoPath ["status"; "--porcelain"] ;;
  match r with
  | (_, Some e) => ret2 (false, Some e)
  | (output, None) => ret2 ((0 <? String.length output)%nat, None)
  end.

(** Checkout checks out a branch. *)
Definition Checkout (repoPath branch : string) : M2 error :=
  only_err (runGit repoPath ["checkout"; branch]).

(** Pull pulls from origin for a specific branch with rebase. *)
Definition Pull (repoPath branch : string) : M2 error :=
  only_err (runGit repoPath ["pull"; "--rebase"; "origin"; branch]).

(** GetCurrentBranch returns the name of the current branch. *)
Definition GetCurrentBranch (repoPath : string) : M2 (string * error) :=
  runGit repoPath ["rev-parse"; "--abbrev-ref"; "HEAD"].
End git_go.

(** ** package tmux (tmux.go), down to the command line *)
Module tmux.
Definition run (args : list string) : M2 (string * error) :=
  runner_Run "" "tmux" args.

Definition only_err (m : M2 (string * error)) : M2 error :=
  r <~ m ;; ret2 (snd r).

(** SessionExists checks if a tmux session with the given name exists. *)
Definition SessionExists (name : string) : M2 (bool * error) :=
  r <~ run ["has-session"; "-t"; name] ;;
  match snd r with
  | Some e =>
      (* tmux has-session returns exit code 1 if session doesn't exist *)
      if Contains e "exit status 1" || Contains e "can't find session"
      then ret2 (false, None)
      else ret2 (false, Some e)
  | None => ret2 (true, None)
  end.

(** CreateSession creates a new detached tmux session. *)
Definition CreateSession (name : string) : M2 error :=
  only_err (run ["new-session"; "-d"; "-s"; name]).

(** WindowExists checks if a window exists in the given session. *)
Definition WindowExists (session windowName : string) : M2 (bool * error) :=
  r <~ run ["list-windows"; "-t"; session; "-F"; "#{window_name}"] ;;
  match r with
  | (_, Some e) =>
      (* Session might not exist *)
      if Contains e "can't find session" then ret2 (false, None)
      else ret2 (false, Some e)
  | (output, None) =>
      let windows := Split output (ascii_of_nat 10) in
      ret2 (existsb (fun w => (w =? windowName)%string) windows, None)
  end.

(** CreateWindow creates a new window with optional start directory. *)
Definition CreateWindow (session windowName startDir : string) : M2 error :=
  let args := ["new-window"; "-t"; session; "-n"; windowName] in
  let args :=
    if negb (startDir =? "")%string then (args ++ ["-c"; startDir])%list
    else args in
  only_err (run args).

(** SwitchToWindow switches to a window; only works inside tmux. *)
Definition SwitchToWindow (session windowName : string) : M2 error :=
  let target := session ++ ":" ++ windowName in
  only_err (run ["switch-client"; "-t"; target]).

(** AttachSession attaches to a session, from outside tmux. *)
Definition AttachSession (session : string) : M2 error :=
  runner_Exec "tmux" ["attach-session"; "-t"; session].

(** IsInsideTmux returns true if currently running inside tmux. *)
Definition IsInsideTmux : M2 bool :=
  r <~ call2 (OsGetenv "TMUX") ;;
  ret2 (negb (r_str r =? "")%string).

(** RunInWindow sends a command to run in a specific window. *)
Definition RunInWindow (session windowName command : string) : M2 error :=
  let target := session ++ ":" ++ windowName in
  only_err (run ["send-keys"; "-t"; target; command; "Enter"]).

(** SelectWindow makes a window the current window of its session. *)
Definition SelectWindow (session windowName : string) : M2 error :=
  let target := session ++ ":" ++ windowName in
  only_err (run ["select-window"; "-t"; target]).

(** KillWindow kills a window in a session. *)
Definition KillWindow (session windowName : string) : M2 error :=
  let target := session ++ ":" ++ windowName in
  only_err (run ["kill-window"; "-t"; target]).

(** KillSession kills an entire session. *)
Definition KillSession (session : string) : M2 error :=
  only_err (run ["kill-session"; "-t"; session]).

(** ListSessions returns a list of all tmux session names. *)
Definition ListSessions : M2 (list string * error) :=
  r <~ run ["list-sessions"; "-F"; "#{session_name}"] ;;
  match r with
  | (_, Some e) =>
      (* No server running is not an error for our purposes *)
      if Contains e "no server running" then ret2 ([], None)
      else ret2 ([], Some e)
  | (output, None) =>
      if (output =? "")%string then ret2 ([], None)
      else ret2 (Split output (ascii_of_nat 10), None)
  end.

(** ListWindows returns a list of all window names in a session. *)
Definition ListWindows (session : string) : M2 (list string * error) :=
  r <~ run ["list-windows"; "-t"; session; "-F"; "#{window_name}"] ;;
  match r with
  | (_, Some e) => ret2 ([], Some e)
  | (output, None) =>
      if (output =? "")%string then ret2 ([], None)
      else ret2 (Split output (ascii_of_nat 10), None)
  end.
End tmux.

(** ** package github (github.go), down to the command line *)
Module github_go.
(** runGH executes a gh command and returns output. *)
Definition runGH (args : list string) : M2 (string * error) :=
  runner_Run "" "gh" args.

(** GetDefaultBranch returns the default branch for a repository. *)
Definition GetDefaultBranch (remote : string) : M2 (string * error) :=
  r <~ runGH ["repo"; "view"; remote; "--json"; "defaultBranchRef";
              "--jq"; ".defaultBranchRef.name"] ;;
  match r with
  | (_, Some e) => ret2 ("", Errorf "failed to get default branch: " e)
  | (output, None) =>
      if (output =? "")%string
      then ret2 ("", Some ("no default branch found for " ++ remote))
      else ret2 (output, None)
  end.

(** GetCurrentUser returns the authenticated GitHub username. *)
Definition GetCurrentUser : M2 (string * error) :=
  r <~ runGH ["api"; "user"; "--jq"; ".login"] ;;
  match r with
  | (_, Some e) => ret2 ("", Errorf "failed to get current user: " e)
  | (output, None) =>
      if (output =? "")%string then ret2 ("", Some "no user logged in")
      else ret2 (output, None)
  end.

(** normalizeCIStatus converts gh CLI status to our standard values. *)
Definition normalizeCIStatus (upper : string -> string) (status : string)
  : string :=
  let u := upper status in
  if (u =? "SUCCESS")%string then "success"
  else if (u =? "FAILURE")%string || (u =? "ERROR")%string then "failure"
  else if (u =? "PENDING")%string || (u =? "EXPECTED")%string
          || (u =? "QUEUED")%string || (u =? "IN_PROGRESS")%string
  then "pending"
  else "unknown".

(** normalizeReviewStatus converts gh CLI review decision to our standard
    values. *)
Definition normalizeReviewStatus (upper : string -> string)
           (decision : string) : string :=
  let u := upper decision in
  if (u =? "APPROVED")%string then "approved"
  else if (u =? "CHANGES_REQUESTED")%string then "changes_requested"
  else if (u =? "REVIEW_REQUIRED")%string then "pending"
  else "unknown".

(** The PR record built from the JSON of gh. *)
Definition to_PR (w : World2) (p : ghPR.t) : PR.t :=
  PR.mk (ghPR.Number p) (ghPR.HeadRefName p)
        (ToLower w (ghPR.State p))
        (normalizeCIStatus (ToUpper w) (ghPR.StatusRollup p))
        (normalizeReviewStatus (ToUpper w) (ghPR.ReviewDecision p)).

(** ListMyPRs returns all open PRs authored by the current user. *)
Definition ListMyPRs (remote : string) : M2 (list PR.t * error) :=
  u <~ GetCurrentUser ;;
  match u with
  | (_, Some e) => ret2 ([], Some e)
  | (user, None) =>
      r <~ runGH ["pr"; "list"; "--repo"; remote; "--author"; user;
                  "--state"; "open"; "--json";
                  "number,headRefName,state,statusCheckRollup,reviewDecision"] ;;
      match r with
      | (_, Some e) => ret2 ([], Errorf "failed to list PRs: " e)
      | (output, None) =>
          if (output =? "")%string || (output =? "[]")%string
          then ret2 ([], None)
          else
            parsed <~ pure2 (fun w => Unmarshal_ghPRs w output) ;;
            match parsed with
            | inr e => ret2 ([], Errorf "failed to parse PR list: " e)
            | inl ghPRs => pure2 (fun w => (map (to_PR w) ghPRs, None))
            end
      end
  end.

(** CreatePR creates a new pull request and returns the PR number: the
    last piece of the URL that gh prints. *)
Definition CreatePR (remote branch baseBranch title : string)
  : M2 (Z * error) :=
  r <~ runGH ["pr"; "create"; "--repo"; remote; "--head"; branch;
              "--base"; baseBranch; "--title"; title; "--body"; ""] ;;
  match r with
  | (_, Some e) => ret2 (0, Errorf "failed to create PR: " e)
  | (output, None) =>
      let parts := Split output "/" in
      if (length parts =? 0)%nat
      then ret2 (0, Some ("unexpected PR create output: " ++ output))
      else
        let numStr := last_piece parts in
        match Atoi numStr with
        | None =>
            e <~ pure2 (fun w => Atoi_error w numStr) ;;
            ret2 (0, Some ("failed to parse PR number from " ++ output
                             ++ ": " ++ e))
        | Some num => ret2 (num, None)
        end
  end.

(** GetPRForBranch returns the PR for a specific branch, or nil if none
    exists. *)
Definition GetPRForBranch (remote branch : string)
  : M2 (option PR.t * error) :=
  r <~ runGH ["pr"; "view"; branch; "--repo"; remote; "--json";
              "number,headRefName,state,statusCheckRollup,reviewDecision"] ;;
  match r with
  | (_, Some e) =>
      (* Check if the error is "no pull requests found" *)
      if Contains e "no pull requests found" || Contains e "Could not resolve"
      then ret2 (None, None)
      else ret2 (None, Some ("failed to get PR for branch " ++ branch
                               ++ ": " ++ e))
  | (output, None) =>
      if (output =? "")%string then ret2 (None, None)
      else
        parsed <~ pure2 (fun w => Unmarshal_ghPR w output) ;;
        match parsed with
        | inr e => ret2 (None, Errorf "failed to parse PR: " e)
        | inl p => pure2 (fun w => (Some (to_PR w p), None))
        end
  end.
End github_go.

(** ** package devbox (devbox.go), down to the command line *)
Module devbox_go.
Definition run (args : list string) : M2 (string * error) :=
  bin <~ pure2 devboxBinary ;;
  runner_Run "" bin args.

(** Create creates a new devbox environment. *)
Definition Create (name repoURL branch : string) : M2 error :=
  r <~ run ["create"; "--name"; name; "--repo"; repoURL; "--branch"; branch] ;;
  ret2 (snd r).

(** Delete deletes a devbox environment. *)
Definition Delete (name : string) : M2 error :=
  r <~ run ["delete"; name] ;; ret2 (snd r).

(** List returns all devbox environments. *)
Definition List : M2 (list Devbox.t * error) :=
  r <~ run ["list"; "--json"] ;;
  match r with
  | (_, Some e) =>
      (* If no devboxes exist, CLI might return empty or error *)
      if Contains e "no devboxes" then ret2 ([], None)
      else ret2 ([], Some e)
  | (output, None) =>
      if (output =? "")%string then ret2 ([], None)
      else
        parsed <~ pure2 (fun w => Unmarshal_devboxes w output) ;;
        match parsed with
        | inr e => ret2 ([], Errorf "failed to parse devbox list output: " e)
        | inl devboxes => ret2 (devboxes, None)
        end
  end.

(** Exists checks if a devbox with the given name exists. *)
Definition Exists (name : string) : M2 (bool * error) :=
  r <~ List ;;
  match r with
  | (_, Some e) => ret2 (false, Some e)
  | (devboxes, None) =>
      ret2 (existsb (fun d => (Devbox.Name d =? name)%string) devboxes, None)
  end.

(** SSH connects to a devbox environment interactively. *)
Definition SSH (name : string) : M2 error :=
  bin <~ pure2 devboxBinary ;;
  runner_Exec bin ["ssh"; name].

(** GetSSHCommand returns the SSH command string for a devbox. *)
Definition GetSSHCommand (name : string) : M2 (string * error) :=
  r <~ run ["ssh-command"; name] ;;
  match r with
  | (_, Some e) => ret2 ("", Some e)
  | (output, None) => ret2 (output, None)
  end.

(** GetStatus returns the status of a specific devbox, or the empty string
    if the devbox doesn't exist. *)
Definition GetStatus (name : string) : M2 (string * error) :=
  r <~ List ;;
  match r with
  | (_, Some e) => ret2 ("", Some e)
  | (devboxes, None) =>
      match find (fun d => (Devbox.Name d =? name)%string) devboxes with
      | Some d => ret2 (Devbox.Status d, None)
      | None => ret2 ("", None)
      end
  end.
End devbox_go.

(** ops.TrackWithStatus *)
Module TrackWithStatus.
Record t := mk { Track : Track.t; Status : TrackStatus.t }.
End TrackWithStatus.

(** ** package ops (ops.go): the engine *)

(** ops.Ops: the registry handle is the state; the configuration is read. *)
Module Ops.
Record t := mk { config : Config.t }.
End Ops.

Module ops.
Definition repoPath_of (o : Ops.t) : string :=
  RepoConfig.Path (Config.Repo (Ops.config o)).
Definition remote_of (o : Ops.t) : string :=
  RepoConfig.Remote (Config.Repo (Ops.config o)).

Definition is_nil (e : error) : bool :=
  match e with None => true | Some _ => false end.

(** NewTrackWorktree creates a new worktree-based track for the given
    branch: creates the branch if it does not exist, adds a git worktree,
    and records it in the database. *)
Definition NewTrackWorktree (o : Ops.t) (branch : string) : M error :=
  let repoPath := repoPath_of o in
  let remote := remote_of o in
  (* Fetch latest from remote *)
  e <- git.Fetch repoPath ;;
  match e with Some x => ret (Errorf "failed to fetch from remote: " x) | None =>
  (* Get the default branch to base new branch on *)
  r <- git.GetDefaultBranch repoPath ;;
  match r with (_, Some x) => ret (Errorf "failed to get default branch: " x)
  | (defaultBranch, None) =>
  (* Check if branch already exists locally, then on remote *)
  l <- git.GetBranchSHA repoPath branch ;;
  let branchExists := is_nil (snd l) in
  rm <- git.GetBranchSHA repoPath ("origin/" ++ branch) ;;
  let remoteBranchExists := is_nil (snd rm) in
  e <- (if negb branchExists then
          if remoteBranchExists then
            (* Create local branch tracking remote *)
            e <- git.CreateBranch repoPath branch ("origin/" ++ branch) ;;
            match e with
            | Some x => ret (Errorf "failed to create branch from remote: " x)
            | None => ret None
            end
          else
            (* Create new branch from default branch *)
            e <- git.CreateBranch repoPath branch ("origin/" ++ defaultBranch) ;;
            match e with
            | Some x => ret (Errorf "failed to create branch: " x)
            | None => ret None
            end
        else ret None) ;;
  match e with Some x => ret (Some x) | None =>
  (* Get the SHA for the worktree path generation *)
  r <- git.GetBranchSHA repoPath branch ;;
  match r with (_, Some x) => ret (Errorf "failed to get branch SHA: " x)
  | (sha, None) =>
  (* Generate worktree path *)
  slug <- pure_of (fun w => GenerateSlug w branch sha) ;;
  worktreeBase <- config.GetWorktreeBaseDir ;;
  worktreePath <- pure_of (fun w => filepath_Join w worktreeBase slug) ;;
  (* Ensure worktree base directory exists *)
  e <- os.MkdirAll worktreeBase ;;
  match e with
  | Some x => ret (Errorf "failed to create worktree base directory: " x)
  | None =>
  (* Add the worktree *)
  e <- git.WorktreeAdd repoPath worktreePath branch ;;
  match e with Some x => ret (Errorf "failed to add worktree: " x) | None =>
  (* Record in database *)
  now <- os.Now ;;
  let trackRecord :=
    Track.mk 0 branch remote sha TrackTypeWorktree (Some worktreePath) None
             now (Some now) in
  e <- db.InsertTrack trackRecord ;;
  match e with
  | Some x =>
      (* If DB insert fails, try to clean up the worktree *)
      git.WorktreeRemove repoPath worktreePath ;;;
      ret (Errorf "failed to record track in database: " x)
  | None => ret None
  end end end end end end end.

(** NewTrackDevbox creates a new devbox-based track for the given branch:
    creates a remote dev environment and records it in the database. *)
Definition NewTrackDevbox (o : Ops.t) (branch : string) : M error :=
  let remote := remote_of o in
  let repoPath := repoPath_of o in
  (* Generate a unique devbox name from the branch *)
  devboxName <- pure_of (fun w => Slugify w branch) ;;
  (* Check if devbox already exists *)
  r <- devbox.Exists devboxName ;;
  match r with
  | (_, Some x) => ret (Errorf "failed to check if devbox exists: " x)
  | (true, None) => ret (Some ("devbox " ++ devboxName ++ " already exists"))
  | (false, None) =>
  (* Create the devbox *)
  let repoURL := "https://github.com/" ++ remote ++ ".git" in
  e <- devbox.Create devboxName repoURL branch ;;
  match e with Some x => ret (Errorf "failed to create devbox: " x) | None =>
  (* Get current SHA for tracking; a failed fetch is not fatal *)
  git.Fetch repoPath ;;;
  r <- git.GetBranchSHA repoPath ("origin/" ++ branch) ;;
  let sha := if (fst r =? "")%string then "unknown" else fst r in
  (* Record in database *)
  now <- os.Now ;;
  let trackRecord :=
    Track.mk 0 branch remote sha TrackTypeDevbox None (Some devboxName)
             now (Some now) in
  e <- db.InsertTrack trackRecord ;;
  match e with
  | Some x =>
      (* If DB insert fails, try to clean up the devbox *)
      devbox.Delete devboxName ;;;
      ret (Errorf "failed to record track in database: " x)
  | None => ret None
  end end end.

(** DeleteTrack deletes a track (worktree or devbox) and optionally the
    remote branch. *)
Definition DeleteTrack (o : Ops.t) (branch : string) (deleteRemote : bool)
  : M error :=
  let remote := remote_of o in
  let repoPath := repoPath_of o in
  (* Get the track from database *)
  r <- db.GetTrack remote branch ;;
  match r with
  | (_, Some x) => ret (Errorf "failed to get track: " x)
  | (None, None) => ret (Some ("track not found for branch: " ++ branch))
  | (Some trk, None) =>
  (* Delete the local environment based on type *)
  e <- (if (Track.Type_ trk =? TrackTypeWorktree)%string then
          match Track.Path trk with
          | Some path =>
              e <- git.WorktreeRemove repoPath path ;;
              match e with
              | Some x => ret (Errorf "failed to remove worktree: " x)
              | None =>
                  (* Prune stale worktree references *)
                  git.WorktreePrune repoPath ;;; ret None
              end
          | None => ret None
          end
        else if (Track.Type_ trk =? TrackTypeDevbox)%string then
          match Track.DevboxName trk with
          | Some name =>
              e <- devbox.Delete name ;;
              match e with
              | Some x => ret (Errorf "failed to delete devbox: " x)
              | None => ret None
              end
          | None => ret None
          end
        else ret None) ;;
  match e with Some x => ret (Some x) | None =>
  (* Optionally delete remote branch *)
  (if deleteRemote then
     e <- git.PushDelete repoPath branch ;;
     match e with
     | Some x =>
         (* Log but don't fail if remote delete fails *)
         os.Stderr ("warning: failed to delete remote branch: " ++ x ++ nl)
     | None => ret tt
     end
   else ret tt) ;;;
  (* Remove from database *)
  e <- db.DeleteTrack remote branch ;;
  match e with
  | Some x => ret (Errorf "failed to remove track from database: " x)
  | None => ret None
  end end end.

(** SyncTrack syncs a track: pulls default branch, rebases, pushes,
    creates PR if needed.  If there are rebase conflicts, HasConflicts
    will be true. *)
Definition SyncTrack (o : Ops.t) (branch : string)
  : M (option SyncResult.t * error) :=
  let remote := remote_of o in
  (* Get the track from database *)
  r <- db.GetTrack remote branch ;;
  match r with
  | (_, Some x) => ret (None, Errorf "failed to get track: " x)
  | (None, None) => ret (None, Some ("track not found for branch: " ++ branch))
  | (Some trk, None) =>
  (* Determine the working directory *)
  match (if (Track.Type_ trk =? TrackTypeWorktree)%string then
           match Track.Path trk with
           | None => inr "worktree track has no path"
           | Some path => inl path
           end
         else if (Track.Type_ trk =? TrackTypeDevbox)%string then
           inr "sync is not supported for devbox tracks (use devbox CLI directly)"
         else inl "")
  with
  | inr msg => ret (None, Some msg)
  | inl workDir =>
  let result := SyncResult.zero in
  (* Fetch latest from remote *)
  e <- git.Fetch workDir ;;
  match e with Some x => ret (None, Errorf "failed to fetch: " x) | None =>
  (* Get the default branch *)
  r <- git.GetDefaultBranch workDir ;;
  match r with
  | (_, Some x) => ret (None, Errorf "failed to get default branch: " x)
  | (defaultBranch, None) =>
  (* Rebase onto default branch *)
  r <- git.Rebase workDir ("origin/" ++ defaultBranch) ;;
  match r with
  | (_, Some x) => ret (None, Errorf "rebase failed: " x)
  | (true, None) =>
      ret (Some (SyncResult.with_conflicts result true workDir), None)
  | (false, None) =>
  let result := SyncResult.with_Rebased result true in
  (* Push to remote (force after rebase) *)
  e <- git.PushForce workDir branch ;;
  match e with Some x => ret (None, Errorf "failed to push: " x) | None =>
  let result := SyncResult.with_Pushed result true in
  (* Update HEAD SHA in database *)
  r <- git.GetHeadSHA workDir ;;
  match r with
  | (newSHA, None) => db.UpdateHeadSHA remote branch newSHA ;;; ret tt
  | (_, Some _) => ret tt
  end ;;;
  (* Check if PR exists, create if not *)
  r <- github.GetPRForBranch remote branch ;;
  match r with
  | (_, Some _) => (* Non-fatal, just skip PR creation *) ret (Some result, None)
  | (Some _, None) => ret (Some result, None)
  | (None, None) =>
      (* Create PR; the branch name is the default title *)
      let title := branch in
      r <- github.CreatePR remote branch defaultBranch title ;;
      match r with
      | (_, Some _) => ret (Some result, None)
      | (prNum, None) => ret (Some (SyncResult.with_PR result true prNum), None)
      end
  end end end end end end end.

(** RefreshTrackStatus, first part: git status if there is a working
    directory (dirtiness, ahead/behind, SHA mismatch). *)
Definition refresh_git_status (o : Ops.t) (trk : Track.t) (workDir : string)
           (status : TrackStatus.t) : M TrackStatus.t :=
  let remote := remote_of o in
  (* Check if dirty *)
  r <- git.IsDirty workDir ;;
  let status :=
    match r with
    | (dirty, None) =>
        TrackStatus.with_GitStatus status
          (GitStatus.with_Clean (TrackStatus.GitStatus status) (negb dirty))
    | (_, Some _) => status
    end in
  (* Get default branch for ahead/behind *)
  r <- git.GetDefaultBranch workDir ;;
  status <- match r with
            | (defaultBranch, None) =>
                ab <- git.AheadBehind workDir (Track.Branch trk)
                                      ("origin/" ++ defaultBranch) ;;
                match ab with
                | (ahead, behind, None) =>
                    ret (TrackStatus.with_GitStatus status
                           (GitStatus.with_counts
                              (TrackStatus.GitStatus status) ahead behind))
                | (_, _, Some _) => ret status
                end
            | (_, Some _) => ret status
            end ;;
  (* Check for SHA mismatch (force-push detection) *)
  r <- git.GetHeadSHA workDir ;;
  if is_nil (snd r)
     && negb (Track.HeadSHA trk =? "")%string
     && negb (Track.HeadSHA trk =? "unknown")%string
  then
    let currentSHA := fst r in
    if negb (currentSHA =? Track.HeadSHA trk)%string then
      let status := TrackStatus.with_SHAMismatch status true in
      (* Update the SHA in database *)
      db.UpdateHeadSHA remote (Track.Branch trk) currentSHA ;;;
      ret status
    else ret status
  else ret status.

(** RefreshTrackStatus, second part: PR status from GitHub. *)
Definition refresh_pr_status (o : Ops.t) (trk : Track.t)
           (status : TrackStatus.t) : M TrackStatus.t :=
  let remote := remote_of o in
  r <- github.GetPRForBranch remote (Track.Branch trk) ;;
  match r with
  | (Some pr, None) =>
      ret (TrackStatus.with_review status
             (Some (PRStatus.mk (PR.Number pr)
                      ("https://github.com/" ++ remote ++ "/pull/"
                         ++ itoa (PR.Number pr))
                      (PR.State pr) false))
             (* Map CI status *)
             (Some (CIStatus.mk (PR.CIStatus pr =? "success")%string
                      (PR.CIStatus pr =? "pending")%string
                      (PR.CIStatus pr =? "failure")%string ""))
             (* Map review status *)
             (Some (ReviewStatus.mk
                      (PR.ReviewStatus pr =? "approved")%string
                      (PR.ReviewStatus pr =? "changes_requested")%string
                      (PR.ReviewStatus pr =? "pending")%string 0)))
  | _ => ret status
  end.

Definition staleDuration : time.Duration := 7 * 24 * time.Hour.

(** RefreshTrackStatus, third part: stale if not accessed in over 7 days. *)
Definition refresh_stale (trk : Track.t) (status : TrackStatus.t)
  : M TrackStatus.t :=
  match Track.LastAccessed trk with
  | Some t =>
      d <- os.Since t ;;
      if d >? staleDuration
      then ret (TrackStatus.with_IsStale status true)
      else ret status
  | None => ret status
  end.

(** The working directory RefreshTrackStatus inspects. *)
Definition status_workDir (o : Ops.t) (trk : Track.t) : string :=
  if (Track.Type_ trk =? TrackTypeWorktree)%string then
    match Track.Path trk with
    | Some path => path
    | None => repoPath_of o
    end
  else if (Track.Type_ trk =? TrackTypeDevbox)%string then
    (* For devbox, only GitHub status can be checked *)
    ""
  else "".

(** RefreshTrackStatus fetches the current status of a track from git and
    GitHub. *)
Definition RefreshTrackStatus (o : Ops.t) (trk : Track.t)
  : M (TrackStatus.t * error) :=
  let status := TrackStatus.zero in
  let workDir := status_workDir o trk in
  status <- (if (workDir =? "")%string then ret status
             else refresh_git_status o trk workDir status) ;;
  status <- refresh_pr_status o trk status ;;
  status <- refresh_stale trk status ;;
  ret (status, None).

(** JumpToTrack switches to the tmux window for the given track, creating
    it if needed. *)
Definition JumpToTrack (o : Ops.t) (branch : string) : M2 error :=
  let remote := remote_of o in
  (* Get the track from database *)
  r <~ lift (db.GetTrack remote branch) ;;
  match r with
  | (_, Some x) => ret2 (Errorf "failed to get track: " x)
  | (None, None) => ret2 (Some ("track not found for branch: " ++ branch))
  | (Some trk, None) =>
  (* Update last accessed time *)
  lift (db.UpdateLastAccessed remote branch) ;;~
  let sessionName := "trak" in
  (* Sanitize branch name for tmux *)
  windowName <~ pure2 (fun w => SanitizeForTmux w branch) ;;
  (* Ensure session exists *)
  r <~ tmux.SessionExists sessionName ;;
  match r with
  | (_, Some x) => ret2 (Errorf "failed to check session: " x)
  | (sessionExists, None) =>
  e <~ (if negb sessionExists then
          e <~ tmux.CreateSession sessionName ;;
          match e with
          | Some x => ret2 (Errorf "failed to create session: " x)
          | None => ret2 None
          end
        else ret2 None) ;;
  match e with Some x => ret2 (Some x) | None =>
  (* Check if window exists *)
  r <~ tmux.WindowExists sessionName windowName ;;
  match r with
  | (_, Some x) => ret2 (Errorf "failed to check window: " x)
  | (windowExists, None) =>
  e <~ (if negb windowExists then
          (* Create window with appropriate start directory *)
          let startDir :=
            if (Track.Type_ trk =? TrackTypeWorktree)%string then
              match Track.Path trk with
              | Some path => path
              | None => ""
              end
            else "" in
          e <~ tmux.CreateWindow sessionName windowName startDir ;;
          match e with
          | Some x => ret2 (Errorf "failed to create window: " x)
          | None =>
              (* For devbox, send SSH command to the window *)
              (if (Track.Type_ trk =? TrackTypeDevbox)%string then
                 match Track.DevboxName trk with
                 | Some name =>
                     c <~ devbox_go.GetSSHCommand name ;;
                     match c with
                     | (sshCmd, None) =>
                         if negb (sshCmd =? "")%string then
                           tmux.RunInWindow sessionName windowName sshCmd ;;~
                           ret2 tt
                         else ret2 tt
                     | (_, Some _) => ret2 tt
                     end
                 | None => ret2 tt
                 end
               else ret2 tt) ;;~
              ret2 None
          end
        else ret2 None) ;;
  match e with Some x => ret2 (Some x) | None =>
  (* Switch to the window *)
  inside <~ tmux.IsInsideTmux ;;
  if inside then tmux.SwitchToWindow sessionName windowName
  else
    (* Select the window first, then attach *)
    tmux.SelectWindow sessionName windowName ;;~
    tmux.AttachSession sessionName
  end end end end end.

(** RunAI runs the AI assistant (toad) in the context of the given track. *)
Definition RunAI (o : Ops.t) (branch : string) : M2 error :=
  let remote := remote_of o in
  (* Get the track from database *)
  r <~ lift (db.GetTrack remote branch) ;;
  match r with
  | (_, Some x) => ret2 (Errorf "failed to get track: " x)
  | (None, None) => ret2 (Some ("track not found for branch: " ++ branch))
  | (Some trk, None) =>
  (* Determine the path for toad *)
  match (if (Track.Type_ trk =? TrackTypeWorktree)%string then
           match Track.Path trk with
           | None => inr "worktree track has no path"
           | Some path => inl path
           end
         else if (Track.Type_ trk =? TrackTypeDevbox)%string then
           inr "AI assistant is not supported for devbox tracks"
         else inl "")
  with
  | inr msg => ret2 (Some msg)
  | inl toadPath =>
  (* Update last accessed time *)
  lift (db.UpdateLastAccessed remote branch) ;;~
  (* Run tc (toad claude) command *)
  let cmd := "tc " ++ toadPath in
  let sessionName := "trak" in
  windowName <~ pure2 (fun w => SanitizeForTmux w branch) ;;
  (* Check if we need to create window *)
  r <~ tmux.SessionExists sessionName ;;
  let sessionExists := fst r in
  e <~ (if negb sessionExists then
          e <~ tmux.CreateSession sessionName ;;
          match e with
          | Some x => ret2 (Errorf "failed to create session: " x)
          | None => ret2 None
          end
        else ret2 None) ;;
  match e with Some x => ret2 (Some x) | None =>
  r <~ tmux.WindowExists sessionName windowName ;;
  let windowExists := fst r in
  e <~ (if negb windowExists then
          e <~ tmux.CreateWindow sessionName windowName toadPath ;;
          match e with
          | Some x => ret2 (Errorf "failed to create window: " x)
          | None => ret2 None
          end
        else ret2 None) ;;
  match e with Some x => ret2 (Some x) | None =>
  (* Send the toad command to the window *)
  e <~ tmux.RunInWindow sessionName windowName cmd ;;
  match e with
  | Some x => ret2 (Errorf "failed to run AI command: " x)
  | None =>
  (* Switch to the window *)
  inside <~ tmux.IsInsideTmux ;;
  if inside then tmux.SwitchToWindow sessionName windowName
  else
    tmux.SelectWindow sessionName windowName ;;~
    tmux.AttachSession sessionName
  end end end end end.

(** The loop of ListTracksWithStatus: one refresh per track. *)
Fixpoint refresh_each (o : Ops.t) (tracks : list Track.t)
         (result : list TrackWithStatus.t) : M2 (list TrackWithStatus.t) :=
  match tracks with
  | [] => ret2 result
  | trk :: rest =>
      r <~ lift (RefreshTrackStatus o trk) ;;
      let status :=
        match r with
        | (_, Some _) =>
            (* Use empty status on error, don't fail the whole list *)
            TrackStatus.zero
        | (status, None) => status
        end in
      refresh_each o rest (result ++ [TrackWithStatus.mk trk status])%list
  end.

(** ListTracksWithStatus returns all tracks with their current status. *)
Definition ListTracksWithStatus (o : Ops.t)
  : M2 (list TrackWithStatus.t * error) :=
  r <~ db.ListTracks ;;
  match r with
  | (_, Some x) => ret2 ([], Errorf "failed to list tracks: " x)
  | (tracks, None) =>
      result <~ refresh_each o tracks [] ;;
      ret2 (result, None)
  end.
End ops.


(** ** Reading traces *)

Definition is_vcs_call (c : Call) : bool :=
  match c with
  | GitFetch _ | GitGetDefaultBranch _ | GitCreateBranch _ _ _
  | GitWorktreeAdd _ _ _ | GitWorktreeRemove _ _ | GitWorktreePrune _
  | GitRebase _ _ | GitPushForce _ _ | GitPushDelete _ _
  | GitAheadBehind _ _ _ | GitGetHeadSHA _ | GitGetBranchSHA _ _
  | GitIsDirty _ => true
  | _ => false
  end.

Definition is_review_call (c : Call) : bool :=
  match c with
  | GhGetPRForBranch _ _ | GhCreatePR _ _ _ _ => true
  | _ => false
  end.

Definition is_push_call (c : Call) : bool :=
  match c with
  | GitPushForce _ _ | GitPushDelete _ _ => true
  | _ => false
  end.

(** A statement sent to the driver: the only way the table changes. *)
Definition is_sql_write (c : Call) : bool :=
  match c with
  | SqlExec _ => true
  | _ => false
  end.

(** The calls the git part of Status-Refresh makes: its four queries of
    git, and the statement that corrects the recorded head. *)
Definition is_git_part_call (c : Call) : bool :=
  match c with
  | GitIsDirty _ | GitGetDefaultBranch _ | GitAheadBehind _ _ _
  | GitGetHeadSHA _ | SqlExec _ | SqlRowsAffected => true
  | _ => false
  end.

(** No event of the trace is a call of the given kind. *)
Definition calls_none (p : Call -> bool) (evs : Trace) : Prop :=
  forall ev, In ev evs -> p (fst ev) = false.

(** The call was made and came back without error / with error [e]. *)
Definition answered_ok (c : Call) (evs : Trace) : Prop :=
  exists rep, In (c, rep) evs /\ r_err rep = None.

Definition answered_err (c : Call) (e : string) (evs : Trace) : Prop :=
  exists rep, In (c, rep) evs /\ r_err rep = Some e.

(** The INSERT of a track row was sent and failed with [e]. *)
Definition insert_failed (e : string) (evs : Trace) : Prop :=
  exists row rep, In (SqlExec (InsertInto row), rep) evs /\ r_err rep = Some e.

(** The rebase of [workDir] came back with / without conflicts. *)
Definition rebase_reported (conflicts : bool) (workDir : string) (evs : Trace)
  : Prop :=
  exists onto rep,
    In (GitRebase workDir onto, rep) evs
    /\ r_err rep = None /\ r_bool rep = conflicts.

(** The registry lookup that opens DeleteTrack and SyncTrack finds [trk]. *)
Definition resolves (o : Ops.t) (branch : string) (trk : Track.t)
           (w : World) (s : State) : Prop :=
  fst (db.GetTrack (ops.remote_of o) branch w s) = (Some trk, None).

(** The call that removes the environment a track row describes, when the
    row carries the locator of its kind (section 3 of the data model). *)
Definition deprovision_call (o : Ops.t) (trk : Track.t) : option Call :=
  if (Track.Type_ trk =? TrackTypeWorktree)%string then
    option_map (GitWorktreeRemove (ops.repoPath_of o)) (Track.Path trk)
  else if (Track.Type_ trk =? TrackTypeDevbox)%string then
    option_map DevboxDelete (Track.DevboxName trk)
  else None.

Definition deprovision_prefix (trk : Track.t) : string :=
  if (Track.Type_ trk =? TrackTypeWorktree)%string
  then "failed to remove worktree: "
  else "failed to delete devbox: ".

(** UPDATE tracks SET head_sha = sha WHERE remote_url = ? AND branch = ? *)
Definition set_head (remoteURL branch sha : string) (tbl : list Track.t)
  : list Track.t :=
  db.update_where (db.same_key remoteURL branch)
                  (fun row => Track.with_HeadSHA row sha) tbl.

(** ** Scenarios: concrete worlds for the examples below *)

Definition reply_str (v : string) : Reply := mkReply None v false 0 0 None.
Definition reply_bool (b : bool) : Reply := mkReply None "" b 0 0 None.
Definition reply_int (n : Z) : Reply := mkReply None "" false n 0 None.

Definition demo_ops : Ops.t :=
  Ops.mk (Config.mk (RepoConfig.mk "/repo" "owner/repo")).

(** Rows of the tables in slug_test.go. *)
Definition demo_GenerateSlug (branch sha : string) : string :=
  if (branch =? "feature/foo")%string && (sha =? "a1b2c3d4e5f6g7h8")%string
  then "feature-foo-a1b2c3d"
  else if (branch =? "main")%string && (sha =? "abc")%string then "main-abc"
  else "".

Definition demo_Slugify (branch : string) : string :=
  if (branch =? "feature/foo")%string then "feature-foo"
  else if (branch =? "main")%string then "main"
  else "".

Definition demo_Join (a b : string) : string := a ++ "/" ++ b.

Definition demo_sha : string := "a1b2c3d4e5f6g7h8".
Definition demo_path : string := "/home/dev/worktrees/feature-foo-a1b2c3d".

(** The instant the demo clock shows, and instants before it. *)
Definition demo_now : time.Time := 63900000000 * time.Second.
Definition eight_days_ago : time.Time := demo_now - 8 * 24 * time.Hour.
Definition one_hour_ago : time.Time := demo_now - time.Hour.

(** A world in which every tool succeeds. *)
Definition quiet (_ : Trace) (c : Call) : Reply :=
  match c with
  | GitGetDefaultBranch _ => reply_str "main"
  | GitGetBranchSHA _ _ => reply_str demo_sha
  | GitGetHeadSHA _ => reply_str demo_sha
  | OsUserHomeDir => reply_str "/home/dev"
  | TimeNow => reply_int demo_now
  | _ => ok
  end.

(** The cleanup tools fail: the worktree cannot be removed, the devbox
    cannot be deleted. *)
Definition cleanup_fails (h : Trace) (c : Call) : Reply :=
  match c with
  | GitWorktreeRemove _ path =>
      failed ("git worktree remove " ++ path ++ " failed: exit status 128")
  | DevboxDelete name =>
      failed ("devbox delete " ++ name ++ " failed: exit status 1")
  | _ => quiet h c
  end.

(** The rebase stops on conflicts. *)
Definition rebase_conflicts (h : Trace) (c : Call) : Reply :=
  match c with
  | GitRebase _ _ => reply_bool true
  | _ => quiet h c
  end.

(** The code-review host cannot be reached. *)
Definition gh_down (h : Trace) (c : Call) : Reply :=
  match c with
  | GhGetPRForBranch _ branch =>
      failed ("failed to get PR for branch " ++ branch ++ ": gh pr view failed")
  | GhCreatePR _ _ _ _ => failed "failed to create PR: gh pr create failed"
  | _ => quiet h c
  end.

(** The working copy has moved on to another commit. *)
Definition head_moved (h : Trace) (c : Call) : Reply :=
  match c with
  | GitGetHeadSHA _ => reply_str "ffff000011112222"
  | _ => quiet h c
  end.

(** The text of the timestamps of the demo rows, all written in UTC. *)
Definition demo_time_text (t : time.Time) : string :=
  if t =? demo_now then "2025-11-29 08:00:00"
  else if t =? one_hour_ago then "2025-11-29 07:00:00"
  else if t =? eight_days_ago then "2025-11-21 08:00:00"
  else "0001-01-01 00:00:00".

Definition demo_column_text (column : string) (row : Track.t) : string :=
  if (column =? "last_accessed")%string then
    match Track.LastAccessed row with
    | Some t => demo_time_text t
    | None => ""
    end
  else demo_time_text (Track.CreatedAt row).

Definition world_of (r : Trace -> Call -> Reply) : World :=
  mkWorld r demo_GenerateSlug demo_Slugify demo_Join demo_column_text
          (fun _ => None).

Definition demo_worktree : Track.t :=
  Track.mk 1 "feature/foo" "owner/repo" demo_sha TrackTypeWorktree
           (Some demo_path) None demo_now (Some demo_now).

Definition demo_devbox : Track.t :=
  Track.mk 1 "feature/foo" "owner/repo" "unknown" TrackTypeDevbox
           None (Some "feature-foo") demo_now (Some demo_now).

(** A worktree row whose recorded commit is the sentinel. *)
Definition sentinel_worktree : Track.t :=
  Track.with_HeadSHA demo_worktree "unknown".

Definition registry (tbl : list Track.t) : State := mkState tbl [].

(** ** Vocabulary of the further properties *)

Definition is_create_branch (c : Call) : bool :=
  match c with
  | GitCreateBranch _ _ _ => true
  | _ => false
  end.

Definition is_create_pr (c : Call) : bool :=
  match c with
  | GhCreatePR _ _ _ _ => true
  | _ => false
  end.

Definition is_devbox_create (c : Call) : bool :=
  match c with
  | DevboxCreate _ _ _ => true
  | _ => false
  end.

(** The registry lookup that opens an operation finds no row. *)
Definition not_tracked (o : Ops.t) (branch : string) (w : World) (s : State)
  : Prop :=
  fst (db.GetTrack (ops.remote_of o) branch w s) = (None, None).

(** How many of three flags are set. *)
Definition flags_set (a b c : bool) : Z := Z.b2z a + Z.b2z b + Z.b2z c.

(** The code-review host knows an open pull request of the branch. *)
Definition demo_pr : PR.t :=
  PR.mk 42 "feature/foo" "open" "success" "approved".

Definition pr_open (h : Trace) (c : Call) : Reply :=
  match c with
  | GhGetPRForBranch _ _ => mkReply None "" false 0 0 (Some demo_pr)
  | _ => quiet h c
  end.

(** The key of a row: the columns of UNIQUE(remote_url, branch). *)
Definition key_of (row : Track.t) : string * string :=
  (Track.RemoteURL row, Track.Branch row).

(** What the schema promises of the table: no two rows with one key, no
    two rows with one id, and only the two types of track. *)
Definition registry_ok (tbl : list Track.t) : Prop :=
  NoDup (map key_of tbl)
  /\ NoDup (map Track.ID tbl)
  /\ Forall (fun row => db.type_ok (Track.Type_ row) = true) tbl.

(** A row with its head_sha column blanked: what is left is every other
    column. *)
Definition without_head (row : Track.t) : Track.t :=
  Track.with_HeadSHA row "".

(** The SQL driver answered every call of the run without an error. *)
Definition driver_ok (evs : Trace) : Prop :=
  forall c rep,
    In (c, rep) evs ->
    match c with
    | SqlExec _ | SqlRowsAffected | SqlQueryRow _ _ => r_err rep = None
    | _ => True
    end.

(** The value of decimal digits written least significant first. *)
Fixpoint lsd_value (digits : list ascii) : Z :=
  match digits with
  | [] => 0
  | d :: rest => digit_value d + 10 * lsd_value rest
  end.

Fixpoint string_forall (p : ascii -> bool) (s : string) : bool :=
  match s with
  | EmptyString => true
  | String c rest => p c && string_forall p rest
  end.

Definition first_byte (s : string) : option ascii :=
  match s with
  | EmptyString => None
  | String c _ => Some c
  end.

Fixpoint last_byte (s : string) : option ascii :=
  match s with
  | EmptyString => None
  | String c EmptyString => Some c
  | String _ rest => last_byte rest
  end.

(** No two hyphens in a row. *)
Fixpoint single_hyphens (s : string) : bool :=
  match s with
  | EmptyString => true
  | String c rest =>
      negb (Ascii.eqb c hyphen
            && match rest with
               | String d _ => Ascii.eqb d hyphen
               | EmptyString => false
               end)
      && single_hyphens rest
  end.

(** A string without the byte [sep]. *)
Definition free_of (sep : ascii) (s : string) : bool :=
  string_forall (fun c => negb (Ascii.eqb c sep)) s.

(** The command lines a run started, in order. *)
Fixpoint commands (j : Journal) : list Cmd :=
  match j with
  | [] => []
  | Proc c _ :: rest => c :: commands rest
  | _ :: rest => commands rest
  end.

(** A command of git, run in [dir], that only reads the repository. *)
Definition git_query (dir : string) (c : Cmd) : bool :=
  (cmd_dir c =? dir)%string && (cmd_name c =? "git")%string
  && negb (cmd_tty c)
  && match cmd_args c with
     | verb :: _ => (verb =? "symbolic-ref")%string || (verb =? "rev-parse")%string
     | [] => false
     end.

Definition world2_of (r : Trace -> Call -> Reply)
           (r2 : Journal -> Call2 -> Reply) (x : Journal -> Cmd -> Exit)
  : World2 :=
  mkWorld2 (world_of r) r2 x (fun s => s) (fun s => [s]) (fun s => s)
           (fun s => s) (fun _ => inr "unexpected end of JSON input")
           (fun _ => inr "unexpected end of JSON input")
           (fun _ => inr "unexpected end of JSON input")
           (fun s => "strconv.Atoi: parsing " ++ s ++ ": invalid syntax")
           (fun s => s) "devbox".

Definition registry2 (tbl : list Track.t) : State2 :=
  mkState2 (registry tbl) [].

Definition exit_ok (out : string) : Exit := mkExit None out "".
Definition exit_failed (e err : string) : Exit := mkExit (Some e) "" err.

(** A repository whose remote names its default branch release/2.0. *)
Definition release_repo (_ : Journal) (c : Cmd) : Exit :=
  match cmd_args c with
  | "symbolic-ref" :: _ => exit_ok "refs/remotes/origin/release/2.0"
  | _ => exit_ok ""
  end.

(** Row [a] was accessed no earlier than row [b]; a row never accessed
    stands after every row that was. *)
Definition accessed_no_earlier (a b : Track.t) : Prop :=
  match Track.LastAccessed a, Track.LastAccessed b with
  | Some x, Some y => y <= x
  | None, Some _ => False
  | _, None => True
  end.

(** The stored texts of last_accessed compare like the instants they
    stand for, as they do when every row was written under one zone
    offset. *)
Definition texts_follow_instants (text : string -> Track.t -> string)
           (tbl : list Track.t) : Prop :=
  forall a b x y,
    In a tbl -> In b tbl ->
    Track.LastAccessed a = Some x -> Track.LastAccessed b = Some y ->
    (text "last_accessed" a <? text "last_accessed" b)%string = (x <? y).

(** Two tracks, the first one not touched since last week. *)
Definition stale_track : Track.t :=
  Track.mk 1 "old" "owner/repo" demo_sha TrackTypeWorktree
           (Some "/home/dev/worktrees/old") None eight_days_ago
           (Some eight_days_ago).

Definition fresh_track : Track.t :=
  Track.mk 2 "new" "owner/repo" demo_sha TrackTypeWorktree
           (Some "/home/dev/worktrees/new") None one_hour_ago
           (Some one_hour_ago).

(** A world in which every command succeeds and prints nothing. *)
Definition calm : World2 :=
  world2_of quiet (fun _ _ => ok) (fun _ _ => exit_ok "").

(** A track accessed now, and the texts of a registry written under two
    zone offsets: the row of [fresh_track], accessed an hour earlier, was
    written under +02:00, so its wall clock reads an hour later. *)
Definition current_track : Track.t :=
  Track.mk 3 "now" "owner/repo" demo_sha TrackTypeWorktree
           (Some "/home/dev/worktrees/now") None demo_now (Some demo_now).

Definition two_zones_text (column : string) (row : Track.t) : string :=
  if Track.ID row =? 2 then "2025-11-29 09:00:00+02:00"
  else "2025-11-29 08:00:00+00:00".

Definition two_zones : World2 :=
  mkWorld2 (mkWorld quiet demo_GenerateSlug demo_Slugify demo_Join
                    two_zones_text (fun _ => None))
           (fun _ _ => ok) (fun _ _ => exit_ok "")
           (TrimSpace calm) (Fields calm) (ToUpper calm) (ToLower calm)
           (Unmarshal_ghPR calm) (Unmarshal_ghPRs calm)
           (Unmarshal_devboxes calm) (Atoi_error calm)
           (SanitizeForTmux calm) (devboxBinary calm).

(** The command that opens a window. *)
Definition is_new_window (c : Cmd) : bool :=
  (cmd_name c =? "tmux")%string
  && match cmd_args c with
     | verb :: _ => (verb =? "new-window")%string
     | [] => false
     end.

Definition is_tmux (c : Cmd) : bool := (cmd_name c =? "tmux")%string.

(** The listing of the windows of a session. *)
Definition list_windows (session : string) : Cmd :=
  mkCmd "" "tmux" ["list-windows"; "-t"; session; "-F"; "#{window_name}"]
        false.

(** The session has a window for the branch already. *)
Definition window_open (_ : Journal) (c : Cmd) : Exit :=
  match cmd_args c with
  | "list-windows" :: _ => exit_ok "feature/foo"
  | _ => exit_ok ""
  end.

(** The values a pull request carries after normalisation. *)
Definition ci_values : list string :=
  ["success"; "failure"; "pending"; "unknown"].

Definition review_values : list string :=
  ["approved"; "changes_requested"; "pending"; "unknown"].

(** gh finds no pull request of the branch. *)
Definition no_pr (_ : Journal) (_ : Cmd) : Exit :=
  exit_failed "exit status 1"
              "no pull requests found for branch feature/foo".

(** ** Proof tools: running the engine symbolically *)

Arguments ask : simpl never.
Arguments String.append : simpl never.
Arguments db.next_id : simpl never.
Arguments db.count_where : simpl never.
Arguments db.update_where : simpl never.
Arguments bind {A B} m k w s /.
Arguments ret {A} a w s /.
Arguments log ev w s /.
Arguments call c w s /.
Arguments pure_of {A} f w s /.
Arguments get_rows w s /.
Arguments put_rows l w s /.

Create HintDb engine.
#[local] Hint Unfold git.run git.run_string git.Fetch git.GetDefaultBranch
  git.CreateBranch git.WorktreeAdd git.WorktreeRemove git.WorktreePrune
  git.Rebase git.PushForce git.PushDelete git.AheadBehind git.GetHeadSHA
  git.GetBranchSHA git.IsDirty github.GetPRForBranch github.CreatePR
  devbox.Exists devbox.Create devbox.Delete os.MkdirAll os.UserHomeDir
  os.Stderr os.Now os.Since config.GetWorktreeBaseDir
  db.Exec db.RowsAffected db.check_affected db.InsertTrack db.DeleteTrack
  db.GetTrack db.UpdateLastAccessed db.UpdateHeadSHA Errorf : engine.

Lemma ask_eq (c : Call) (w : World) (s : State) :
  ask c w s = (respond w (trace s) c, s).
Proof. reflexivity. Qed.

Ltac msimpl := repeat (progress (autounfold with engine; cbn)).

(** A scrutinee on which the run is really stuck: no pending call and no
    inner case distinction. *)
Ltac atomic x :=
  lazymatch x with
  | context [ask] => fail
  | context [@bind] => fail
  | context [call] => fail
  | context [respond] => fail
  | context [match _ with _ => _ end] => fail
  | _ => idtac
  end.

(** One step of a run: the next call gets an arbitrary reply, the next
    test is decided both ways. *)
Ltac step :=
  match goal with
  | |- context [ask ?c ?w ?s] =>
      rewrite (ask_eq c w s);
      let r := fresh "rep" in generalize (respond w (trace s) c); intro r
  | |- context [match r_err ?r with _ => _ end] => destruct (r_err r) eqn:?
  | |- context [match ?x with _ => _ end] => atomic x; destruct x eqn:?
  end; msimpl.

Ltac run := msimpl; repeat step.

(** The events of the run, as an explicit list. *)
Ltac norm_events :=
  unfold events_since; cbn [trace rows record];
  repeat rewrite <- app_assoc; cbn [app];
  rewrite ?skipn_app, ?Nat.sub_diag, ?skipn_all; cbn [skipn app].

(** Membership in an explicit list of events, case by case. *)
Ltac split_in H :=
  cbn [In] in H;
  repeat (destruct H as [H | H];
          [ try discriminate H;
            first [ injection H as; subst | subst | idtac ] | ]);
  try contradiction H.

Ltac find_in := cbn [In]; repeat (first [ left; reflexivity | right ]).

Lemma GetTrack_state (remoteURL branch : string) (w : World) (s : State) :
  snd (db.GetTrack remoteURL branch w s)
  = record (SqlQueryRow remoteURL branch,
            respond w (trace s) (SqlQueryRow remoteURL branch)) s.
Proof.
  unfold db.GetTrack. cbn. rewrite ask_eq.
  repeat match goal with
         | |- context [match ?x with _ => _ end] => destruct x; cbn
         end; reflexivity.
Qed.

Lemma resolves_run (o : Ops.t) (branch : string) (trk : Track.t)
      (w : World) (s : State) :
  resolves o branch trk w s ->
  db.GetTrack (ops.remote_of o) branch w s
  = ((Some trk, None),
     record (SqlQueryRow (ops.remote_of o) branch,
             respond w (trace s) (SqlQueryRow (ops.remote_of o) branch)) s).
Proof.
  unfold resolves. intros H.
  rewrite <- GetTrack_state, <- H. apply surjective_pairing.
Qed.

(** A lookup that resolves found its row in the table. *)
Lemma resolves_find (o : Ops.t) (branch : string) (trk : Track.t)
      (w : World) (s : State) :
  resolves o branch trk w s ->
  find (db.same_key (ops.remote_of o) branch) (rows s) = Some trk.
Proof.
  unfold resolves, db.GetTrack. cbn. rewrite ask_eq.
  destruct (r_err _); cbn; [ congruence | ].
  destruct (find _ _) as [row |]; cbn; [ | congruence ].
  repeat match goal with
         | |- context [match ?x with _ => _ end] => destruct x; cbn
         end; intros H; congruence.
Qed.

(** ** Sync-Track on a devbox track *)

(** C5.  Sync-Track on a devbox (RemoteEnv) track returns the
    unsupported-for-kind error, and the run makes no version-control call
    and no code-review-host call: the registry lookup is its only event. *)
Theorem C5_sync_devbox_unsupported
        (o : Ops.t) (branch : string) (trk : Track.t) (w : World) (s : State) :
  resolves o branch trk w s ->
  Track.Type_ trk = TrackTypeDevbox ->
  let '(res, s') := ops.SyncTrack o branch w s in
  res = (None,
         Some "sync is not supported for devbox tracks (use devbox CLI directly)")
  /\ calls_none is_vcs_call (events_since s s')
  /\ calls_none is_review_call (events_since s s')
  /\ rows s' = rows s.
Proof.
  intros Hres Hty.
  unfold ops.SyncTrack. cbn [bind].
  rewrite (resolves_run Hres), Hty. cbn.
  repeat split; intros ev; norm_events; intros Hin; split_in Hin; reflexivity.
Qed.

Lemma C5_sync_devbox_unsupported_witness :
  resolves demo_ops "feature/foo" demo_devbox (world_of quiet)
           (registry [demo_devbox])
  /\ fst (ops.SyncTrack demo_ops "feature/foo" (world_of quiet)
                        (registry [demo_devbox]))
     = (None,
        Some "sync is not supported for devbox tracks (use devbox CLI directly)").
Proof.
  assert (R : resolves demo_ops "feature/foo" demo_devbox (world_of quiet)
                       (registry [demo_devbox])) by reflexivity.
  split; [exact R |].
  pose proof (@C5_sync_devbox_unsupported demo_ops "feature/foo" demo_devbox
                (world_of quiet) (registry [demo_devbox]) R eq_refl) as H.
  destruct (ops.SyncTrack _ _ _ _) as [res s'].
  exact (proj1 H).
Defined.

(** ** Create-Track: compensation when the insert fails *)

(** C1 at a concrete run: the worktree is added, the insert loses against
    the row already in the registry, the removal of the worktree fails, and
    the error that surfaces does not mention the path of the worktree left
    behind. *)
Lemma C1_leaked_locator_not_reported :
  let '(err, s') :=
    ops.NewTrackWorktree demo_ops "feature/foo" (world_of cleanup_fails)
                         (registry [demo_devbox]) in
  let evs := events_since (registry [demo_devbox]) s' in
  answered_ok (GitWorktreeAdd "/repo" demo_path "feature/foo") evs
  /\ insert_failed
       "constraint failed: UNIQUE constraint failed: tracks.remote_url, tracks.branch (2067)" evs
  /\ answered_err
       (GitWorktreeRemove "/repo" demo_path)
       "git worktree remove /home/dev/worktrees/feature-foo-a1b2c3d failed: exit status 128"
       evs
  /\ err = Some "failed to record track in database: failed to insert track: constraint failed: UNIQUE constraint failed: tracks.remote_url, tracks.branch (2067)"
  /\ (forall msg, err = Some msg -> Contains msg demo_path = false).
Proof.
  vm_compute.
  repeat split.
  - eexists. split; [ find_in | reflexivity ].
  - eexists. eexists. split; [ find_in | reflexivity ].
  - eexists. split; [ find_in | reflexivity ].
  - intros msg H. injection H as <-. reflexivity.
Qed.

(** An explicit list splits into its front and its last two elements. *)
Lemma snoc2_nil (A : Type) (a b : A) : [a; b] = ([] ++ [a; b])%list.
Proof. reflexivity. Qed.

Lemma snoc2_cons (A : Type) (x : A) (l p t : list A) :
  l = (p ++ t)%list -> x :: l = ((x :: p) ++ t)%list.
Proof. intros ->. reflexivity. Qed.

(** C1, as the code has it.  When the insert of the new row fails, the run
    ends with the failed insert followed by the removal of the environment
    it had just created (the worktree added, the devbox created, earlier in
    the same run); the table is unchanged; and the error that surfaces is
    the persistence failure wrapping the insert error, whatever the removal
    answered. *)
Theorem C1_insert_failure_is_compensated
        (o : Ops.t) (branch : string) (w : World) (s : State) (e : string) :
  (let '(err, s') := ops.NewTrackWorktree o branch w s in
   let evs := events_since s s' in
   insert_failed e evs ->
   exists pre row path rep_ins rep_rm,
     evs = (pre ++ [(SqlExec (InsertInto row), rep_ins);
                    (GitWorktreeRemove (ops.repoPath_of o) path, rep_rm)])%list
     /\ r_err rep_ins = Some e
     /\ Track.Path row = Some path
     /\ answered_ok (GitWorktreeAdd (ops.repoPath_of o) path branch) pre
     /\ err = Some ("failed to record track in database: failed to insert track: " ++ e)
     /\ rows s' = rows s)
  /\
  (let '(err, s') := ops.NewTrackDevbox o branch w s in
   let evs := events_since s s' in
   insert_failed e evs ->
   exists pre row name url rep_ins rep_rm,
     evs = (pre ++ [(SqlExec (InsertInto row), rep_ins);
                    (DevboxDelete name, rep_rm)])%list
     /\ r_err rep_ins = Some e
     /\ Track.DevboxName row = Some name
     /\ answered_ok (DevboxCreate name url branch) pre
     /\ err = Some ("failed to record track in database: failed to insert track: " ++ e)
     /\ rows s' = rows s).
Proof.
  split.
  - unfold ops.NewTrackWorktree. run.
    all: norm_events; intros (row & rr & Hin & He).
    all: split_in Hin; try congruence.
    all: do 5 eexists.
    all: split; [ repeat (first [ apply snoc2_nil | apply snoc2_cons ]) | ].
    all: cbn [r_err failed] in *.
    all: repeat split; try congruence; try reflexivity.
    all: try (eexists; split; [ find_in | assumption ]).
    all: match goal with
         | |- Some (_ ++ _ ++ ?x) = Some (_ ++ ?y) =>
             replace x with y by congruence; reflexivity
         end.
  - unfold ops.NewTrackDevbox. run.
    all: norm_events; intros (row & rr & Hin & He).
    all: split_in Hin; try congruence.
    all: do 6 eexists.
    all: split; [ repeat (first [ apply snoc2_nil | apply snoc2_cons ]) | ].
    all: cbn [r_err failed] in *.
    all: repeat split; try congruence; try reflexivity.
    all: try (eexists; split; [ find_in | assumption ]).
    all: match goal with
         | |- Some (_ ++ _ ++ ?x) = Some (_ ++ ?y) =>
             replace x with y by congruence; reflexivity
         end.
Qed.

Lemma C1_insert_failure_is_compensated_witness :
  let '(err, s') :=
    ops.NewTrackWorktree demo_ops "feature/foo" (world_of cleanup_fails)
                         (registry [demo_devbox]) in
  insert_failed "constraint failed: UNIQUE constraint failed: tracks.remote_url, tracks.branch (2067)"
                (events_since (registry [demo_devbox]) s')
  /\ err = Some "failed to record track in database: failed to insert track: constraint failed: UNIQUE constraint failed: tracks.remote_url, tracks.branch (2067)"
  /\ rows s' = [demo_devbox].
Proof.
  pose proof
    (proj1 (C1_insert_failure_is_compensated
              demo_ops "feature/foo" (world_of cleanup_fails)
              (registry [demo_devbox])
              "constraint failed: UNIQUE constraint failed: tracks.remote_url, tracks.branch (2067)"))
    as H.
  destruct (ops.NewTrackWorktree _ _ _ _) as [err s'] eqn:E.
  vm_compute in E. injection E as <- <-.
  match goal with
  | |- ?P /\ _ =>
      assert (F : P)
        by (vm_compute; eexists; eexists; split; [ find_in | reflexivity ])
  end.
  split; [ exact F | ].
  destruct (H F) as (pre & row & path & ri & rm & _ & _ & _ & _ & Herr & Hrows).
  split; [ exact Herr | exact Hrows ].
Defined.

(** ** Create-Track: the row it persists *)


(** After an INSERT went through, the lookup by key finds the new row. *)
Lemma find_inserted (remoteURL branch : string) (row : Track.t)
      (tbl : list Track.t) :
  existsb (db.same_key remoteURL branch) tbl = false ->
  db.same_key remoteURL branch row = true ->
  find (db.same_key remoteURL branch) (tbl ++ [row])%list = Some row.
Proof.
  intros Hno Hrow. induction tbl as [| x tbl IH]; cbn in *.
  - rewrite Hrow. reflexivity.
  - destruct (db.same_key remoteURL branch x); cbn in *;
      [ discriminate | exact (IH Hno) ].
Qed.

Lemma same_key_refl (remoteURL branch : string) (row : Track.t) :
  Track.RemoteURL row = remoteURL -> Track.Branch row = branch ->
  db.same_key remoteURL branch row = true.
Proof.
  intros <- <-. unfold db.same_key. rewrite !String.eqb_refl. reflexivity.
Qed.



(** ** Sync-Track on a worktree track *)

(** UPDATE ... SET head_sha leaves the key columns alone, so the lookup by
    key finds the same row with its new head. *)
Lemma find_set_head (remoteURL branch sha : string) (trk : Track.t)
      (tbl : list Track.t) :
  find (db.same_key remoteURL branch) tbl = Some trk ->
  find (db.same_key remoteURL branch) (set_head remoteURL branch sha tbl)
  = Some (Track.with_HeadSHA trk sha).
Proof.
  unfold set_head, db.update_where.
  induction tbl as [| x tbl IH]; cbn; [ discriminate | ].
  destruct (db.same_key remoteURL branch x) eqn:K.
  - intros [= <-]. cbn.
    change (db.same_key remoteURL branch (Track.with_HeadSHA x sha))
      with (db.same_key remoteURL branch x).
    rewrite K. reflexivity.
  - rewrite K. exact IH.
Qed.

(** C2.  Sync-Track on a worktree track whose rebase reports a conflict
    returns a result with the conflict flag set and the track's worktree
    path as the place to resolve it (non-empty when the path is); it makes
    no push and no pull-request call, sends no statement to the registry,
    and the row of the track is what it was, head SHA included. *)
Theorem C2_sync_conflict_stops_before_push
        (o : Ops.t) (branch : string) (trk : Track.t) (path : string)
        (w : World) (s : State) :
  resolves o branch trk w s ->
  Track.Type_ trk = TrackTypeWorktree ->
  Track.Path trk = Some path ->
  let '(res, s') := ops.SyncTrack o branch w s in
  let evs := events_since s s' in
  rebase_reported true path evs ->
  res = (Some (SyncResult.mk false false false 0 true path), None)
  /\ (path <> "" ->
      forall r, fst res = Some r -> SyncResult.ConflictsPath r <> "")
  /\ calls_none is_push_call evs
  /\ calls_none is_review_call evs
  /\ calls_none is_sql_write evs
  /\ rows s' = rows s
  /\ find (db.same_key (ops.remote_of o) branch) (rows s') = Some trk.
Proof.
  intros Hres Hty Hpath.
  pose proof (resolves_find Hres) as Hfind.
  unfold ops.SyncTrack. cbn [bind].
  rewrite (resolves_run Hres), Hty, Hpath. run.
  all: norm_events; intros (onto & rr & Hin & He & Hb).
  all: split_in Hin; try congruence.
  split; [ reflexivity | ].
  split; [ intros Hne r [= <-]; exact Hne | ].
  repeat split; try assumption.
  all: intros ev Hev; split_in Hev; reflexivity.
Qed.

Lemma C2_sync_conflict_stops_before_push_witness :
  let '(res, s') :=
    ops.SyncTrack demo_ops "feature/foo" (world_of rebase_conflicts)
                  (registry [demo_worktree]) in
  rebase_reported true demo_path (events_since (registry [demo_worktree]) s')
  /\ res = (Some (SyncResult.mk false false false 0 true demo_path), None)
  /\ rows s' = [demo_worktree].
Proof.
  pose proof
    (@C2_sync_conflict_stops_before_push
       demo_ops "feature/foo" demo_worktree demo_path
       (world_of rebase_conflicts) (registry [demo_worktree])
       eq_refl eq_refl eq_refl) as H.
  destruct (ops.SyncTrack _ _ _ _) as [res s'] eqn:E.
  vm_compute in E. injection E as <- <-.
  match goal with
  | |- ?P /\ _ =>
      assert (F : P)
        by (vm_compute; eexists; eexists; split;
            [ find_in | split; reflexivity ])
  end.
  split; [ exact F | ].
  destruct (H F) as (Hr & _ & _ & _ & _ & Hrows & _).
  split; [ exact Hr | exact Hrows ].
Defined.

(** C3.  Sync-Track on a worktree track where fetch, default-branch
    resolution, rebase (no conflict) and push all succeed returns a result
    with rebased and pushed set and no conflict.  The head is read after
    the rebase and the push, and at no other point: the run is the lookup,
    the fetch, the default branch, the rebase, the push and then the read
    of the tip.  When that read succeeds the next thing sent is the
    head-SHA update of the track with the value just read, and when the
    update goes through the registry row of the track carries that tip.
    Neither a failed read nor a failed update changes the result of the
    call. *)
Theorem C3_sync_success_updates_head
        (o : Ops.t) (branch : string) (trk : Track.t) (path : string)
        (w : World) (s : State) :
  resolves o branch trk w s ->
  Track.Type_ trk = TrackTypeWorktree ->
  Track.Path trk = Some path ->
  let '(res, s') := ops.SyncTrack o branch w s in
  let evs := events_since s s' in
  answered_ok (GitFetch path) evs ->
  answered_ok (GitGetDefaultBranch path) evs ->
  rebase_reported false path evs ->
  answered_ok (GitPushForce path branch) evs ->
  (exists r,
      res = (Some r, None)
      /\ SyncResult.Rebased r = true
      /\ SyncResult.Pushed r = true
      /\ SyncResult.HasConflicts r = false)
  /\ exists q f d rb push tip rest,
      evs = (SqlQueryRow (ops.remote_of o) branch, q)
            :: (GitFetch path, f)
            :: (GitGetDefaultBranch path, d)
            :: (GitRebase path ("origin/" ++ r_str d), rb)
            :: (GitPushForce path branch, push)
            :: (GitGetHeadSHA path, tip)
            :: rest
      /\ (forall p x, ~ In (GitGetHeadSHA p, x) rest)
      /\ (r_err tip <> None -> calls_none is_sql_write rest)
      /\ (r_err tip = None ->
          exists upd rest',
            rest = (SqlExec (SetHeadSHA (r_str tip) (ops.remote_of o) branch),
                    upd) :: rest'
            /\ calls_none is_sql_write rest'
            /\ (r_err upd = None ->
                rows s'
                = set_head (ops.remote_of o) branch (r_str tip) (rows s)
                /\ find (db.same_key (ops.remote_of o) branch) (rows s')
                   = Some (Track.with_HeadSHA trk (r_str tip)))).
Proof.
  intros Hres Hty Hpath.
  pose proof (resolves_find Hres) as Hfind.
  unfold ops.SyncTrack. cbn [bind].
  rewrite (resolves_run Hres), Hty, Hpath. run.
  all: norm_events.
  all: intros _ _ (onto & rr & Hin & He & Hb) (pr & Hpush & Hp).
  all: split_in Hin; try congruence.
  all: split_in Hpush; try congruence.
  all: split; [ eexists; repeat split; reflexivity | ].
  all: do 7 eexists; split; [ reflexivity | ].
  all: split; [ intros p x Hin; split_in Hin | ].
  all: split;
    [ intros Htip; first [ congruence
                         | intros ev Hev; split_in Hev; reflexivity ] | ].
  all: intros Htip; try congruence.
  all: do 2 eexists; split; [ reflexivity | ].
  all: split; [ intros ev Hev; split_in Hev; reflexivity | ].
  all: cbn [r_err failed]; intros Hupd; try congruence.
  all: split; [ reflexivity | ].
  all: apply find_set_head; assumption.
Qed.

Lemma C3_sync_success_updates_head_witness :
  let '(res, s') :=
    ops.SyncTrack demo_ops "feature/foo" (world_of head_moved)
                  (registry [demo_worktree]) in
  let evs := events_since (registry [demo_worktree]) s' in
  (answered_ok (GitFetch demo_path) evs
   /\ answered_ok (GitGetDefaultBranch demo_path) evs
   /\ rebase_reported false demo_path evs
   /\ answered_ok (GitPushForce demo_path "feature/foo") evs)
  /\ (exists r, res = (Some r, None) /\ SyncResult.Pushed r = true)
  /\ rows s' = [Track.with_HeadSHA demo_worktree "ffff000011112222"].
Proof.
  pose proof
    (@C3_sync_success_updates_head
       demo_ops "feature/foo" demo_worktree demo_path
       (world_of head_moved) (registry [demo_worktree])
       eq_refl eq_refl eq_refl) as H.
  destruct (ops.SyncTrack _ _ _ _) as [res s'] eqn:E.
  vm_compute in E. injection E as <- <-. cbv zeta in H |- *.
  match goal with
  | |- ?P /\ _ =>
      assert (F : P)
        by (vm_compute;
            split; [ eexists; split; [ find_in | reflexivity ] | ];
            split; [ eexists; split; [ find_in | reflexivity ] | ];
            split; [ eexists; eexists; split;
                     [ find_in | split; reflexivity ]
                   | eexists; split; [ find_in | reflexivity ] ])
  end.
  split; [ exact F | ].
  destruct F as (F1 & F2 & F3 & F4).
  destruct (H F1 F2 F3 F4) as ((r & Hr & _ & Hp & _) & _).
  split; [ exists r; split; [ exact Hr | exact Hp ] | reflexivity ].
Defined.

(** ** Delete-Track *)

(** Walk an explicit list of events up to the statement that splits it. *)
Ltac walk H pre :=
  destruct pre as [| ? pre]; cbn [app] in H;
  [ first [ discriminate H | injection H as ? ?; subst ]
  | first [ discriminate H | injection H as ? H; subst; walk H pre ] ].

(** C4.  Delete-Track on a track that carries the locator of its kind:
    every statement the run sends to the registry comes after a successful
    removal of the environment (git worktree remove, or devbox delete), so
    the table changes only after that; and when the removal fails the run
    returns that error, sends nothing to the registry, and the row of the
    track is still there. *)
Theorem C4_delete_deprovisions_first
        (o : Ops.t) (branch : string) (deleteRemote : bool) (trk : Track.t)
        (c : Call) (w : World) (s : State) :
  resolves o branch trk w s ->
  deprovision_call o trk = Some c ->
  let '(err, s') := ops.DeleteTrack o branch deleteRemote w s in
  let evs := events_since s s' in
  (forall pre q rep post,
      evs = (pre ++ (SqlExec q, rep) :: post)%list -> answered_ok c pre)
  /\ (rows s' <> rows s -> answered_ok c evs)
  /\ (forall e,
        answered_err c e evs ->
        err = Some (deprovision_prefix trk ++ e)
        /\ calls_none is_sql_write evs
        /\ rows s' = rows s
        /\ find (db.same_key (ops.remote_of o) branch) (rows s') = Some trk).
Proof.
  intros Hres Hc.
  pose proof (resolves_find Hres) as Hfind.
  unfold ops.DeleteTrack. cbn [bind].
  rewrite (resolves_run Hres).
  unfold deprovision_call, deprovision_prefix in *.
  destruct (Track.Type_ trk =? TrackTypeWorktree)%string eqn:Tw;
    [ destruct (Track.Path trk) as [path |]; [ | discriminate Hc ]
    | destruct (Track.Type_ trk =? TrackTypeDevbox)%string eqn:Td;
      [ destruct (Track.DevboxName trk) as [name |]; [ | discriminate Hc ]
      | discriminate Hc ] ].
  all: cbn in Hc; injection Hc as <-.
  all: run.
  all: norm_events.
  all: split; [ intros pre q rq post Hsplit; walk Hsplit pre | ].
  all: try (eexists; split; [ find_in | assumption ]).
  all: split;
    [ intros Hrows; try (exfalso; apply Hrows; reflexivity);
      try (eexists; split; [ find_in | assumption ]) | ].
  all: intros e (rr & Hin & He); split_in Hin; try congruence.
  all: split;
    [ match goal with
      | |- Some (_ ++ ?x) = Some (_ ++ ?y) =>
          replace x with y by congruence; reflexivity
      end | ].
  all: split; [ intros ev Hev; split_in Hev; reflexivity | ].
  all: split; [ reflexivity | assumption ].
Qed.

Lemma C4_delete_deprovisions_first_witness :
  let '(err, s') :=
    ops.DeleteTrack demo_ops "feature/foo" false (world_of cleanup_fails)
                    (registry [demo_worktree]) in
  answered_err (GitWorktreeRemove "/repo" demo_path)
    "git worktree remove /home/dev/worktrees/feature-foo-a1b2c3d failed: exit status 128"
    (events_since (registry [demo_worktree]) s')
  /\ err = Some "failed to remove worktree: git worktree remove /home/dev/worktrees/feature-foo-a1b2c3d failed: exit status 128"
  /\ rows s' = [demo_worktree].
Proof.
  pose proof
    (@C4_delete_deprovisions_first
       demo_ops "feature/foo" false demo_worktree
       (GitWorktreeRemove "/repo" demo_path)
       (world_of cleanup_fails) (registry [demo_worktree])
       eq_refl eq_refl) as H.
  destruct (ops.DeleteTrack _ _ _ _ _) as [err s'] eqn:E.
  vm_compute in E. injection E as <- <-.
  match goal with
  | |- ?P /\ _ =>
      assert (F : P)
        by (vm_compute; eexists; split; [ find_in | reflexivity ])
  end.
  split; [ exact F | ].
  destruct H as (_ & _ & H).
  destruct (H _ F) as (Herr & _ & Hrows & _).
  split; [ exact Herr | exact Hrows ].
Defined.

(** ** Status-Refresh *)

(** Status-Refresh runs three parts in a row.  Each part, seen from the
    other two: the events it adds, and the fields of the status it leaves
    alone. *)
Arguments ops.refresh_git_status : simpl never.
Arguments ops.refresh_pr_status : simpl never.
Arguments ops.refresh_stale : simpl never.
Arguments ops.status_workDir : simpl never.

Lemma refresh_git_status_run (o : Ops.t) (trk : Track.t) (workDir : string)
      (st : TrackStatus.t) (w : World) (s : State) :
  exists gs mm tbl g,
    ops.refresh_git_status o trk workDir st w s
    = (TrackStatus.mk gs (TrackStatus.PR st) (TrackStatus.CI st)
                      (TrackStatus.Review st) (TrackStatus.IsStale st) mm,
       mkState tbl (trace s ++ g)%list)
    /\ forall ev, In ev g -> is_git_part_call (fst ev) = true.
Proof.
  destruct st as [g0 p0 c0 r0 i0 m0].
  unfold ops.refresh_git_status. run.
  all: unfold record; cbn [rows trace]; rewrite <- ?app_assoc; cbn [app].
  all: do 4 eexists; split; [ reflexivity | ].
  all: intros ev Hev; split_in Hev; reflexivity.
Qed.

Lemma refresh_pr_status_run (o : Ops.t) (trk : Track.t)
      (st : TrackStatus.t) (w : World) (s : State) :
  exists rep pr ci rv,
    ops.refresh_pr_status o trk st w s
    = (TrackStatus.mk (TrackStatus.GitStatus st) pr ci rv
                      (TrackStatus.IsStale st) (TrackStatus.SHAMismatch st),
       record (GhGetPRForBranch (ops.remote_of o) (Track.Branch trk), rep) s).
Proof.
  destruct st as [g0 p0 c0 r0 i0 m0].
  unfold ops.refresh_pr_status. run.
  all: do 4 eexists; reflexivity.
Qed.

Lemma refresh_stale_run (trk : Track.t) (st : TrackStatus.t)
      (w : World) (s : State) :
  exists t b,
    ops.refresh_stale trk st w s
    = (TrackStatus.mk (TrackStatus.GitStatus st) (TrackStatus.PR st)
                      (TrackStatus.CI st) (TrackStatus.Review st) b
                      (TrackStatus.SHAMismatch st),
       mkState (rows s) (trace s ++ t)%list)
    /\ forall ev, In ev t -> fst ev = TimeNow.
Proof.
  destruct st as [g0 p0 c0 r0 i0 m0]. destruct s as [tbl tr].
  unfold ops.refresh_stale. run.
  all: unfold record; cbn [rows trace]; rewrite <- ?app_assoc; cbn [app].
  all: try (exists [], i0; rewrite app_nil_r; split;
            [ reflexivity | intros ev [] ]).
  all: do 2 eexists; split; [ reflexivity | ].
  all: intros ev Hev; split_in Hev; reflexivity.
Qed.

(** A part of the run that is not looked into: what it returns and the
    events it adds are named, and the run goes on after it. *)
Ltac skip_part :=
  match goal with
  | |- context [ops.refresh_git_status ?o ?trk ?wd ?st ?w ?s] =>
      let H := fresh "Hgit" in
      destruct (refresh_git_status_run o trk wd st w s)
        as (? & ? & ? & ? & -> & H)
  | |- context [ops.refresh_pr_status ?o ?trk ?st ?w ?s] =>
      destruct (refresh_pr_status_run o trk st w s)
        as (? & ? & ? & ? & ->)
  | |- context [ops.refresh_stale ?trk ?st ?w ?s] =>
      let H := fresh "Hstale" in
      destruct (refresh_stale_run trk st w s) as (? & ? & -> & H)
  end.

Lemma skipn_own (A : Type) (l r : list A) :
  skipn (Datatypes.length l) (l ++ r) = r.
Proof. induction l as [| a l IH]; [ reflexivity | exact IH ]. Qed.

(** The events of such a run, as a list whose parts are named. *)
Ltac norm_parts :=
  unfold events_since, record; cbn [trace rows];
  repeat rewrite <- app_assoc; cbn [app];
  rewrite ?skipn_own.

Ltac run_parts := msimpl; repeat (first [ skip_part | step ]; msimpl).

(** Membership in the events of such a run: the events of a part that was
    not looked into are known by the kind of their calls. *)
Ltac in_parts H :=
  repeat first
    [ apply in_app_or in H; destruct H as [H | H]
    | destruct H as [H | H];
      [ try discriminate H;
        first [ injection H as; subst | subst | idtac ] | ] ];
  try contradiction H;
  try match goal with
      | Hp : forall ev, In ev ?g -> _ |- _ =>
          match type of H with
          | In _ g => apply Hp in H; cbn in H; try discriminate H
          end
      end.

Ltac find_parts :=
  repeat lazymatch goal with
         | |- In _ (_ ++ _) => apply in_or_app; right
         | |- In _ (_ :: _) => first [ left; reflexivity | right ]
         end.

(** C6.  When the query to the code-review host for the branch's pull
    request fails, Status-Refresh still succeeds, and the status it returns
    has no PR, no CI and no review part. *)
Theorem C6_status_without_review_when_host_fails
        (o : Ops.t) (trk : Track.t) (w : World) (s : State) (e : string) :
  let '(st, err, s') := ops.RefreshTrackStatus o trk w s in
  answered_err (GhGetPRForBranch (ops.remote_of o) (Track.Branch trk)) e
               (events_since s s') ->
  err = None
  /\ TrackStatus.PR st = None
  /\ TrackStatus.CI st = None
  /\ TrackStatus.Review st = None.
Proof.
  unfold ops.RefreshTrackStatus, ops.refresh_pr_status. run_parts.
  all: norm_parts; intros (rr & Hin & He).
  all: in_parts Hin; try congruence.
  all: repeat split; reflexivity.
Qed.

Lemma C6_status_without_review_when_host_fails_witness :
  let '(st, err, s') :=
    ops.RefreshTrackStatus demo_ops demo_worktree (world_of gh_down)
                           (registry [demo_worktree]) in
  answered_err (GhGetPRForBranch "owner/repo" "feature/foo")
    "failed to get PR for branch feature/foo: gh pr view failed"
    (events_since (registry [demo_worktree]) s')
  /\ err = None
  /\ TrackStatus.PR st = None.
Proof.
  pose proof
    (C6_status_without_review_when_host_fails
       demo_ops demo_worktree (world_of gh_down) (registry [demo_worktree])
       "failed to get PR for branch feature/foo: gh pr view failed") as H.
  destruct (ops.RefreshTrackStatus _ _ _ _) as [[st err] s'] eqn:E.
  vm_compute in E. injection E as <- <- <-.
  match goal with
  | |- ?P /\ _ =>
      assert (F : P)
        by (vm_compute; eexists; split; [ find_in | reflexivity ])
  end.
  split; [ exact F | ].
  destruct (H F) as (He & Hpr & _).
  split; [ exact He | exact Hpr ].
Defined.

(** The saturation of [time.Sub] does not change the staleness test: the
    threshold lies well inside the range of a Duration. *)
Lemma stale_test_exact (now t : time.Time) :
  (time.Sub now t >? ops.staleDuration) = (now - t >? 7 * 24 * time.Hour).
Proof.
  unfold time.Sub, ops.staleDuration, time.maxDuration, time.minDuration,
    time.Hour, time.Minute, time.Second, time.Nanosecond.
  destruct (now - t >? 2 ^ 63 - 1) eqn:A;
    [ | destruct (now - t <? - 2 ^ 63) eqn:B ].
  all: destruct (now - t >? 7 * 24 * (60 * (60 * (1000000000 * 1)))) eqn:C.
  all: try reflexivity.
  all: cbn; lia.
Qed.

(** C8.  On a track with a last-accessed time [t], Status-Refresh reads the
    clock once, and the status is stale exactly when that reading is more
    than seven days after [t]: eight days after gives stale, one hour after
    gives not stale. *)
Theorem C8_stale_exactly_after_seven_days
        (o : Ops.t) (trk : Track.t) (t : time.Time) (w : World) (s : State) :
  Track.LastAccessed trk = Some t ->
  let '(st, err, s') := ops.RefreshTrackStatus o trk w s in
  let evs := events_since s s' in
  exists now,
    In (TimeNow, now) evs
    /\ (forall now', In (TimeNow, now') evs -> now' = now)
    /\ TrackStatus.IsStale st = (time.Sub (r_int now) t >? ops.staleDuration)
    /\ (TrackStatus.IsStale st = true <-> r_int now - t > 7 * 24 * time.Hour)
    /\ (r_int now - t = 8 * 24 * time.Hour -> TrackStatus.IsStale st = true)
    /\ (r_int now - t = time.Hour -> TrackStatus.IsStale st = false).
Proof.
  intros Hla. unfold ops.RefreshTrackStatus, ops.refresh_stale.
  rewrite Hla. run_parts.
  all: norm_parts.
  all: eexists; split; [ find_parts | ].
  all: split; [ intros now' Hin; in_parts Hin; reflexivity | ].
  all: cbn [TrackStatus.IsStale TrackStatus.with_IsStale TrackStatus.zero
              TrackStatus.with_review TrackStatus.with_SHAMismatch
              TrackStatus.with_GitStatus].
  all: match goal with
       | H : (time.Sub ?a ?b >? _) = ?v |- _ =>
           change ((time.Sub a b >? ops.staleDuration) = v) in H;
           split; [ symmetry; exact H | ];
           rewrite stale_test_exact in H
       end.
  all: unfold time.Hour, time.Minute, time.Second, time.Nanosecond in *.
  all: repeat split; intros; try reflexivity; try lia.
Qed.

Lemma C8_stale_exactly_after_seven_days_witness :
  Track.LastAccessed (Track.with_LastAccessed demo_worktree (Some eight_days_ago))
  = Some eight_days_ago
  /\ TrackStatus.IsStale
       (fst (fst (ops.RefreshTrackStatus
                    demo_ops
                    (Track.with_LastAccessed demo_worktree (Some eight_days_ago))
                    (world_of quiet) (registry [demo_worktree]))))
     = true
  /\ TrackStatus.IsStale
       (fst (fst (ops.RefreshTrackStatus
                    demo_ops
                    (Track.with_LastAccessed demo_worktree (Some one_hour_ago))
                    (world_of quiet) (registry [demo_worktree]))))
     = false.
Proof.
  split; [ reflexivity | ].
  split.
  - pose proof
      (@C8_stale_exactly_after_seven_days
         demo_ops
         (Track.with_LastAccessed demo_worktree (Some eight_days_ago))
         eight_days_ago (world_of quiet) (registry [demo_worktree]) eq_refl)
      as H.
    destruct (ops.RefreshTrackStatus _ _ _ _) as [[st err] s'] eqn:E.
    cbv zeta in H. destruct H as (now & Hin & _ & _ & _ & H8 & _).
    vm_compute in E. injection E as <- <- <-.
    apply H8.
    unfold events_since in Hin. cbn in Hin. split_in Hin. reflexivity.
  - pose proof
      (@C8_stale_exactly_after_seven_days
         demo_ops
         (Track.with_LastAccessed demo_worktree (Some one_hour_ago))
         one_hour_ago (world_of quiet) (registry [demo_worktree]) eq_refl)
      as H.
    destruct (ops.RefreshTrackStatus _ _ _ _) as [[st err] s'] eqn:E.
    cbv zeta in H. destruct H as (now & Hin & _ & _ & _ & _ & H1).
    vm_compute in E. injection E as <- <- <-.
    apply H1.
    unfold events_since in Hin. cbn in Hin. split_in Hin. reflexivity.
Defined.

(** C7 at a concrete run: a worktree track whose recorded head is the
    sentinel, while the working copy is at a real commit.  The two differ,
    yet the status reports no drift and the recorded head stays as it was. *)
Lemma C7_sentinel_head_is_not_drift :
  let '(st, err, s') :=
    ops.RefreshTrackStatus demo_ops sentinel_worktree (world_of head_moved)
                           (registry [sentinel_worktree]) in
  let evs := events_since (registry [sentinel_worktree]) s' in
  Track.Type_ sentinel_worktree = TrackTypeWorktree
  /\ Track.HeadSHA sentinel_worktree = "unknown"
  /\ In (GitGetHeadSHA demo_path, reply_str "ffff000011112222") evs
  /\ "ffff000011112222" <> Track.HeadSHA sentinel_worktree
  /\ TrackStatus.SHAMismatch st = false
  /\ rows s' = [sentinel_worktree].
Proof.
  vm_compute.
  repeat split; try discriminate.
  find_in.
Qed.

(** C7, as the code has it.  On a worktree track with a worktree path,
    whose recorded head is neither empty nor the sentinel: when the head of
    the working copy is read and differs from the recorded one, the status
    reports the mismatch and the run sends the update of the recorded head
    to the live value; when that update goes through, the rows of the track
    carry the live value. *)
Theorem C7_head_drift_detected
        (o : Ops.t) (trk : Track.t) (path : string) (w : World) (s : State) :
  Track.Type_ trk = TrackTypeWorktree ->
  Track.Path trk = Some path ->
  path <> "" ->
  Track.HeadSHA trk <> "" ->
  Track.HeadSHA trk <> "unknown" ->
  let '(st, err, s') := ops.RefreshTrackStatus o trk w s in
  let evs := events_since s s' in
  forall live,
    In (GitGetHeadSHA path, live) evs ->
    r_err live = None ->
    r_str live <> Track.HeadSHA trk ->
    TrackStatus.SHAMismatch st = true
    /\ exists upd,
        In (SqlExec (SetHeadSHA (r_str live) (ops.remote_of o)
                                (Track.Branch trk)), upd) evs
        /\ (r_err upd = None ->
            rows s'
            = set_head (ops.remote_of o) (Track.Branch trk) (r_str live)
                       (rows s)
            /\ forall row,
                find (db.same_key (ops.remote_of o) (Track.Branch trk))
                     (rows s) = Some row ->
                find (db.same_key (ops.remote_of o) (Track.Branch trk))
                     (rows s')
                = Some (Track.with_HeadSHA row (r_str live))).
Proof.
  intros Hty Hpath Hne He Hu.
  apply String.eqb_neq in Hne, He, Hu.
  unfold ops.RefreshTrackStatus, ops.refresh_git_status, ops.status_workDir.
  rewrite Hty, Hpath. cbn. rewrite Hne, He, Hu. run_parts.
  all: norm_parts; intros live Hin Hok Hdiff.
  all: in_parts Hin; try congruence.
  all: try match goal with
           | H : negb (?a =? ?b)%string = false |- _ =>
               apply negb_false_iff, String.eqb_eq in H; congruence
           end.
  all: split; [ reflexivity | ].
  all: eexists; split; [ find_parts | ].
  all: cbn [r_err failed]; intros Hupd; try congruence.
  all: split; [ reflexivity | ].
  all: intros row Hrow; apply find_set_head; exact Hrow.
Qed.

Lemma C7_head_drift_detected_witness :
  let '(st, err, s') :=
    ops.RefreshTrackStatus demo_ops demo_worktree (world_of head_moved)
                           (registry [demo_worktree]) in
  In (GitGetHeadSHA demo_path, reply_str "ffff000011112222")
     (events_since (registry [demo_worktree]) s')
  /\ TrackStatus.SHAMismatch st = true
  /\ rows s' = [Track.with_HeadSHA demo_worktree "ffff000011112222"].
Proof.
  assert (N1 : demo_path <> "") by discriminate.
  assert (N2 : Track.HeadSHA demo_worktree <> "") by discriminate.
  assert (N3 : Track.HeadSHA demo_worktree <> "unknown") by discriminate.
  pose proof
    (@C7_head_drift_detected
       demo_ops demo_worktree demo_path (world_of head_moved)
       (registry [demo_worktree]) eq_refl eq_refl N1 N2 N3) as H.
  destruct (ops.RefreshTrackStatus _ _ _ _) as [[st err] s'] eqn:E.
  vm_compute in E. injection E as <- <- <-. cbv zeta in H.
  match goal with
  | |- ?P /\ _ => assert (F : P) by (vm_compute; find_in)
  end.
  split; [ exact F | ].
  assert (D : r_str (reply_str "ffff000011112222")
              <> Track.HeadSHA demo_worktree) by discriminate.
  destruct (H _ F eq_refl D) as (Hm & _).
  split; [ exact Hm | reflexivity ].
Defined.

(** C10.  When the recorded head of the track is empty or the sentinel
    "unknown", Status-Refresh skips the drift check whatever the working
    copy shows: the status reports no mismatch, the run sends no statement
    to the registry, and the table is unchanged. *)
Theorem C10_sentinel_head_skips_drift_check
        (o : Ops.t) (trk : Track.t) (w : World) (s : State) :
  Track.HeadSHA trk = "" \/ Track.HeadSHA trk = "unknown" ->
  let '(st, err, s') := ops.RefreshTrackStatus o trk w s in
  TrackStatus.SHAMismatch st = false
  /\ calls_none is_sql_write (events_since s s')
  /\ rows s' = rows s.
Proof.
  intros [H | H];
    unfold ops.RefreshTrackStatus, ops.refresh_git_status;
    rewrite H; run_parts.
  all: norm_parts.
  all: split; [ reflexivity | ].
  all: split; [ | reflexivity ].
  all: intros ev Hev; in_parts Hev; try reflexivity.
  all: destruct ev as [c r]; cbn in Hev; subst c; reflexivity.
Qed.

Lemma C10_sentinel_head_skips_drift_check_witness :
  let '(st, err, s') :=
    ops.RefreshTrackStatus demo_ops sentinel_worktree (world_of head_moved)
                           (registry [sentinel_worktree]) in
  (Track.HeadSHA sentinel_worktree = ""
   \/ Track.HeadSHA sentinel_worktree = "unknown")
  /\ TrackStatus.SHAMismatch st = false
  /\ rows s' = [sentinel_worktree].
Proof.
  assert (S : Track.HeadSHA sentinel_worktree = ""
              \/ Track.HeadSHA sentinel_worktree = "unknown")
    by (right; reflexivity).
  pose proof
    (@C10_sentinel_head_skips_drift_check
       demo_ops sentinel_worktree (world_of head_moved)
       (registry [sentinel_worktree]) S) as H.
  destruct (ops.RefreshTrackStatus _ _ _ _) as [[st err] s'] eqn:E.
  destruct H as (Hm & _ & Hrows).
  split; [ exact S | ].
  split; [ exact Hm | ].
  rewrite Hrows. reflexivity.
Defined.

(** * Further properties of the engine *)

(** ** Shared lemmas *)

Lemma GetTrack_run (remoteURL branch : string) (w : World) (s : State)
      (res : option Track.t * error) :
  fst (db.GetTrack remoteURL branch w s) = res ->
  db.GetTrack remoteURL branch w s
  = (res, record (SqlQueryRow remoteURL branch,
                  respond w (trace s) (SqlQueryRow remoteURL branch)) s).
Proof.
  intros H. rewrite <- GetTrack_state, <- H. apply surjective_pairing.
Qed.

Lemma find_filtered_out (p : Track.t -> bool) (tbl : list Track.t) :
  find p (filter (fun row => negb (p row)) tbl) = None.
Proof.
  induction tbl as [| x tbl IH]; cbn; [ reflexivity | ].
  destruct (p x) eqn:P; cbn; [ exact IH | ].
  rewrite P. exact IH.
Qed.

Lemma found_is_counted (p : Track.t -> bool) (tbl : list Track.t)
      (x : Track.t) :
  find p tbl = Some x -> (db.count_where p tbl =? 0) = false.
Proof.
  unfold db.count_where. intros H. apply Z.eqb_neq.
  induction tbl as [| y tbl IH]; cbn in *; [ discriminate | ].
  destruct (p y); cbn [length]; [ lia | exact (IH H) ].
Qed.

(** ** Create-Track: how the branch is resolved, what a failure leaves *)

(** X1.  Once the default branch is resolved, NewTrackWorktree looks
    the branch up locally and on the remote, and
    creates the local branch only when the local lookup failed: from
    origin/<branch> when the remote lookup succeeded, otherwise from
    origin/<default branch>.  A branch that exists locally is reused. *)
Theorem X1_worktree_branch_resolution
        (o : Ops.t) (branch : string) (w : World) (s : State) :
  let '(err, s') := ops.NewTrackWorktree o branch w s in
  let evs := events_since s s' in
  let repo := ops.repoPath_of o in
  answered_ok (GitGetDefaultBranch repo) evs ->
  exists f d loc rm rest,
    evs = ((GitFetch repo, f)
           :: (GitGetDefaultBranch repo, d)
           :: (GitGetBranchSHA repo branch, loc)
           :: (GitGetBranchSHA repo ("origin/" ++ branch), rm)
           :: rest)
    /\ (r_err loc = None -> calls_none is_create_branch rest)
    /\ (r_err loc <> None -> r_err rm = None ->
        exists c rest',
          rest = (GitCreateBranch repo branch ("origin/" ++ branch), c) :: rest'
          /\ calls_none is_create_branch rest')
    /\ (r_err loc <> None -> r_err rm <> None ->
        exists c rest',
          rest = (GitCreateBranch repo branch ("origin/" ++ r_str d), c)
                   :: rest'
          /\ calls_none is_create_branch rest').
Proof.
  unfold ops.NewTrackWorktree. run.
  all: norm_events; intros (rr & Hin & He).
  all: split_in Hin; try congruence.
  all: do 5 eexists; split; [ reflexivity | ].
  all: split; [ intros H; try congruence;
                intros ev Hev; split_in Hev; reflexivity | ].
  all: split; intros H1 H2; try congruence.
  all: do 2 eexists; split; [ reflexivity | ].
  all: intros ev Hev; split_in Hev; reflexivity.
Qed.

Lemma X1_worktree_branch_resolution_witness :
  let '(err, s') :=
    ops.NewTrackWorktree demo_ops "feature/foo" (world_of quiet) (registry [])
  in
  answered_ok (GitGetDefaultBranch "/repo")
              (events_since (registry []) s')
  /\ calls_none is_create_branch (events_since (registry []) s').
Proof.
  pose proof
    (X1_worktree_branch_resolution
       demo_ops "feature/foo" (world_of quiet) (registry [])) as H.
  destruct (ops.NewTrackWorktree _ _ _ _) as [err s'] eqn:E.
  vm_compute in E. injection E as <- <-. cbv zeta in H.
  match goal with
  | |- ?P /\ _ =>
      assert (F : P)
        by (vm_compute; eexists; split; [ find_in | reflexivity ])
  end.
  split; [ exact F | ].
  destruct (H F) as (f & d & loc & rm & rest & Hev & Hloc & _).
  rewrite Hev. unfold events_since in Hev. cbn in Hev.
  injection Hev as <- <- <- <- <-.
  intros ev Hin. cbn [In] in Hin.
  destruct Hin as [<- | [<- | [<- | [<- | Hin]]]]; try reflexivity.
  exact (Hloc eq_refl ev Hin).
Defined.

(** X2.  Create-Track is all or nothing on the registry: when it returns
    an error the table is what it was; and the only statement it ever
    sends is the INSERT of a row for this branch and remote. *)
Theorem X2_create_all_or_nothing
        (o : Ops.t) (branch : string) (w : World) (s : State) :
  (let '(err, s') := ops.NewTrackWorktree o branch w s in
   (err <> None -> rows s' = rows s)
   /\ forall q rep,
       In (SqlExec q, rep) (events_since s s') ->
       exists row,
         q = InsertInto row
         /\ Track.Branch row = branch
         /\ Track.RemoteURL row = ops.remote_of o
         /\ Track.Type_ row = TrackTypeWorktree)
  /\
  (let '(err, s') := ops.NewTrackDevbox o branch w s in
   (err <> None -> rows s' = rows s)
   /\ forall q rep,
       In (SqlExec q, rep) (events_since s s') ->
       exists row,
         q = InsertInto row
         /\ Track.Branch row = branch
         /\ Track.RemoteURL row = ops.remote_of o
         /\ Track.Type_ row = TrackTypeDevbox).
Proof.
  split.
  - unfold ops.NewTrackWorktree. run.
    all: norm_events.
    all: split; [ intros H; try reflexivity; congruence | ].
    all: intros q rr Hin; split_in Hin.
    all: eexists; repeat split; reflexivity.
  - unfold ops.NewTrackDevbox. run.
    all: norm_events.
    all: split; [ intros H; try reflexivity; congruence | ].
    all: intros q rr Hin; split_in Hin.
    all: eexists; repeat split; reflexivity.
Qed.

(** X3.  NewTrackDevbox refuses a devbox name that is already taken: when
    the existence check answers yes, the run stops there with an error
    naming the devbox; nothing is created and nothing is recorded. *)
Theorem X3_devbox_name_taken
        (o : Ops.t) (branch : string) (w : World) (s : State) :
  let '(err, s') := ops.NewTrackDevbox o branch w s in
  let evs := events_since s s' in
  forall name rep,
    In (DevboxExists name, rep) evs ->
    r_err rep = None ->
    r_bool rep = true ->
    name = Slugify w branch
    /\ err = Some ("devbox " ++ name ++ " already exists")
    /\ evs = [(DevboxExists name, rep)]
    /\ rows s' = rows s.
Proof.
  unfold ops.NewTrackDevbox. run.
  all: norm_events; intros name rr Hin He Hb.
  all: split_in Hin; try congruence.
  repeat split; reflexivity.
Qed.

Lemma X3_devbox_name_taken_witness :
  let w := world_of (fun h c => match c with
                                | DevboxExists _ => reply_bool true
                                | _ => quiet h c
                                end) in
  let '(err, s') := ops.NewTrackDevbox demo_ops "feature/foo" w (registry [])
  in
  In (DevboxExists "feature-foo", reply_bool true)
     (events_since (registry []) s')
  /\ err = Some "devbox feature-foo already exists".
Proof.
  cbv zeta.
  pose proof
    (X3_devbox_name_taken
       demo_ops "feature/foo"
       (world_of (fun h c => match c with
                             | DevboxExists _ => reply_bool true
                             | _ => quiet h c
                             end))
       (registry [])) as H.
  destruct (ops.NewTrackDevbox _ _ _ _) as [err s'] eqn:E.
  vm_compute in E. injection E as <- <-. cbv zeta in H.
  match goal with
  | |- ?P /\ _ => assert (F : P) by (vm_compute; find_in)
  end.
  split; [ exact F | ].
  destruct (H _ _ F eq_refl eq_refl) as (_ & He & _).
  exact He.
Defined.

(** X4.  A devbox track records the head the remote branch resolves to,
    and the sentinel "unknown" when it does not resolve (the lookup fails
    or prints nothing). *)
Theorem X4_devbox_head_or_sentinel
        (o : Ops.t) (branch : string) (w : World) (s : State) :
  let '(err, s') := ops.NewTrackDevbox o branch w s in
  let evs := events_since s s' in
  err = None ->
  exists row sha,
    rows s' = (rows s ++ [row])%list
    /\ In (GitGetBranchSHA (ops.repoPath_of o) ("origin/" ++ branch), sha) evs
    /\ Track.HeadSHA row
       = match r_err sha with
         | Some _ => "unknown"
         | None => if (r_str sha =? "")%string then "unknown" else r_str sha
         end.
Proof.
  unfold ops.NewTrackDevbox. run.
  all: norm_events; intros He; try discriminate He.
  all: do 2 eexists; split; [ reflexivity | ].
  all: split; [ find_in | ].
  all: cbn [Track.HeadSHA Track.with_ID Track.with_CreatedAt].
  all: repeat match goal with
              | H : r_err _ = _ |- _ => rewrite H
              | H : (_ =? _)%string = _ |- _ => rewrite H
              end.
  all: reflexivity.
Qed.

Lemma X4_devbox_head_or_sentinel_witness :
  let w := world_of (fun h c => match c with
                                | GitFetch _ => failed "offline"
                                | GitGetBranchSHA _ _ => failed "unknown revision"
                                | _ => quiet h c
                                end) in
  let '(err, s') := ops.NewTrackDevbox demo_ops "feature/foo" w (registry [])
  in
  err = None
  /\ exists row, rows s' = [row] /\ Track.HeadSHA row = "unknown".
Proof.
  cbv zeta.
  pose proof
    (X4_devbox_head_or_sentinel
       demo_ops "feature/foo"
       (world_of (fun h c => match c with
                             | GitFetch _ => failed "offline"
                             | GitGetBranchSHA _ _ => failed "unknown revision"
                             | _ => quiet h c
                             end))
       (registry [])) as H.
  destruct (ops.NewTrackDevbox _ _ _ _) as [err s'] eqn:E.
  vm_compute in E. injection E as <- <-. cbv zeta in H.
  split; [ reflexivity | ].
  destruct (H eq_refl) as (row & sha & Hrows & Hin & Hsha).
  exists row. split; [ exact Hrows | ].
  unfold events_since in Hin. cbn in Hin. split_in Hin. exact Hsha.
Defined.

Lemma X2_create_all_or_nothing_witness :
  let '(err, s') :=
    ops.NewTrackDevbox demo_ops "feature/foo" (world_of cleanup_fails)
                       (registry [demo_worktree]) in
  err <> None /\ rows s' = [demo_worktree].
Proof.
  pose proof
    (proj2 (X2_create_all_or_nothing
              demo_ops "feature/foo" (world_of cleanup_fails)
              (registry [demo_worktree]))) as H.
  destruct (ops.NewTrackDevbox _ _ _ _) as [err s'] eqn:E.
  vm_compute in E. injection E as <- <-.
  assert (F : Some "failed to record track in database: failed to insert track: constraint failed: UNIQUE constraint failed: tracks.remote_url, tracks.branch (2067)" <> None)
    by discriminate.
  split; [ exact F | exact (proj1 H F) ].
Defined.

(** ** Delete-Track and Sync-Track: the remaining paths *)

(** X5.  Deleting the remote branch is optional and best-effort: without
    the flag Delete-Track never pushes; with it, a failed push-delete is
    written to stderr as a warning and the DELETE of the row is sent all
    the same, so the result of the call is that of the registry alone. *)
Theorem X5_remote_branch_deletion_is_best_effort
        (o : Ops.t) (branch : string) (deleteRemote : bool) (trk : Track.t)
        (c : Call) (w : World) (s : State) :
  resolves o branch trk w s ->
  deprovision_call o trk = Some c ->
  let '(err, s') := ops.DeleteTrack o branch deleteRemote w s in
  let evs := events_since s s' in
  (deleteRemote = false -> calls_none is_push_call evs)
  /\ forall e,
      answered_err (GitPushDelete (ops.repoPath_of o) branch) e evs ->
      deleteRemote = true
      /\ (exists rep,
             In (OsStderr ("warning: failed to delete remote branch: "
                             ++ e ++ nl), rep) evs)
      /\ exists del,
          In (SqlExec (DeleteFrom (ops.remote_of o) branch), del) evs
          /\ (r_err del = None ->
              find (db.same_key (ops.remote_of o) branch) (rows s') = None)
          /\ (r_err del = None ->
              answered_ok SqlRowsAffected evs -> err = None).
Proof.
  intros Hres Hc.
  pose proof (resolves_find Hres) as Hfind.
  unfold ops.DeleteTrack. cbn [bind].
  rewrite (resolves_run Hres).
  unfold deprovision_call in *.
  destruct (Track.Type_ trk =? TrackTypeWorktree)%string eqn:Tw;
    [ destruct (Track.Path trk) as [path |]; [ | discriminate Hc ]
    | destruct (Track.Type_ trk =? TrackTypeDevbox)%string eqn:Td;
      [ destruct (Track.DevboxName trk) as [name |]; [ | discriminate Hc ]
      | discriminate Hc ] ].
  all: cbn in Hc; injection Hc as <-.
  all: destruct deleteRemote.
  all: run.
  all: norm_events.
  all: split; [ intros Hd; try discriminate Hd;
                intros ev Hev; split_in Hev; reflexivity | ].
  all: intros e (rr & Hin & He); split_in Hin; try congruence.
  all: split; [ reflexivity | ].
  all: split;
    [ eexists;
      match goal with
      | H1 : r_err ?r = Some ?a, H2 : r_err ?r = Some ?b |- _ =>
          assert (a = b) by congruence; subst
      end; find_in | ].
  all: eexists; split; [ find_in | ].
  all: cbn [r_err failed]; split; intros Hd; try congruence.
  all: try (cbn [rows]; apply find_filtered_out).
  all: intros (ra & Hra & Hok); split_in Hra; try congruence.
  all: try reflexivity.
  all: match goal with
       | H : (db.count_where _ _ =? 0) = true |- _ =>
           rewrite (@found_is_counted _ _ _ Hfind) in H; discriminate H
       end.
Qed.

Lemma X5_remote_branch_deletion_is_best_effort_witness :
  let w := world_of (fun h c => match c with
                                | GitPushDelete _ _ => failed "remote ref does not exist"
                                | _ => quiet h c
                                end) in
  let '(err, s') :=
    ops.DeleteTrack demo_ops "feature/foo" true w (registry [demo_worktree]) in
  answered_err (GitPushDelete "/repo" "feature/foo")
               "remote ref does not exist"
               (events_since (registry [demo_worktree]) s')
  /\ err = None
  /\ rows s' = [].
Proof.
  cbv zeta.
  pose proof
    (@X5_remote_branch_deletion_is_best_effort
       demo_ops "feature/foo" true demo_worktree
       (GitWorktreeRemove "/repo" demo_path)
       (world_of (fun h c => match c with
                             | GitPushDelete _ _ => failed "remote ref does not exist"
                             | _ => quiet h c
                             end))
       (registry [demo_worktree]) eq_refl eq_refl) as H.
  destruct (ops.DeleteTrack _ _ _ _ _) as [err s'] eqn:E.
  vm_compute in E. injection E as <- <-. cbv zeta in H.
  match goal with
  | |- ?P /\ _ =>
      assert (F : P)
        by (vm_compute; eexists; split; [ find_in | reflexivity ])
  end.
  split; [ exact F | ].
  split; reflexivity.
Defined.

(** X6.  An operation on a branch the registry does not know stops at the
    lookup: Delete-Track and Sync-Track return the error naming the
    branch, and the lookup is the only thing that happened. *)
Theorem X6_unknown_branch_stops_at_lookup
        (o : Ops.t) (branch : string) (deleteRemote : bool)
        (w : World) (s : State) :
  not_tracked o branch w s ->
  (let '(err, s') := ops.DeleteTrack o branch deleteRemote w s in
   err = Some ("track not found for branch: " ++ branch)
   /\ (exists rep,
          events_since s s' = [(SqlQueryRow (ops.remote_of o) branch, rep)])
   /\ rows s' = rows s)
  /\
  (let '(res, s') := ops.SyncTrack o branch w s in
   res = (None, Some ("track not found for branch: " ++ branch))
   /\ (exists rep,
          events_since s s' = [(SqlQueryRow (ops.remote_of o) branch, rep)])
   /\ rows s' = rows s).
Proof.
  intros H. unfold not_tracked in H.
  split.
  - unfold ops.DeleteTrack. cbn [bind]. rewrite (GetTrack_run _ _ _ _ H).
    cbn. repeat split. eexists. norm_events. reflexivity.
  - unfold ops.SyncTrack. cbn [bind]. rewrite (GetTrack_run _ _ _ _ H).
    cbn. repeat split. eexists. norm_events. reflexivity.
Qed.

Lemma X6_unknown_branch_stops_at_lookup_witness :
  not_tracked demo_ops "feature/bar" (world_of quiet) (registry [demo_worktree])
  /\ fst (ops.SyncTrack demo_ops "feature/bar" (world_of quiet)
                        (registry [demo_worktree]))
     = (None, Some "track not found for branch: feature/bar").
Proof.
  assert (N : not_tracked demo_ops "feature/bar" (world_of quiet)
                          (registry [demo_worktree])) by reflexivity.
  split; [ exact N | ].
  pose proof
    (proj2 (@X6_unknown_branch_stops_at_lookup
              demo_ops "feature/bar" false (world_of quiet)
              (registry [demo_worktree]) N)) as H.
  exact (proj1 H).
Defined.

(** X7.  When the force-push fails after a rebase that went through,
    Sync-Track returns the push error; the recorded head is not touched
    and no pull request is looked up or created. *)
Theorem X7_sync_push_failure_is_fatal
        (o : Ops.t) (branch : string) (trk : Track.t) (path : string)
        (w : World) (s : State) (e : string) :
  resolves o branch trk w s ->
  Track.Type_ trk = TrackTypeWorktree ->
  Track.Path trk = Some path ->
  let '(res, s') := ops.SyncTrack o branch w s in
  let evs := events_since s s' in
  answered_err (GitPushForce path branch) e evs ->
  res = (None, Some ("failed to push: " ++ e))
  /\ rebase_reported false path evs
  /\ calls_none is_sql_write evs
  /\ calls_none is_review_call evs
  /\ rows s' = rows s.
Proof.
  intros Hres Hty Hpath.
  unfold ops.SyncTrack. cbn [bind].
  rewrite (resolves_run Hres), Hty, Hpath. run.
  all: norm_events; intros (rr & Hin & He).
  all: split_in Hin; try congruence.
  split;
    [ match goal with
      | |- (None, Some (_ ++ ?x)) = (None, Some (_ ++ ?y)) =>
          replace x with y by congruence; reflexivity
      end | ].
  split; [ do 2 eexists; split; [ find_in | split; assumption ] | ].
  repeat split; intros ev Hev; split_in Hev; reflexivity.
Qed.

Lemma X7_sync_push_failure_is_fatal_witness :
  let w := world_of (fun h c => match c with
                                | GitPushForce _ _ => failed "stale info"
                                | _ => quiet h c
                                end) in
  let '(res, s') :=
    ops.SyncTrack demo_ops "feature/foo" w (registry [demo_worktree]) in
  answered_err (GitPushForce demo_path "feature/foo") "stale info"
               (events_since (registry [demo_worktree]) s')
  /\ res = (None, Some "failed to push: stale info").
Proof.
  cbv zeta.
  pose proof
    (@X7_sync_push_failure_is_fatal
       demo_ops "feature/foo" demo_worktree demo_path
       (world_of (fun h c => match c with
                             | GitPushForce _ _ => failed "stale info"
                             | _ => quiet h c
                             end))
       (registry [demo_worktree]) "stale info" eq_refl eq_refl eq_refl) as H.
  destruct (ops.SyncTrack _ _ _ _) as [res s'] eqn:E.
  vm_compute in E. injection E as <- <-. cbv zeta in H.
  match goal with
  | |- ?P /\ _ =>
      assert (F : P)
        by (vm_compute; eexists; split; [ find_in | reflexivity ])
  end.
  split; [ exact F | exact (proj1 (H F)) ].
Defined.

(** X8.  After a successful push Sync-Track looks the pull request up.
    It creates one only when the lookup succeeded and found none,
    against the default branch and titled by the branch name; the result
    reports a created pull request, with its number, exactly when that
    creation succeeded.  A failed lookup or a failed creation leaves the
    call successful. *)
Theorem X8_sync_creates_pr_only_when_absent
        (o : Ops.t) (branch : string) (trk : Track.t) (path : string)
        (w : World) (s : State) :
  resolves o branch trk w s ->
  Track.Type_ trk = TrackTypeWorktree ->
  Track.Path trk = Some path ->
  let '(res, s') := ops.SyncTrack o branch w s in
  let evs := events_since s s' in
  answered_ok (GitPushForce path branch) evs ->
  exists q,
    In (GhGetPRForBranch (ops.remote_of o) branch, q) evs
    /\ (r_err q <> None \/ r_pr q <> None ->
        calls_none is_create_pr evs
        /\ res = (Some (SyncResult.mk true true false 0 false ""), None))
    /\ (r_err q = None -> r_pr q = None ->
        exists d c,
          In (GitGetDefaultBranch path, d) evs
          /\ In (GhCreatePR (ops.remote_of o) branch (r_str d) branch, c) evs
          /\ res = (Some (SyncResult.mk true true (ops.is_nil (r_err c))
                            (if ops.is_nil (r_err c) then r_int c else 0)
                            false ""), None)).
Proof.
  intros Hres Hty Hpath.
  unfold ops.SyncTrack. cbn [bind].
  rewrite (resolves_run Hres), Hty, Hpath. run.
  all: norm_events; intros (rr & Hin & He).
  all: split_in Hin; try congruence.
  all: eexists; split; [ find_in | ].
  all: split;
    [ intros [Hq | Hq]; try congruence;
      (split; [ intros ev Hev; split_in Hev; reflexivity | reflexivity ])
    | intros Hq1 Hq2; try congruence ].
  all: do 2 eexists; split; [ find_in | ]; split; [ find_in | ].
  all: cbn [ops.is_nil].
  all: repeat match goal with
              | H : r_err _ = _ |- _ => rewrite H
              end.
  all: reflexivity.
Qed.

Lemma X8_sync_creates_pr_only_when_absent_witness :
  let w := world_of (fun h c => match c with
                                | GhCreatePR _ _ _ _ => reply_int 42
                                | _ => quiet h c
                                end) in
  let '(res, s') :=
    ops.SyncTrack demo_ops "feature/foo" w (registry [demo_worktree]) in
  answered_ok (GitPushForce demo_path "feature/foo")
              (events_since (registry [demo_worktree]) s')
  /\ res = (Some (SyncResult.mk true true true 42 false ""), None).
Proof.
  cbv zeta.
  pose proof
    (@X8_sync_creates_pr_only_when_absent
       demo_ops "feature/foo" demo_worktree demo_path
       (world_of (fun h c => match c with
                             | GhCreatePR _ _ _ _ => reply_int 42
                             | _ => quiet h c
                             end))
       (registry [demo_worktree]) eq_refl eq_refl eq_refl) as H.
  destruct (ops.SyncTrack _ _ _ _) as [res s'] eqn:E.
  vm_compute in E. injection E as <- <-. cbv zeta in H.
  match goal with
  | |- ?P /\ _ =>
      assert (F : P)
        by (vm_compute; eexists; split; [ find_in | reflexivity ])
  end.
  split; [ exact F | reflexivity ].
Defined.

(** ** Status-Refresh: what it reads and what it may write *)

(** X9.  For a devbox track Status-Refresh makes no git call at all: the
    git part of the status is the zero value, no drift is reported and
    nothing is written to the registry. *)
Theorem X9_devbox_status_has_no_git_part
        (o : Ops.t) (trk : Track.t) (w : World) (s : State) :
  Track.Type_ trk = TrackTypeDevbox ->
  let '(st, err, s') := ops.RefreshTrackStatus o trk w s in
  let evs := events_since s s' in
  calls_none is_vcs_call evs
  /\ calls_none is_sql_write evs
  /\ TrackStatus.GitStatus st = GitStatus.zero
  /\ TrackStatus.SHAMismatch st = false
  /\ rows s' = rows s.
Proof.
  intros Hty. unfold ops.RefreshTrackStatus, ops.status_workDir.
  rewrite Hty. run_parts.
  all: norm_parts.
  all: repeat split; try reflexivity.
  all: intros ev Hev; in_parts Hev; try reflexivity.
  all: destruct ev as [c r]; cbn in Hev; subst c; reflexivity.
Qed.

Lemma X9_devbox_status_has_no_git_part_witness :
  let '(st, err, s') :=
    ops.RefreshTrackStatus demo_ops demo_devbox (world_of quiet)
                           (registry [demo_devbox]) in
  Track.Type_ demo_devbox = TrackTypeDevbox
  /\ TrackStatus.GitStatus st = GitStatus.zero.
Proof.
  pose proof
    (@X9_devbox_status_has_no_git_part
       demo_ops demo_devbox (world_of quiet) (registry [demo_devbox])
       eq_refl) as H.
  destruct (ops.RefreshTrackStatus _ _ _ _) as [[st err] s'].
  split; [ reflexivity | exact (proj1 (proj2 (proj2 H))) ].
Defined.

Lemma one_flag (x a b c : string) :
  a <> b -> a <> c -> b <> c ->
  flags_set (x =? a)%string (x =? b)%string (x =? c)%string <= 1.
Proof.
  intros ab ac bc. unfold flags_set.
  destruct (String.eqb_spec x a), (String.eqb_spec x b),
    (String.eqb_spec x c); cbn; try lia; congruence.
Qed.

(** X10.  When the code-review host returns a pull request,
    Status-Refresh reports its number, the URL
    https://github.com/<remote>/pull/<number>, and its state; of the three
    CI flags at most one is set, and likewise of the three review flags:
    each is set exactly when the pull request carries the matching value,
    and any other value sets none. *)
Theorem X10_review_fields_follow_the_pull_request
        (o : Ops.t) (trk : Track.t) (w : World) (s : State) :
  let '(st, err, s') := ops.RefreshTrackStatus o trk w s in
  let evs := events_since s s' in
  forall q pr,
    In (GhGetPRForBranch (ops.remote_of o) (Track.Branch trk), q) evs ->
    r_err q = None ->
    r_pr q = Some pr ->
    TrackStatus.PR st
    = Some (PRStatus.mk (PR.Number pr)
              ("https://github.com/" ++ ops.remote_of o ++ "/pull/"
                 ++ itoa (PR.Number pr))
              (PR.State pr) false)
    /\ exists ci rv,
        TrackStatus.CI st = Some ci
        /\ TrackStatus.Review st = Some rv
        /\ CIStatus.Passing ci = (PR.CIStatus pr =? "success")%string
        /\ CIStatus.Pending ci = (PR.CIStatus pr =? "pending")%string
        /\ CIStatus.Failing ci = (PR.CIStatus pr =? "failure")%string
        /\ flags_set (CIStatus.Passing ci) (CIStatus.Pending ci)
                     (CIStatus.Failing ci) <= 1
        /\ ReviewStatus.Approved rv
           = (PR.ReviewStatus pr =? "approved")%string
        /\ ReviewStatus.ChangesRequested rv
           = (PR.ReviewStatus pr =? "changes_requested")%string
        /\ ReviewStatus.Pending rv = (PR.ReviewStatus pr =? "pending")%string
        /\ flags_set (ReviewStatus.Approved rv)
                     (ReviewStatus.ChangesRequested rv)
                     (ReviewStatus.Pending rv) <= 1.
Proof.
  unfold ops.RefreshTrackStatus, ops.refresh_pr_status. run_parts.
  all: norm_parts; intros q pr Hin He Hpr.
  all: in_parts Hin; try congruence.
  all: match goal with
       | H1 : r_pr ?r = Some ?a, H2 : r_pr ?r = Some ?b |- _ =>
           assert (a = b) by congruence; subst; clear H2
       end.
  all: split; [ reflexivity | ].
  all: do 2 eexists.
  all: cbn [TrackStatus.CI TrackStatus.Review TrackStatus.with_IsStale
              TrackStatus.with_review CIStatus.Passing CIStatus.Pending
              CIStatus.Failing ReviewStatus.Approved
              ReviewStatus.ChangesRequested ReviewStatus.Pending].
  all: repeat (split; [ reflexivity | ]).
  all: split; [ apply one_flag; discriminate | ].
  all: repeat (split; [ reflexivity | ]).
  all: apply one_flag; discriminate.
Qed.

(** X11.  Status-Refresh never fails, and it is a read apart from the one
    correction of the recorded head: the only statement it can send is the
    head-SHA update for its own branch, at most once, so the table is
    either what it was or differs by that update. *)
Theorem X11_status_refresh_only_corrects_the_head
        (o : Ops.t) (trk : Track.t) (w : World) (s : State) :
  let '(st, err, s') := ops.RefreshTrackStatus o trk w s in
  let evs := events_since s s' in
  err = None
  /\ (forall q rep,
        In (SqlExec q, rep) evs ->
        exists live,
          In (GitGetHeadSHA (ops.status_workDir o trk), live) evs
          /\ q = SetHeadSHA (r_str live) (ops.remote_of o) (Track.Branch trk))
  /\ (rows s' = rows s
      \/ exists sha,
          rows s' = set_head (ops.remote_of o) (Track.Branch trk) sha (rows s)).
Proof.
  unfold ops.RefreshTrackStatus, ops.refresh_git_status. run_parts.
  all: norm_parts.
  all: split; [ reflexivity | ].
  all: split; [ intros q rr Hin; in_parts Hin;
                (eexists; (split; [ find_parts | reflexivity ])) | ].
  all: first [ left; reflexivity | right; eexists; reflexivity ].
Qed.

Lemma X10_review_fields_follow_the_pull_request_witness :
  let '(st, err, s') :=
    ops.RefreshTrackStatus demo_ops demo_worktree (world_of pr_open)
                           (registry [demo_worktree]) in
  TrackStatus.PR st
  = Some (PRStatus.mk 42 "https://github.com/owner/repo/pull/42" "open"
            false).
Proof.
  pose proof
    (@X10_review_fields_follow_the_pull_request
       demo_ops demo_worktree (world_of pr_open) (registry [demo_worktree]))
    as H.
  destruct (ops.RefreshTrackStatus _ _ _ _) as [[st err] s'] eqn:E.
  vm_compute in E. injection E as <- <- <-. cbv zeta in H.
  exact (proj1 (H (mkReply None "" false 0 0 (Some demo_pr)) demo_pr
                  ltac:(vm_compute; find_in) eq_refl eq_refl)).
Defined.

Lemma X11_status_refresh_only_corrects_the_head_witness :
  let '(st, err, s') :=
    ops.RefreshTrackStatus demo_ops demo_worktree (world_of head_moved)
                           (registry [demo_worktree]) in
  err = None
  /\ rows s'
     = set_head "owner/repo" "feature/foo" "ffff000011112222"
                [demo_worktree].
Proof.
  pose proof
    (@X11_status_refresh_only_corrects_the_head
       demo_ops demo_worktree (world_of head_moved)
       (registry [demo_worktree])) as H.
  destruct (ops.RefreshTrackStatus _ _ _ _) as [[st err] s'] eqn:E.
  vm_compute in E. injection E as <- <- <-. cbv zeta in H.
  split; [ exact (proj1 H) | reflexivity ].
Defined.

(** ** The registry: round trips and invariants *)

Lemma same_key_iff (remoteURL branch : string) (row : Track.t) :
  db.same_key remoteURL branch row = true <-> key_of row = (remoteURL, branch).
Proof.
  unfold db.same_key, key_of. rewrite andb_true_iff, !String.eqb_eq.
  split; [ intros [-> ->]; reflexivity | intros [= -> ->]; split; reflexivity ].
Qed.

Lemma no_match_no_key (remoteURL branch : string) (tbl : list Track.t) :
  existsb (db.same_key remoteURL branch) tbl = false ->
  ~ In (remoteURL, branch) (map key_of tbl).
Proof.
  intros H Hin. apply in_map_iff in Hin. destruct Hin as (row & Hk & Hin).
  assert (E : existsb (db.same_key remoteURL branch) tbl = true).
  { apply existsb_exists. exists row. split; [ exact Hin | ].
    apply same_key_iff. exact Hk. }
  congruence.
Qed.

Lemma id_below_next (tbl : list Track.t) (row : Track.t) :
  In row tbl -> Track.ID row < db.next_id tbl.
Proof.
  unfold db.next_id.
  induction tbl as [| x tbl IH]; cbn [fold_right In]; [ contradiction | ].
  intros [<- | Hin]; [ lia | specialize (IH Hin); lia ].
Qed.

Lemma update_where_keys (p : Track.t -> bool) (f : Track.t -> Track.t)
      (A : Type) (col : Track.t -> A) (tbl : list Track.t) :
  (forall row, col (f row) = col row) ->
  map col (db.update_where p f tbl) = map col tbl.
Proof.
  intros Hf. unfold db.update_where. rewrite map_map.
  apply map_ext. intros row. destruct (p row); [ apply Hf | reflexivity ].
Qed.

Lemma NoDup_map_filter (A : Type) (col : Track.t -> A) (p : Track.t -> bool)
      (tbl : list Track.t) :
  NoDup (map col tbl) -> NoDup (map col (filter p tbl)).
Proof.
  induction tbl as [| x tbl IH]; cbn; [ intros; constructor | ].
  intros H. inversion H as [| ? ? Hx Hr]; subst.
  destruct (p x); cbn; [ constructor | ]; auto.
  intros Hin. apply Hx. apply in_map_iff in Hin.
  destruct Hin as (y & Hy & Hin). apply in_map_iff. exists y.
  split; [ exact Hy | ]. apply filter_In in Hin. tauto.
Qed.

(** What a statement does to a table the schema accepts. *)
Lemma run_stmt_keeps_registry_ok (q : SqlStmt) (tbl tbl' : list Track.t)
      (n : Z) :
  registry_ok tbl -> db.run_stmt q tbl = inl (tbl', n) -> registry_ok tbl'.
Proof.
  intros (Hk & Hi & Ht). destruct q as [row | r b | now r b | sha r b]; cbn.
  - destruct (db.type_ok (Track.Type_ row)) eqn:T; cbn; [ | discriminate ].
    destruct (existsb _ tbl) eqn:E; [ discriminate | ].
    intros [= <- <-]. repeat split.
    + rewrite map_app. cbn [map]. apply NoDup_app; auto.
      * constructor; [ intros [] | constructor ].
      * intros k Hin [<- | []]. exact (@no_match_no_key _ _ _ E Hin).
    + rewrite map_app. cbn [map]. apply NoDup_app; auto.
      * constructor; [ intros [] | constructor ].
      * intros i Hin Hnew. cbn in Hnew. destruct Hnew as [<- | []].
        apply in_map_iff in Hin. destruct Hin as (y & Hy & Hin).
        pose proof (@id_below_next _ _ Hin). lia.
    + apply Forall_app. split; [ exact Ht | ].
      constructor; [ exact T | constructor ].
  - intros [= <- <-]. repeat split.
    + apply NoDup_map_filter. exact Hk.
    + apply NoDup_map_filter. exact Hi.
    + apply Forall_forall. intros x Hin. apply filter_In in Hin.
      rewrite Forall_forall in Ht. apply Ht. tauto.
  - intros [= <- <-]. repeat split.
    + rewrite update_where_keys; [ exact Hk | reflexivity ].
    + rewrite update_where_keys; [ exact Hi | reflexivity ].
    + unfold db.update_where. apply Forall_map.
      rewrite Forall_forall in *. intros x Hin.
      destruct (db.same_key r b x); cbn; apply Ht; exact Hin.
  - intros [= <- <-]. repeat split.
    + rewrite update_where_keys; [ exact Hk | reflexivity ].
    + rewrite update_where_keys; [ exact Hi | reflexivity ].
    + unfold db.update_where. apply Forall_map.
      rewrite Forall_forall in *. intros x Hin.
      destruct (db.same_key r b x); cbn; apply Ht; exact Hin.
Qed.

Lemma ok_insert (row : Track.t) (tbl : list Track.t) :
  registry_ok tbl ->
  db.type_ok (Track.Type_ row) = true ->
  existsb (db.same_key (Track.RemoteURL row) (Track.Branch row)) tbl = false ->
  registry_ok (tbl ++ [Track.with_ID row (db.next_id tbl)])%list.
Proof.
  intros Hok T E.
  apply (@run_stmt_keeps_registry_ok (InsertInto row) tbl _ 1 Hok).
  cbn. rewrite T, E. reflexivity.
Qed.

Lemma ok_delete (remoteURL branch : string) (tbl : list Track.t) :
  registry_ok tbl ->
  registry_ok (filter (fun row => negb (db.same_key remoteURL branch row)) tbl).
Proof.
  intros Hok.
  exact (@run_stmt_keeps_registry_ok (DeleteFrom remoteURL branch) tbl _ _
           Hok eq_refl).
Qed.

Lemma ok_set_head (remoteURL branch sha : string) (tbl : list Track.t) :
  registry_ok tbl -> registry_ok (set_head remoteURL branch sha tbl).
Proof.
  intros Hok.
  exact (@run_stmt_keeps_registry_ok (SetHeadSHA sha remoteURL branch) tbl _ _
           Hok eq_refl).
Qed.

(** Sync-Track and Status-Refresh touch the table through the head-SHA
    update of their branch only. *)
Lemma sync_rows_shape (o : Ops.t) (branch : string) (w : World) (s : State) :
  let s' := snd (ops.SyncTrack o branch w s) in
  rows s' = rows s
  \/ exists sha, rows s' = set_head (ops.remote_of o) branch sha (rows s).
Proof.
  unfold ops.SyncTrack. run.
  all: first [ left; reflexivity | right; eexists; reflexivity ].
Qed.

Lemma refresh_rows_shape (o : Ops.t) (trk : Track.t) (w : World) (s : State) :
  let s' := snd (ops.RefreshTrackStatus o trk w s) in
  rows s' = rows s
  \/ exists sha,
      rows s' = set_head (ops.remote_of o) (Track.Branch trk) sha (rows s).
Proof.
  unfold ops.RefreshTrackStatus, ops.refresh_git_status. run_parts.
  all: first [ left; reflexivity | right; eexists; reflexivity ].
Qed.

(** X12.  Insert then look up: after InsertTrack returned nil, a GetTrack
    of the same remote and branch never answers that there is no such
    track.  It returns an error (the driver fails, or a stored timestamp
    does not parse), or else the row that was inserted, under an id no
    earlier row has; its created_at is the one given unless that was the
    zero time. *)
Theorem X12_insert_then_get
        (track : Track.t) (w : World) (s : State) :
  let '(err, s1) := db.InsertTrack track w s in
  let '(res, s2) :=
    db.GetTrack (Track.RemoteURL track) (Track.Branch track) w s1 in
  err = None ->
  res <> (None, None)
  /\ (snd res = None ->
      exists created,
        fst res = Some (Track.with_ID (Track.with_CreatedAt track created)
                                      (db.next_id (rows s)))
        /\ (time.IsZero (Track.CreatedAt track) = false ->
            created = Track.CreatedAt track)
        /\ ~ In (db.next_id (rows s)) (map Track.ID (rows s))).
Proof.
  unfold db.InsertTrack, db.GetTrack. run.
  all: intros He; try discriminate He.
  all: try match goal with
           | H : find ?p (?l ++ [?x])%list = _ |- _ =>
               rewrite (@find_inserted _ _ x l) in H by
                 (try assumption; apply same_key_refl; reflexivity);
               first [ discriminate H | injection H as <- ]
           end.
  all: split; [ discriminate | ].
  all: cbn [fst snd]; intros Hs; try discriminate Hs.
  all: eexists.
  all: split; [ reflexivity | ].
  all: split; [ intros Hz; try reflexivity; congruence | ].
  all: intros Hin; apply in_map_iff in Hin;
    destruct Hin as (y & Hy & Hin);
    pose proof (@id_below_next _ _ Hin); lia.
Qed.

Lemma X12_insert_then_get_witness :
  let '(err, s1) := db.InsertTrack demo_worktree (world_of quiet) (registry [])
  in
  let '(res, s2) :=
    db.GetTrack "owner/repo" "feature/foo" (world_of quiet) s1 in
  err = None /\ res = (Some demo_worktree, None).
Proof.
  pose proof (X12_insert_then_get demo_worktree (world_of quiet) (registry []))
    as H.
  destruct (db.InsertTrack _ _ _) as [err s1] eqn:E.
  vm_compute in E. injection E as <- <-.
  change (Track.RemoteURL demo_worktree) with "owner/repo" in H.
  change (Track.Branch demo_worktree) with "feature/foo" in H.
  destruct (db.GetTrack _ _ _ _) as [res s2] eqn:E2.
  vm_compute in E2. injection E2 as <- <-.
  destruct (H eq_refl) as (_ & H2).
  destruct (H2 eq_refl) as (created & Hf & _).
  split; reflexivity.
Defined.

(** X13.  Every operation of the engine keeps the table as the schema
    wants it: no two rows with one (remote, branch) key, no two rows with
    one id, and only rows of type worktree or devbox. *)
Theorem X13_engine_keeps_registry_well_formed
        (o : Ops.t) (branch : string) (deleteRemote : bool) (trk : Track.t)
        (w : World) (s : State) :
  registry_ok (rows s) ->
  registry_ok (rows (snd (ops.NewTrackWorktree o branch w s)))
  /\ registry_ok (rows (snd (ops.NewTrackDevbox o branch w s)))
  /\ registry_ok (rows (snd (ops.DeleteTrack o branch deleteRemote w s)))
  /\ registry_ok (rows (snd (ops.SyncTrack o branch w s)))
  /\ registry_ok (rows (snd (ops.RefreshTrackStatus o trk w s))).
Proof.
  intros Hok.
  split; [ | split; [ | split; [ | split ] ] ].
  - unfold ops.NewTrackWorktree. run.
    all: cbn [rows record].
    all: first [ exact Hok
               | apply (@ok_insert _ _ Hok); [ reflexivity | assumption ] ].
  - unfold ops.NewTrackDevbox. run.
    all: cbn [rows record].
    all: first [ exact Hok
               | apply (@ok_insert _ _ Hok); [ reflexivity | assumption ] ].
  - unfold ops.DeleteTrack. run.
    all: cbn [rows record].
    all: first [ exact Hok | apply ok_delete; exact Hok ].
  - destruct (sync_rows_shape o branch w s) as [-> | (sha & ->)];
      [ exact Hok | apply ok_set_head; exact Hok ].
  - destruct (refresh_rows_shape o trk w s) as [-> | (sha & ->)];
      [ exact Hok | apply ok_set_head; exact Hok ].
Qed.

Lemma X13_engine_keeps_registry_well_formed_witness :
  registry_ok [demo_worktree]
  /\ registry_ok
       (rows (snd (ops.DeleteTrack demo_ops "feature/foo" false
                                   (world_of quiet) (registry [demo_worktree])))).
Proof.
  assert (R : registry_ok (rows (registry [demo_worktree]))).
  { repeat split.
    - constructor; [ intros [] | constructor ].
    - constructor; [ intros [] | constructor ].
    - constructor; [ reflexivity | constructor ]. }
  split; [ exact R | ].
  exact (proj1 (proj2 (proj2
           (@X13_engine_keeps_registry_well_formed
              demo_ops "feature/foo" false demo_worktree
              (world_of quiet) (registry [demo_worktree]) R)))).
Defined.

Lemma no_match_filter (p : Track.t -> bool) (tbl : list Track.t) :
  existsb p tbl = false -> filter (fun row => negb (p row)) tbl = tbl.
Proof.
  induction tbl as [| x tbl IH]; cbn; [ reflexivity | ].
  destruct (p x); cbn; [ discriminate | ].
  intros H. rewrite (IH H). reflexivity.
Qed.

Lemma no_match_update (p : Track.t -> bool) (f : Track.t -> Track.t)
      (tbl : list Track.t) :
  existsb p tbl = false -> db.update_where p f tbl = tbl.
Proof.
  unfold db.update_where.
  induction tbl as [| x tbl IH]; cbn; [ reflexivity | ].
  destruct (p x); cbn; [ discriminate | ].
  intros H. rewrite (IH H). reflexivity.
Qed.

Lemma no_match_count (p : Track.t -> bool) (tbl : list Track.t) :
  existsb p tbl = false -> (db.count_where p tbl =? 0) = true.
Proof.
  unfold db.count_where. intros H. apply Z.eqb_eq.
  induction tbl as [| x tbl IH]; cbn in *; [ reflexivity | ].
  destruct (p x); cbn in *; [ discriminate | exact (IH H) ].
Qed.

(** X14.  When Delete-Track returns nil, the table is the old one without
    the rows of this remote and branch: a lookup of the branch finds
    nothing, and every other row is still there. *)
Theorem X14_delete_removes_exactly_the_track
        (o : Ops.t) (branch : string) (deleteRemote : bool)
        (w : World) (s : State) :
  let '(err, s') := ops.DeleteTrack o branch deleteRemote w s in
  err = None ->
  rows s'
  = filter (fun row => negb (db.same_key (ops.remote_of o) branch row))
           (rows s)
  /\ find (db.same_key (ops.remote_of o) branch) (rows s') = None
  /\ forall row,
      In row (rows s) ->
      db.same_key (ops.remote_of o) branch row = false ->
      In row (rows s').
Proof.
  unfold ops.DeleteTrack. run.
  all: intros He; try discriminate He.
  all: cbn [rows record].
  all: split; [ reflexivity | ].
  all: split; [ apply find_filtered_out | ].
  all: intros row Hin Hk; apply filter_In; rewrite Hk; split;
    [ exact Hin | reflexivity ].
Qed.

Lemma X14_delete_removes_exactly_the_track_witness :
  let '(err, s') :=
    ops.DeleteTrack demo_ops "feature/foo" false (world_of quiet)
                    (registry [demo_worktree]) in
  err = None /\ rows s' = [].
Proof.
  pose proof
    (X14_delete_removes_exactly_the_track
       demo_ops "feature/foo" false (world_of quiet)
       (registry [demo_worktree])) as H.
  destruct (ops.DeleteTrack _ _ _ _ _) as [err s'] eqn:E.
  vm_compute in E. injection E as <- <-.
  split; [ reflexivity | exact (proj1 (H eq_refl)) ].
Defined.

(** X15.  Writing to a key the table does not hold changes nothing and is
    reported: DeleteTrack, UpdateHeadSHA and UpdateLastAccessed leave the
    table as it was and return an error, which is "track not found"
    whenever the driver itself did not fail. *)
Theorem X15_write_to_missing_key_is_reported
        (remoteURL branch sha : string) (w : World) (s : State) :
  existsb (db.same_key remoteURL branch) (rows s) = false ->
  (let '(err, s') := db.DeleteTrack remoteURL branch w s in
   rows s' = rows s
   /\ err <> None
   /\ (driver_ok (events_since s s') -> err = Some "track not found"))
  /\
  (let '(err, s') := db.UpdateHeadSHA remoteURL branch sha w s in
   rows s' = rows s
   /\ err <> None
   /\ (driver_ok (events_since s s') -> err = Some "track not found"))
  /\
  (let '(err, s') := db.UpdateLastAccessed remoteURL branch w s in
   rows s' = rows s
   /\ err <> None
   /\ (driver_ok (events_since s s') -> err = Some "track not found")).
Proof.
  intros Hno.
  pose proof (@no_match_count _ _ Hno) as Hc.
  split; [ | split ].
  - unfold db.DeleteTrack. run.
    all: norm_events; cbn [rows record].
    all: rewrite ?(@no_match_filter _ _ Hno).
    all: split; [ reflexivity | ].
    all: split; [ discriminate | ].
    all: try congruence.
    all: intros H; try reflexivity.
    all: exfalso;
      match goal with
      | Hf : r_err ?r = Some _, Hd : driver_ok ?l |- _ =>
          let c := match l with context [(?c0, r)] => c0 end in
          pose proof (Hd c r ltac:(find_in)) as Hx; cbn in Hx; congruence
      end.
  - unfold db.UpdateHeadSHA. run.
    all: norm_events; cbn [rows record].
    all: rewrite ?(@no_match_update _ _ _ Hno).
    all: split; [ reflexivity | ].
    all: split; [ discriminate | ].
    all: try congruence.
    all: intros H; try reflexivity.
    all: exfalso;
      match goal with
      | Hf : r_err ?r = Some _, Hd : driver_ok ?l |- _ =>
          let c := match l with context [(?c0, r)] => c0 end in
          pose proof (Hd c r ltac:(find_in)) as Hx; cbn in Hx; congruence
      end.
  - unfold db.UpdateLastAccessed. run.
    all: norm_events; cbn [rows record].
    all: rewrite ?(@no_match_update _ _ _ Hno).
    all: split; [ reflexivity | ].
    all: split; [ discriminate | ].
    all: try congruence.
    all: intros H; try reflexivity.
    all: exfalso;
      match goal with
      | Hf : r_err ?r = Some _, Hd : driver_ok ?l |- _ =>
          let c := match l with context [(?c0, r)] => c0 end in
          pose proof (Hd c r ltac:(find_in)) as Hx; cbn in Hx; congruence
      end.
Qed.

Lemma X15_write_to_missing_key_is_reported_witness :
  existsb (db.same_key "owner/repo" "feature/bar") [demo_worktree] = false
  /\ fst (db.UpdateHeadSHA "owner/repo" "feature/bar" demo_sha
                           (world_of quiet) (registry [demo_worktree]))
     = Some "track not found".
Proof.
  split; [ reflexivity | ].
  pose proof
    (proj1 (proj2 (@X15_write_to_missing_key_is_reported
                     "owner/repo" "feature/bar" demo_sha
                     (world_of quiet) (registry [demo_worktree]) eq_refl)))
    as H.
  destruct (db.UpdateHeadSHA _ _ _ _ _) as [err s'] eqn:E.
  vm_compute in E. injection E as <- <-.
  apply H. intros c rep Hin.
  unfold events_since in Hin. cbn in Hin. split_in Hin; exact I || reflexivity.
Defined.

(** X16.  Sync-Track and Status-Refresh change no column but head_sha:
    with that column blanked, the table after the call is the table
    before it, row for row. *)
Theorem X16_sync_and_refresh_change_only_head_sha
        (o : Ops.t) (branch : string) (trk : Track.t) (w : World) (s : State) :
  map without_head (rows (snd (ops.SyncTrack o branch w s)))
  = map without_head (rows s)
  /\ map without_head (rows (snd (ops.RefreshTrackStatus o trk w s)))
     = map without_head (rows s).
Proof.
  split.
  - destruct (sync_rows_shape o branch w s) as [-> | (sha & ->)];
      [ reflexivity | ].
    apply update_where_keys. reflexivity.
  - destruct (refresh_rows_shape o trk w s) as [-> | (sha & ->)];
      [ reflexivity | ].
    apply update_where_keys. reflexivity.
Qed.

(** ** package track: numerals, status texts, slugs *)

Lemma digits_value_app (acc : Z) (s1 s2 : string) :
  digits_value acc (s1 ++ s2)
  = match digits_value acc s1 with
    | Some v => digits_value v s2
    | None => None
    end.
Proof.
  revert acc. induction s1 as [| c s1 IH]; intros acc; [ reflexivity | ].
  change (String c s1 ++ s2) with (String c (s1 ++ s2)).
  cbn [digits_value].
  destruct (is_digit c); [ apply IH | reflexivity ].
Qed.

Lemma string_of_app (l1 l2 : list ascii) :
  string_of_list_ascii (l1 ++ l2)
  = string_of_list_ascii l1 ++ string_of_list_ascii l2.
Proof.
  induction l1 as [| c l1 IH]; [ reflexivity | ].
  cbn [app string_of_list_ascii]. rewrite IH. reflexivity.
Qed.

(** Digits read most significant first give the value they have read
    least significant first, reversed. *)
Lemma digits_value_rev (ds : list ascii) :
  Forall (fun d => is_digit d = true) ds ->
  digits_value 0 (string_of_list_ascii (rev ds)) = Some (lsd_value ds).
Proof.
  induction ds as [| d ds IH]; cbn [rev lsd_value]; [ reflexivity | ].
  intros H. inversion H as [| ? ? Hd Hr]; subst.
  rewrite string_of_app, digits_value_app, (IH Hr).
  cbn [string_of_list_ascii digits_value].
  rewrite Hd. f_equal. lia.
Qed.

Lemma digit_of_remainder (m : Z) :
  0 < m ->
  let d := ascii_of_nat (48 + Z.to_nat (Z.rem m 10)) in
  is_digit d = true /\ digit_value d = Z.rem m 10.
Proof.
  intros Hm d.
  assert (R : 0 <= Z.rem m 10 < 10).
  { rewrite Z.rem_mod_nonneg by lia. apply Z.mod_pos_bound. lia. }
  assert (N : (Z.to_nat (Z.rem m 10) < 10)%nat) by lia.
  unfold d, is_digit, digit_value, byte_in.
  rewrite nat_ascii_embedding by lia.
  split; [ apply andb_true_iff; split; apply Nat.leb_le; lia | lia ].
Qed.

(** The loop of itoa, run for as many rounds as the number has digits or
    more, appends the digits of the number, least significant first. *)
Lemma itoa_digits_spec (rounds : nat) :
  forall (m : Z) (acc : list ascii),
    0 <= m < 10 ^ Z.of_nat rounds ->
    exists ds,
      track.itoa_digits rounds m acc = (acc ++ ds)%list
      /\ lsd_value ds = m
      /\ Forall (fun d => is_digit d = true) ds
      /\ (0 < m -> ds <> []).
Proof.
  induction rounds as [| k IH]; intros m acc Hm.
  - exists []. cbn in *. rewrite app_nil_r.
    repeat split; [ lia | constructor | lia ].
  - cbn [track.itoa_digits].
    destruct (m >? 0) eqn:P.
    + assert (Hpos : 0 < m) by lia.
      destruct (digit_of_remainder Hpos) as (Hd & Hv).
      assert (Hq : 0 <= Z.quot m 10 < 10 ^ Z.of_nat k).
      { rewrite Z.quot_div_nonneg by lia. split.
        - apply Z.div_pos; lia.
        - apply Z.div_lt_upper_bound; [ lia | ].
          replace (10 * 10 ^ Z.of_nat k) with (10 ^ Z.of_nat (S k));
            [ lia | ].
          rewrite Nat2Z.inj_succ, Z.pow_succ_r by lia. reflexivity. }
      destruct (IH (Z.quot m 10)
                  (acc ++ [ascii_of_nat (48 + Z.to_nat (Z.rem m 10))])%list
                  Hq) as (ds & He & Hl & Hf & Hn).
      eexists (_ :: ds). rewrite He, <- app_assoc. cbn [app].
      split; [ reflexivity | ].
      split; [ cbn [lsd_value]; rewrite Hv, Hl;
               pose proof (Z.quot_rem' m 10); lia | ].
      split; [ constructor; assumption | discriminate ].
    + exists []. rewrite app_nil_r.
      repeat split; [ cbn; lia | constructor | lia ].
Qed.

Lemma first_is_digit (ds : list ascii) :
  Forall (fun d => is_digit d = true) ds -> ds <> [] ->
  exists c rest,
    string_of_list_ascii ds = String c rest /\ is_digit c = true.
Proof.
  destruct ds as [| c ds]; [ congruence | ].
  intros H _. inversion H; subst. exists c, (string_of_list_ascii ds).
  split; [ reflexivity | assumption ].
Qed.

Lemma Atoi_of_digits (s : string) (c : ascii) (rest : string) (v : Z) :
  s = String c rest -> is_digit c = true ->
  digits_value 0 s = Some v -> in_int64 v = true ->
  Atoi s = Some v.
Proof.
  intros -> Hc Hv Hr. unfold Atoi.
  destruct c as [[] [] [] [] [] [] [] []]; try discriminate Hc;
    cbv beta iota; rewrite Hv, Hr; reflexivity.
Qed.

Lemma Atoi_of_negative (body : string) (v : Z) :
  body <> "" ->
  digits_value 0 body = Some v -> in_int64 (- v) = true ->
  Atoi ("-" ++ body) = Some (- v).
Proof.
  intros Hne Hv Hr. change ("-" ++ body) with (String "-"%char body).
  unfold Atoi. cbv beta iota.
  destruct body as [| c rest]; [ congruence | ].
  rewrite Hv, Hr. reflexivity.
Qed.

Lemma in_int64_iff (v : Z) :
  in_int64 v = true <-> - 2 ^ 63 <= v <= 2 ^ 63 - 1.
Proof.
  unfold in_int64, minInt64, maxInt64.
  rewrite andb_true_iff, !Z.leb_le. reflexivity.
Qed.

Lemma pow10_20 : 10 ^ Z.of_nat 20 = 100000000000000000000.
Proof. reflexivity. Qed.

(** X17.  itoa prints the decimal numeral of its argument: strconv.Atoi
    reads every result back to the number it came from, for every int but
    the smallest one, whose negation overflows, and for which itoa prints
    a bare minus sign. *)
Theorem X17_itoa_prints_the_decimal_numeral (n : Z) :
  in_int64 n = true ->
  (n <> minInt64 -> Atoi (track.itoa n) = Some n)
  /\ (n = minInt64 -> track.itoa n = "-").
Proof.
  intros Hr. split; [ | intros ->; vm_compute; reflexivity ].
  intros Hmin. pose proof Hr as Hb. apply in_int64_iff in Hb.
  unfold minInt64 in Hmin.
  unfold track.itoa.
  destruct (n =? 0) eqn:Z0; [ apply Z.eqb_eq in Z0; subst; reflexivity | ].
  apply Z.eqb_neq in Z0.
  destruct (n <? 0) eqn:Neg; cbv zeta.
  - apply Z.ltb_lt in Neg.
    assert (W : wrap64 (- n) = - n).
    { unfold wrap64, minInt64. rewrite Z.mod_small; lia. }
    rewrite W.
    assert (B : 0 <= - n < 10 ^ Z.of_nat 20) by (rewrite pow10_20; lia).
    destruct (itoa_digits_spec 20 [] B) as (ds & He & Hl & Hf & Hn).
    rewrite He. cbn [app].
    assert (Hne : string_of_list_ascii (rev ds) <> "").
    { destruct ds as [| d ds]; [ exfalso; apply Hn; [ lia | reflexivity ] | ].
      cbn [rev]. rewrite string_of_app.
      destruct (string_of_list_ascii (rev ds)); discriminate. }
    rewrite (@Atoi_of_negative _ (- n) Hne).
    + f_equal. lia.
    + rewrite (digits_value_rev Hf), Hl. reflexivity.
    + replace (- - n) with n by lia. exact Hr.
  - apply Z.ltb_ge in Neg.
    assert (B : 0 <= n < 10 ^ Z.of_nat 20) by (rewrite pow10_20; lia).
    destruct (itoa_digits_spec 20 [] B) as (ds & He & Hl & Hf & Hn).
    rewrite He. cbn [app].
    assert (Hne : rev ds <> []).
    { intros E. apply (f_equal (@rev ascii)) in E.
      rewrite rev_involutive in E. apply Hn; [ lia | exact E ]. }
    assert (Hfr : Forall (fun d => is_digit d = true) (rev ds))
      by (apply Forall_rev; exact Hf).
    destruct (first_is_digit Hfr Hne) as (c & rest & Hs & Hc).
    apply (@Atoi_of_digits _ c rest n Hs Hc).
    + rewrite (digits_value_rev Hf), Hl. reflexivity.
    + exact Hr.
Qed.

Lemma X17_itoa_prints_the_decimal_numeral_witness :
  in_int64 (-123) = true
  /\ Atoi (track.itoa (-123)) = Some (-123)
  /\ track.itoa (-123) = "-123".
Proof.
  split; [ reflexivity | ].
  split; [ | reflexivity ].
  apply (proj1 (@X17_itoa_prints_the_decimal_numeral (-123) eq_refl)).
  discriminate.
Defined.

Lemma remove_keeps_slug_bytes (s : string) :
  string_forall is_slug_byte (track.remove_non_alphanumeric s) = true.
Proof.
  induction s as [| c s IH]; cbn; [ reflexivity | ].
  destruct (is_slug_byte c) eqn:P; cbn; [ rewrite P | ]; exact IH.
Qed.

Lemma collapse_keeps (p : ascii -> bool) (s : string) :
  string_forall p s = true ->
  string_forall p (track.collapse_hyphens s) = true.
Proof.
  induction s as [| c s IH]; [ reflexivity | ].
  cbn [string_forall]. intros H. apply andb_true_iff in H.
  destruct H as (Hc & Hs). specialize (IH Hs).
  cbn [track.collapse_hyphens].
  destruct (Ascii.eqb c hyphen).
  - destruct s as [| d s]; [ cbn; rewrite Hc; reflexivity | ].
    destruct (Ascii.eqb d hyphen); [ exact IH | ].
    cbn [string_forall]. rewrite Hc. exact IH.
  - cbn [string_forall]. rewrite Hc. exact IH.
Qed.

Lemma collapse_first (s : string) (c : ascii) :
  first_byte (track.collapse_hyphens s) = Some c -> first_byte s = Some c.
Proof.
  induction s as [| a s IH]; [ discriminate | ].
  cbn [track.collapse_hyphens first_byte].
  destruct (Ascii.eqb a hyphen) eqn:A.
  - apply Ascii.eqb_eq in A. subst a.
    destruct s as [| d s]; [ trivial | ].
    destruct (Ascii.eqb d hyphen) eqn:D; [ | trivial ].
    apply Ascii.eqb_eq in D. subst d. intros H. specialize (IH H).
    cbn in IH. congruence.
  - trivial.
Qed.

Lemma collapse_single (s : string) :
  single_hyphens (track.collapse_hyphens s) = true.
Proof.
  induction s as [| c s IH]; [ reflexivity | ].
  cbn [track.collapse_hyphens].
  destruct (Ascii.eqb c hyphen) eqn:C.
  - destruct s as [| d s]; [ cbn; rewrite C; reflexivity | ].
    destruct (Ascii.eqb d hyphen) eqn:D; [ exact IH | ].
    cbn [single_hyphens]. rewrite IH, C.
    destruct (track.collapse_hyphens (String d s)) as [| e r] eqn:E;
      [ reflexivity | ].
    assert (F : first_byte (String d s) = Some e)
      by (apply collapse_first; rewrite E; reflexivity).
    cbn in F. injection F as <-. rewrite D. reflexivity.
  - cbn [single_hyphens]. rewrite C, IH. reflexivity.
Qed.

Lemma single_tail (c : ascii) (s : string) :
  single_hyphens (String c s) = true -> single_hyphens s = true.
Proof.
  cbn [single_hyphens]. intros H. apply andb_true_iff in H. apply H.
Qed.

Lemma trim_left_keeps (p : ascii -> bool) (s : string) (cut : ascii) :
  string_forall p s = true ->
  string_forall p (track.trim_left s cut) = true.
Proof.
  induction s as [| c s IH]; [ reflexivity | ].
  intros H. cbn [track.trim_left].
  destruct (Ascii.eqb c cut); [ | exact H ].
  cbn [string_forall] in H. apply andb_true_iff in H. apply IH, H.
Qed.

Lemma trim_left_single (s : string) (cut : ascii) :
  single_hyphens s = true -> single_hyphens (track.trim_left s cut) = true.
Proof.
  induction s as [| c s IH]; [ reflexivity | ].
  intros H. cbn [track.trim_left].
  destruct (Ascii.eqb c cut); [ | exact H ].
  apply IH, (single_tail _ _ H).
Qed.

Lemma trim_left_first (s : string) (cut : ascii) :
  first_byte (track.trim_left s cut) <> Some cut.
Proof.
  induction s as [| c s IH]; [ discriminate | ].
  cbn [track.trim_left].
  destruct (Ascii.eqb c cut) eqn:C; [ exact IH | ].
  cbn. intros H. injection H as ->. rewrite Ascii.eqb_refl in C.
  discriminate C.
Qed.

(** What trim_right returns: the empty string, or the first byte of its
    argument followed by a trimmed rest. *)
Lemma trim_right_shape (s : string) (cut : ascii) :
  track.trim_right s cut = ""
  \/ exists c rest,
      s = String c rest
      /\ track.trim_right s cut = String c (track.trim_right rest cut)
      /\ (track.trim_right rest cut = "" -> Ascii.eqb c cut = false).
Proof.
  destruct s as [| c rest]; [ left; reflexivity | ].
  cbn [track.trim_right].
  destruct (track.trim_right rest cut) as [| k kept] eqn:K.
  - destruct (Ascii.eqb c cut) eqn:C; [ left; reflexivity | ].
    right. exists c, rest.
    rewrite K.
    split; [ reflexivity | split; [ reflexivity | intros _; exact C ] ].
  - right. exists c, rest. rewrite K.
    split; [ reflexivity | split; [ reflexivity | discriminate ] ].
Qed.

Lemma trim_right_keeps (p : ascii -> bool) (s : string) (cut : ascii) :
  string_forall p s = true ->
  string_forall p (track.trim_right s cut) = true.
Proof.
  induction s as [| c s IH]; [ reflexivity | ].
  cbn [string_forall]. intros H. apply andb_true_iff in H.
  destruct H as (Hc & Hs). specialize (IH Hs).
  destruct (trim_right_shape (String c s) cut)
    as [-> | (c' & r' & E & -> & _)]; [ reflexivity | ].
  injection E as <- <-. cbn [string_forall]. rewrite Hc. exact IH.
Qed.

Lemma trim_right_first (s : string) (cut c : ascii) :
  first_byte (track.trim_right s cut) = Some c -> first_byte s = Some c.
Proof.
  destruct (trim_right_shape s cut) as [-> | (c' & r' & -> & -> & _)];
    [ discriminate | trivial ].
Qed.

Lemma trim_right_single (s : string) (cut : ascii) :
  single_hyphens s = true -> single_hyphens (track.trim_right s cut) = true.
Proof.
  induction s as [| c s IH]; [ reflexivity | ].
  intros H. pose proof (single_tail _ _ H) as Hs. specialize (IH Hs).
  destruct (trim_right_shape (String c s) cut)
    as [-> | (c' & r' & E & -> & _)]; [ reflexivity | ].
  injection E as <- <-.
  cbn [single_hyphens] in *. rewrite IH, andb_true_r.
  apply andb_true_iff in H. destruct H as (H & _).
  destruct (Ascii.eqb c hyphen); [ | reflexivity ].
  destruct (track.trim_right s cut) as [| e r] eqn:E; [ reflexivity | ].
  assert (F : first_byte s = Some e)
    by (apply (@trim_right_first s cut e); rewrite E; reflexivity).
  destruct s as [| d s']; [ discriminate F | ].
  cbn in F. injection F as <-. exact H.
Qed.

Lemma trim_right_last (s : string) (cut : ascii) :
  last_byte (track.trim_right s cut) <> Some cut.
Proof.
  induction s as [| c s IH]; [ discriminate | ].
  destruct (trim_right_shape (String c s) cut)
    as [-> | (c' & r' & E & -> & Hlast)]; [ discriminate | ].
  injection E as <- <-.
  destruct (track.trim_right s cut) as [| e r] eqn:K.
  - cbn. intros H. injection H as ->.
    rewrite Ascii.eqb_refl in Hlast. discriminate (Hlast eq_refl).
  - exact IH.
Qed.

Lemma Slugify_slug_bytes (lower : string -> string) (branch : string) :
  string_forall is_slug_byte (track.Slugify lower branch) = true.
Proof.
  unfold track.Slugify, track.Trim. cbv zeta.
  apply trim_right_keeps, trim_left_keeps, collapse_keeps,
    remove_keeps_slug_bytes.
Qed.

(** X18.  A slug is a safe name whatever the branch is called: it has only
    bytes of [a-zA-Z0-9-], it neither starts nor ends with a hyphen, and it
    has no two hyphens in a row. *)
Theorem X18_slug_is_well_formed (lower : string -> string) (branch : string) :
  let slug := track.Slugify lower branch in
  string_forall is_slug_byte slug = true
  /\ first_byte slug <> Some hyphen
  /\ last_byte slug <> Some hyphen
  /\ single_hyphens slug = true.
Proof.
  unfold track.Slugify, track.Trim. cbv zeta.
  set (raw := ReplaceAll _ _ _).
  split; [ apply trim_right_keeps, trim_left_keeps, collapse_keeps,
           remove_keeps_slug_bytes | ].
  split; [ intros H; apply trim_right_first in H;
           exact (@trim_left_first _ _ H) | ].
  split; [ apply trim_right_last | ].
  apply trim_right_single, trim_left_single, collapse_single.
Qed.

Lemma string_forall_app (p : ascii -> bool) (s1 s2 : string) :
  string_forall p (s1 ++ s2)
  = string_forall p s1 && string_forall p s2.
Proof.
  induction s1 as [| c s1 IH]; [ reflexivity | ].
  change (String c s1 ++ s2) with (String c (s1 ++ s2)).
  cbn [string_forall]. rewrite IH, andb_assoc. reflexivity.
Qed.

Lemma string_forall_substring (p : ascii -> bool) (s : string) (n m : nat) :
  string_forall p s = true -> string_forall p (substring n m s) = true.
Proof.
  revert n m. induction s as [| c s IH]; intros n m H.
  - destruct n, m; reflexivity.
  - cbn [string_forall] in H. apply andb_true_iff in H.
    destruct H as (Hc & Hs).
    destruct n as [| n]; cbn [substring].
    + destruct m as [| m]; [ reflexivity | ].
      cbn [string_forall]. rewrite Hc. apply IH, Hs.
    + apply IH, Hs.
Qed.

Lemma length_append (s1 s2 : string) :
  String.length (s1 ++ s2) = (String.length s1 + String.length s2)%nat.
Proof.
  induction s1 as [| c s1 IH]; [ reflexivity | ].
  change (String c s1 ++ s2) with (String c (s1 ++ s2)).
  cbn [String.length]. rewrite IH. reflexivity.
Qed.

Lemma length_substring_le (s : string) (n m : nat) :
  (String.length (substring n m s) <= m)%nat.
Proof.
  revert n m. induction s as [| c s IH]; intros n m.
  - destruct n, m; cbn; lia.
  - destruct n as [| n]; cbn [substring].
    + destruct m as [| m]; [ cbn; lia | ].
      cbn [String.length]. specialize (IH 0%nat m). lia.
    + apply IH.
Qed.

Lemma prefix_append (s x : string) : prefix s (s ++ x) = true.
Proof.
  induction s as [| c r IH]; [ destruct x; reflexivity | ].
  change (String c r ++ x) with (String c (r ++ x)).
  cbn [prefix]. destruct (ascii_dec c c); [ exact IH | congruence ].
Qed.

Lemma prefix_refl (s : string) : prefix s s = true.
Proof.
  induction s as [| c r IH]; [ reflexivity | ].
  cbn [prefix]. destruct (ascii_dec c c); [ exact IH | congruence ].
Qed.

(** X19.  The directory name of a worktree is a single safe path
    component: when the commit id has only bytes of [a-zA-Z0-9-], as the
    hexadecimal ids of git do, so has the name, and the name is the slug
    of the branch followed by at most eight bytes: a hyphen and the first
    seven bytes of the id.  With no commit id it is the slug alone. *)
Theorem X19_worktree_name_is_one_path_component
        (lower : string -> string) (branch sha : string) :
  string_forall is_slug_byte sha = true ->
  let name := track.GenerateSlug lower branch sha in
  let slug := track.Slugify lower branch in
  string_forall is_slug_byte name = true
  /\ (String.length name <= String.length slug + 8)%nat
  /\ prefix slug name = true
  /\ (sha = "" -> name = slug).
Proof.
  intros Hsha. cbv zeta. unfold track.GenerateSlug. cbv zeta.
  pose proof (Slugify_slug_bytes lower branch) as Hslug.
  set (slug := track.Slugify lower branch) in *.
  set (short := if (7 <? String.length sha)%nat then substring 0 7 sha
                else sha).
  assert (Hshort : string_forall is_slug_byte short = true).
  { unfold short. destruct (7 <? String.length sha)%nat;
      [ apply string_forall_substring | ]; exact Hsha. }
  assert (Hlen : (String.length short <= 7)%nat).
  { unfold short. destruct (7 <? String.length sha)%nat eqn:L.
    - apply length_substring_le.
    - apply Nat.ltb_ge in L. exact L. }
  destruct (short =? "")%string eqn:E.
  - split; [ exact Hslug | ]. split; [ lia | ].
    split; [ apply prefix_refl | reflexivity ].
  - split; [ rewrite !string_forall_app, Hslug, Hshort; reflexivity | ].
    split; [ rewrite !length_append; cbn [String.length]; lia | ].
    split; [ apply prefix_append | ].
    intros ->. unfold short in E. cbn in E. discriminate E.
Qed.

Lemma X19_worktree_name_is_one_path_component_witness :
  string_forall is_slug_byte "a1b2c3d4e5f6" = true
  /\ string_forall is_slug_byte
       (track.GenerateSlug (fun s => s) "feature/foo" "a1b2c3d4e5f6") = true
  /\ track.GenerateSlug (fun s => s) "feature/foo" "a1b2c3d4e5f6"
     = "feature-foo-a1b2c3d".
Proof.
  split; [ reflexivity | ].
  split; [ | reflexivity ].
  exact (proj1 (@X19_worktree_name_is_one_path_component
                  (fun s => s) "feature/foo" "a1b2c3d4e5f6" eq_refl)).
Defined.

Lemma arrow_text_is_no_word (g : GitStatus.t) :
  GitStatus.Clean g = true ->
  (GitStatus.Ahead g = true \/ GitStatus.Behind g = true) ->
  track.GitStatus_String g <> "dirty"
  /\ track.GitStatus_String g <> "clean".
Proof.
  intros Hc Hab. unfold track.GitStatus_String. rewrite Hc.
  destruct (GitStatus.Ahead g), (GitStatus.Behind g);
    [ | | | destruct Hab; discriminate ].
  all: cbv beta iota zeta delta
         [negb andb String.append track.up_arrow track.down_arrow].
  all: split; discriminate.
Qed.

(** X20.  The text of a git status: it reads dirty exactly when the tree
    is not known to be clean, whatever the counts are; it reads clean
    exactly when the tree is clean and the branch is neither ahead nor
    behind; every other status is written with arrows. *)
Theorem X20_git_status_text (g : GitStatus.t) :
  (track.GitStatus_String g = "dirty" <-> GitStatus.Clean g = false)
  /\ (track.GitStatus_String g = "clean"
      <-> GitStatus.Clean g = true
          /\ GitStatus.Ahead g = false /\ GitStatus.Behind g = false).
Proof.
  destruct (GitStatus.Clean g) eqn:Hc.
  - destruct (GitStatus.Ahead g) eqn:Ha.
    + destruct (@arrow_text_is_no_word g Hc (or_introl Ha)) as (N1 & N2).
      split; split; intros H; try congruence; destruct H as (_ & H & _);
        discriminate H.
    + destruct (GitStatus.Behind g) eqn:Hb.
      * destruct (@arrow_text_is_no_word g Hc (or_intror Hb)) as (N1 & N2).
        split; split; intros H; try congruence; destruct H as (_ & _ & H);
          discriminate H.
      * unfold track.GitStatus_String. rewrite Hc, Ha, Hb. cbn.
        split; split; intros H; try discriminate H; auto.
  - unfold track.GitStatus_String. rewrite Hc. cbn.
    split; split; intros H; try discriminate H; try reflexivity.
    destruct H as (H & _). discriminate H.
Qed.

Lemma X20_git_status_text_witness :
  GitStatus.Clean GitStatus.zero = false
  /\ track.GitStatus_String GitStatus.zero = "dirty".
Proof.
  split; [ reflexivity | ].
  exact (proj2 (proj1 (X20_git_status_text GitStatus.zero)) eq_refl).
Defined.

Arguments track.GitStatus_String : simpl never.

Lemma not_dirty_is_clean (g : GitStatus.t) :
  track.GitStatus_String g <> "dirty" -> GitStatus.Clean g = true.
Proof.
  intros H. destruct (GitStatus.Clean g) eqn:Hc; [ reflexivity | ].
  exfalso. apply H. unfold track.GitStatus_String. rewrite Hc. reflexivity.
Qed.

(** X21.  The status Status-Refresh returns reads dirty unless git said
    otherwise: any other text means the dirty check of the working
    directory was answered, without an error, that nothing is
    uncommitted.  A devbox track and a failed check both read dirty. *)
Theorem X21_status_reads_dirty_unless_git_says_clean
        (o : Ops.t) (trk : Track.t) (w : World) (s : State) :
  let '(st, err, s') := ops.RefreshTrackStatus o trk w s in
  let evs := events_since s s' in
  track.GitStatus_String (TrackStatus.GitStatus st) <> "dirty" ->
  Track.Type_ trk = TrackTypeWorktree
  /\ exists rep,
      In (GitIsDirty (ops.status_workDir o trk), rep) evs
      /\ r_err rep = None
      /\ r_bool rep = false.
Proof.
  unfold ops.RefreshTrackStatus, ops.refresh_git_status.
  destruct (Track.Type_ trk =? TrackTypeWorktree)%string eqn:Ty;
    [ apply String.eqb_eq in Ty
    | replace (ops.status_workDir o trk) with ""
        by (unfold ops.status_workDir; rewrite Ty;
            destruct (Track.Type_ trk =? TrackTypeDevbox)%string;
            reflexivity) ].
  all: run_parts.
  all: norm_parts; intros Hd; apply not_dirty_is_clean in Hd.
  all: cbn in Hd; try discriminate Hd.
  all: split; [ assumption | ].
  all: eexists; split; [ find_parts | ].
  all: split; [ assumption | ].
  all: apply negb_true_iff in Hd; exact Hd.
Qed.

Lemma X21_status_reads_dirty_unless_git_says_clean_witness :
  let '(st, err, s') :=
    ops.RefreshTrackStatus demo_ops demo_worktree (world_of quiet)
                           (registry [demo_worktree]) in
  track.GitStatus_String (TrackStatus.GitStatus st) = "clean"
  /\ Track.Type_ demo_worktree = TrackTypeWorktree.
Proof.
  pose proof
    (@X21_status_reads_dirty_unless_git_says_clean
       demo_ops demo_worktree (world_of quiet) (registry [demo_worktree]))
    as H.
  destruct (ops.RefreshTrackStatus _ _ _ _) as [[st err] s'] eqn:E.
  vm_compute in E. injection E as <- <- <-. cbv zeta in H.
  assert (F : track.GitStatus_String
                (GitStatus.mk true false false 0 0) = "clean")
    by reflexivity.
  split; [ exact F | ].
  refine (proj1 (H _)). intros Hx. vm_compute in Hx. discriminate Hx.
Defined.

(** ** Proof tools: running command lines symbolically *)

Lemma Split_nonempty (s : string) (sep : ascii) :
  (0 <? length (Split s sep))%nat = true.
Proof.
  apply Nat.ltb_lt.
  destruct s as [| c rest]; cbn [Split]; [ cbn; lia | ].
  destruct (Ascii.eqb c sep); [ cbn; lia | ].
  destruct (Split rest sep); cbn; lia.
Qed.

Lemma Split_pieces_free (s : string) (sep : ascii) :
  Forall (fun piece => free_of sep piece = true) (Split s sep).
Proof.
  induction s as [| c rest IH]; cbn [Split].
  - constructor; [ reflexivity | constructor ].
  - destruct (Ascii.eqb c sep) eqn:C.
    + constructor; [ reflexivity | exact IH ].
    + destruct (Split rest sep) as [| piece pieces].
      * constructor; [ | constructor ].
        unfold free_of. cbn. rewrite C. reflexivity.
      * inversion IH as [| ? ? Hp Hr]; subst.
        constructor; [ | exact Hr ].
        unfold free_of in *. cbn [string_forall]. rewrite C. exact Hp.
Qed.

Lemma last_piece_free (s : string) (sep : ascii) :
  free_of sep (last_piece (Split s sep)) = true.
Proof.
  unfold last_piece.
  pose proof (Split_pieces_free s sep) as H.
  induction H as [| p l Hp Hl IH]; [ reflexivity | ].
  destruct l as [| q l]; [ exact Hp | exact IH ].
Qed.

Lemma prefix_app_r (sub s q : string) :
  prefix sub s = true -> prefix sub (s ++ q) = true.
Proof.
  revert s. induction sub as [| c sub IH]; intros s H;
    [ destruct (s ++ q); reflexivity | ].
  destruct s as [| d s]; [ discriminate H | ].
  change (String d s ++ q) with (String d (s ++ q)).
  cbn [prefix] in *. destruct (ascii_dec c d); [ apply IH, H | exact H ].
Qed.

Lemma Contains_app_r (s q sub : string) :
  Contains s sub = true -> Contains (s ++ q) sub = true.
Proof.
  induction s as [| c s IH]; intros H.
  - cbn in H. destruct sub; [ destruct q; reflexivity | discriminate H ].
  - change (String c s ++ q) with (String c (s ++ q)).
    cbn [Contains] in *.
    destruct (prefix sub (String c s)) eqn:P.
    + change (String c (s ++ q)) with (String c s ++ q).
      rewrite (prefix_app_r _ _ q P). reflexivity.
    + destruct (prefix sub (String c (s ++ q))); [ reflexivity | ].
      apply IH, H.
Qed.

Lemma Contains_app_l (p s sub : string) :
  Contains s sub = true -> Contains (p ++ s) sub = true.
Proof.
  intros H. induction p as [| c p IH]; [ exact H | ].
  change (String c p ++ s) with (String c (p ++ s)).
  cbn [Contains]. destruct (prefix sub (String c (p ++ s))); [ reflexivity | ].
  exact IH.
Qed.

Arguments ask2 : simpl never.
Arguments ask_exec : simpl never.
Arguments Join : simpl never.
Arguments Split : simpl never.
Arguments last_piece : simpl never.
Arguments Contains : simpl never.
Arguments Atoi : simpl never.
Arguments bind2 {A B} m k w s /.
Arguments ret2 {A} a w s /.
Arguments log2 ev w s /.
Arguments call2 c w s /.
Arguments run_cmd c w s /.
Arguments pure2 {A} f w s /.
Arguments get_rows2 w s /.
Arguments lift {A} m w s /.

#[local] Hint Unfold runner_Run runner_Exec
  git_go.runGit git_go.only_err git_go.Fetch git_go.GetDefaultBranch
  git_go.CreateBranch git_go.WorktreeAdd git_go.WorktreeRemove
  git_go.WorktreePrune git_go.Rebase git_go.RebaseAbort
  git_go.RebaseContinue git_go.Push git_go.PushForce git_go.PushDelete
  git_go.AheadBehind git_go.GetHeadSHA git_go.GetBranchSHA git_go.IsDirty
  git_go.Checkout git_go.Pull git_go.GetCurrentBranch
  tmux.run tmux.only_err tmux.SessionExists tmux.CreateSession
  tmux.WindowExists tmux.CreateWindow tmux.SwitchToWindow
  tmux.AttachSession tmux.IsInsideTmux tmux.RunInWindow tmux.SelectWindow
  tmux.KillWindow tmux.KillSession tmux.ListSessions tmux.ListWindows
  github_go.runGH github_go.GetDefaultBranch github_go.GetCurrentUser
  github_go.ListMyPRs github_go.CreatePR github_go.GetPRForBranch
  devbox_go.run devbox_go.Create devbox_go.Delete devbox_go.List
  devbox_go.Exists devbox_go.SSH devbox_go.GetSSHCommand
  devbox_go.GetStatus : engine.

Lemma ask2_eq (c : Call2) (w : World2) (s : State2) :
  ask2 c w s = (respond2 w (journal s) c, s).
Proof. reflexivity. Qed.

Lemma ask_exec_eq (c : Cmd) (w : World2) (s : State2) :
  ask_exec c w s = (exec w (journal s) c, s).
Proof. reflexivity. Qed.

Lemma skipn_app_le (A : Type) (n : nat) (l1 l2 : list A) :
  (n <= length l1)%nat -> skipn n (l1 ++ l2) = (skipn n l1 ++ l2)%list.
Proof.
  intros H. rewrite skipn_app.
  replace (n - length l1)%nat with 0%nat by lia. reflexivity.
Qed.

Ltac atomic2 x :=
  lazymatch x with
  | context [ask] => fail
  | context [ask2] => fail
  | context [ask_exec] => fail
  | context [@bind] => fail
  | context [@bind2] => fail
  | context [call] => fail
  | context [respond] => fail
  | context [respond2] => fail
  | context [exec] => fail
  | context [match _ with _ => _ end] => fail
  | _ => idtac
  end.

Ltac step2_core :=
  match goal with
  | |- context [ask ?c ?w ?s] =>
      rewrite (ask_eq c w s);
      let r := fresh "rep" in
      generalize (respond w (trace s) c); intro r
  | |- context [ask2 ?c ?w ?s] =>
      rewrite (ask2_eq c w s);
      let r := fresh "rep" in
      generalize (respond2 w (journal s) c); intro r
  | |- context [ask_exec ?c ?w ?s] =>
      rewrite (ask_exec_eq c w s);
      let x := fresh "ex" in
      generalize (exec w (journal s) c); intro x
  | |- context [match r_err ?r with _ => _ end] => destruct (r_err r) eqn:?
  | |- context [match run_err ?r with _ => _ end] =>
      destruct (run_err r) eqn:?
  | |- context [match ?x with _ => _ end] => atomic2 x; destruct x eqn:?
  end.

Ltac step2 := step2_core; msimpl.

Ltac run2 := msimpl; repeat step2.

Ltac norm_journal :=
  unfold journal_since, events_since;
  cbn [journal core trace rows record];
  repeat (rewrite skipn_app_le
           by (rewrite ?length_app; cbn [length]; lia));
  rewrite ?skipn_all; cbn [app map].

Lemma journal_since_eq (s s' : State2) (r : Journal) :
  journal s' = (journal s ++ r)%list -> journal_since s s' = r.
Proof.
  intros H. unfold journal_since. rewrite H, skipn_app, Nat.sub_diag, skipn_all.
  reflexivity.
Qed.

Lemma snoc_step (A : Type) (J l r a : list A) :
  l = (J ++ r)%list -> (l ++ a)%list = (J ++ (r ++ a))%list.
Proof. intros ->. symmetry. apply app_assoc. Qed.

(** After a run left [E : (results, final state) = (res, s')]: replace the
    journal of the run by the list of its events. *)
Ltac close_run E :=
  let Hs := fresh "Hs" in
  let Hj := fresh "Hj" in
  lazymatch type of E with
  | (_, _, _, _) = _ => injection E as <- <- <- Hs
  | (_, _, _) = _ => injection E as <- <- Hs
  | (_, _) = _ => injection E as <- Hs
  end;
  match goal with
  | |- context [journal_since ?s ?s'] =>
      eassert (Hj : journal_since s s' = _)
        by (apply journal_since_eq; rewrite <- Hs; cbn [journal];
            repeat apply snoc_step; symmetry; apply app_nil_r);
      unfold events_since in Hj; cbn [trace rows record app map] in Hj;
      repeat (rewrite skipn_app_le in Hj
               by (rewrite ?length_app; cbn [length]; lia));
      rewrite ?skipn_all in Hj; cbn [app map] in Hj;
      rewrite <- ?app_assoc in Hj; cbn [app] in Hj;
      rewrite ?Hj; clear Hj Hs
  end.

(** ** package git, at the command line *)

(** X22.  Detection of the default branch runs at most three commands,
    all of them queries of git in the repository.  It fails only when all
    three fail.  The name it returns never contains a slash: when the
    symbolic-ref query succeeds the name is what follows the last slash
    of its output, so a default branch called release/2.0 is reported as
    2.0, and the two fallbacks are not tried. *)
Theorem X22_default_branch_is_the_last_path_piece
        (repoPath : string) (w : World2) (s : State2) :
  let '(name, err, s') := git_go.GetDefaultBranch repoPath w s in
  let j := journal_since s s' in
  Forall (fun c => git_query repoPath c = true) (commands j)
  /\ (length (commands j) <= 3)%nat
  /\ (err = None -> free_of "/" name = true)
  /\ (forall e, err = Some e ->
        e = "could not determine default branch" /\ name = ""
        /\ length (commands j) = 3%nat
        /\ forall c x, In (Proc c x) j -> run_err x <> None)
  /\ (forall x,
        In (Proc (mkCmd repoPath "git"
                        ["symbolic-ref"; "refs/remotes/origin/HEAD"] false) x)
           j ->
        run_err x = None ->
        err = None
        /\ name = last_piece (Split (TrimSpace w (stdout x)) "/")
        /\ length (commands j) = 1%nat).
Proof.
  run2.
  all: try match goal with
       | H : length (Split ?a ?b) = 0%nat |- _ =>
           pose proof (Split_nonempty a b) as N; rewrite H in N;
           discriminate N
       end.
  all: norm_journal.
  all: cbn [commands length].
  all: split;
    [ repeat (constructor;
              [ unfold git_query; cbn; rewrite String.eqb_refl; reflexivity
              | ]); constructor | ].
  all: split; [ lia | ].
  all: split; [ intros He; try discriminate He;
                first [ reflexivity | apply last_piece_free ] | ].
  all: split;
    [ intros e He;
      first [ discriminate He
            | injection He as <-;
              repeat (split; [ reflexivity | ]);
              intros c x Hin; cbn [In] in Hin;
              repeat (destruct Hin as [Hin | Hin];
                      [ injection Hin as <- <-; congruence | ]);
              contradiction Hin ] | ].
  all: intros x Hin Hx; cbn [In] in Hin.
  all: repeat (destruct Hin as [Hin | Hin];
               [ first [ discriminate Hin
                       | injection Hin as <-; try congruence ] | ]);
         try contradiction Hin.
  all: repeat split; reflexivity.
Qed.

Lemma X22_default_branch_is_the_last_path_piece_witness :
  let '(name, err, s') :=
    git_go.GetDefaultBranch "/repo" (world2_of quiet (fun _ _ => ok) release_repo)
                            (registry2 []) in
  err = None /\ name = "2.0".
Proof.
  pose proof
    (@X22_default_branch_is_the_last_path_piece
       "/repo" (world2_of quiet (fun _ _ => ok) release_repo) (registry2 []))
    as H.
  destruct (git_go.GetDefaultBranch _ _ _) as [[name err] s'] eqn:E.
  vm_compute in E. injection E as <- <- <-. cbv zeta in H.
  destruct H as (_ & _ & _ & _ & H).
  destruct (H (exit_ok "refs/remotes/origin/release/2.0")
              ltac:(vm_compute; left; reflexivity) eq_refl) as (He & Hn & _).
  split; [ exact He | reflexivity ].
Defined.

(** X23.  Rebase reports a conflict or an error, never both.  A failed
    rebase counts as a conflict as soon as its error text mentions the
    word, in capitals or not, and then no second command is run; the text
    is made of the command line, the error and stderr, so the name of the
    branch rebased onto counts as well as the output of git.  A rebase
    that succeeds reports neither. *)
Theorem X23_rebase_conflict_detection
        (repoPath ontoBranch : string) (w : World2) (s : State2) :
  let '(conflicts, err, s') := git_go.Rebase repoPath ontoBranch w s in
  let j := journal_since s s' in
  (conflicts = true -> err = None)
  /\ exists x rest,
      j = Proc (mkCmd repoPath "git" ["rebase"; ontoBranch] false) x :: rest
      /\ (run_err x = None ->
          conflicts = false /\ err = None /\ rest = [])
      /\ (run_err x <> None ->
          Contains (stderr x) "CONFLICT" = true
          \/ Contains (stderr x) "conflict" = true
          \/ Contains ontoBranch "conflict" = true ->
          conflicts = true /\ err = None /\ rest = []).
Proof.
  run2.
  all: norm_journal.
  all: split; [ intros Hc; first [ reflexivity | discriminate Hc ] | ].
  all: do 2 eexists; split; [ reflexivity | ].
  all: split; [ intros Hx; first [ congruence | repeat split; reflexivity ]
              | intros Hx Hw; try congruence ].
  all: try (repeat split; reflexivity).
  all: exfalso.
  all: match goal with
       | H : Contains ?t "CONFLICT" || Contains ?t "conflict" = false |- _ =>
           apply orb_false_iff in H; destruct H as (H1 & H2);
           destruct Hw as [Hw | [Hw | Hw]]
       end.
  all: match goal with
       | H : Contains ?t ?word = false, Hw : Contains _ ?word = true |- _ =>
           enough (Contains t word = true) by congruence
       end.
  all: unfold Join; cbn [concat].
  all: repeat first [ exact Hw
                    | apply Contains_app_r; exact Hw
                    | apply Contains_app_l ].
Qed.

Lemma X23_rebase_conflict_detection_witness :
  let w := world2_of quiet (fun _ _ => ok)
             (fun _ _ => exit_failed "exit status 1"
                                     "CONFLICT (content): Merge conflict in a.go") in
  let '(conflicts, err, s') :=
    git_go.Rebase "/repo" "origin/main" w (registry2 []) in
  conflicts = true /\ err = None.
Proof.
  cbv zeta.
  pose proof
    (@X23_rebase_conflict_detection
       "/repo" "origin/main"
       (world2_of quiet (fun _ _ => ok)
          (fun _ _ => exit_failed "exit status 1"
                                  "CONFLICT (content): Merge conflict in a.go"))
       (registry2 [])) as H.
  destruct (git_go.Rebase _ _ _ _) as [[conflicts err] s'] eqn:E.
  vm_compute in E. injection E as <- <- <-. cbv zeta in H.
  destruct H as (_ & x & rest & Hj & _ & Hf).
  vm_compute in Hj. injection Hj as <- <-.
  destruct (Hf ltac:(discriminate) ltac:(left; reflexivity)) as (Hc & He & _).
  split; [ exact Hc | exact He ].
Defined.

(** ** Listing the registry *)

Lemma insert_row_perm (text : string -> Track.t -> string) (x : Track.t)
      (l : list Track.t) :
  Permutation (x :: l) (db.insert_row text x l).
Proof.
  induction l as [| y l IH]; cbn [db.insert_row]; [ reflexivity | ].
  destruct (db.sorts_before text x y); [ reflexivity | ].
  rewrite perm_swap. apply perm_skip, IH.
Qed.

Lemma order_rows_perm (text : string -> Track.t -> string)
      (tbl : list Track.t) :
  Permutation (db.order_rows text tbl) tbl.
Proof.
  induction tbl as [| x tbl IH]; cbn; [ reflexivity | ].
  rewrite <- (insert_row_perm text x). apply perm_skip, IH.
Qed.

Lemma string_ltb_irrefl (x : string) : (x <? x)%string = false.
Proof.
  unfold String.ltb.
  pose proof (String.compare_antisym x x) as H.
  destruct (x ?= x)%string; try reflexivity; discriminate H.
Qed.

(** Where the texts compare like the instants, the comparison of the
    ORDER BY clause says which row was accessed no earlier. *)
Lemma sorts_before_instants (text : string -> Track.t -> string)
      (tbl : list Track.t) (a b : Track.t) :
  texts_follow_instants text tbl -> In a tbl -> In b tbl ->
  if db.sorts_before text a b then accessed_no_earlier a b
  else accessed_no_earlier b a.
Proof.
  intros Hf Ha Hb. unfold db.sorts_before, accessed_no_earlier.
  destruct (Track.LastAccessed a) as [x |] eqn:La,
    (Track.LastAccessed b) as [y |] eqn:Lb; try exact I.
  - pose proof (Hf b a y x Hb Ha Lb La) as Hba.
    pose proof (Hf a b x y Ha Hb La Lb) as Hab.
    cbv zeta.
    destruct (text "last_accessed" b <? text "last_accessed" a)%string;
      cbn [orb].
    + symmetry in Hba. apply Z.ltb_lt in Hba. lia.
    + symmetry in Hba. apply Z.ltb_ge in Hba.
      destruct (text "last_accessed" a =? text "last_accessed" b)%string
        eqn:E; cbn [andb]; [ | exact Hba ].
      apply String.eqb_eq in E. rewrite E, string_ltb_irrefl in Hab.
      symmetry in Hab. apply Z.ltb_ge in Hab.
      destruct (_ <=? _)%string; [ exact Hab | exact Hba ].
  - destruct (_ <=? _)%string; exact I.
Qed.

Lemma accessed_no_earlier_trans (a b c : Track.t) :
  accessed_no_earlier a b -> accessed_no_earlier b c ->
  accessed_no_earlier a c.
Proof.
  unfold accessed_no_earlier.
  destruct (Track.LastAccessed a), (Track.LastAccessed b),
    (Track.LastAccessed c); try tauto; lia.
Qed.

Lemma insert_row_sorted (text : string -> Track.t -> string)
      (tbl : list Track.t) (x : Track.t) (l : list Track.t) :
  texts_follow_instants text tbl -> In x tbl -> incl l tbl ->
  StronglySorted accessed_no_earlier l ->
  StronglySorted accessed_no_earlier (db.insert_row text x l).
Proof.
  intros Hf Hx Hl Hs. induction Hs as [| y l Hs IH Hy]; cbn [db.insert_row].
  - constructor; constructor.
  - assert (Iy : In y tbl) by (apply Hl; left; reflexivity).
    assert (Il : incl l tbl) by (intros z Hz; apply Hl; right; exact Hz).
    pose proof (@sorts_before_instants text tbl x y Hf Hx Iy) as B.
    destruct (db.sorts_before text x y).
    + constructor; [ constructor; assumption | ].
      constructor; [ exact B | ].
      eapply Forall_impl; [ | exact Hy ].
      intros z Hz. exact (accessed_no_earlier_trans _ _ _ B Hz).
    + constructor; [ exact (IH Il) | ].
      apply (Permutation_Forall (insert_row_perm text x l)).
      constructor; [ exact B | exact Hy ].
Qed.

Lemma order_rows_sorted (text : string -> Track.t -> string)
      (tbl sub : list Track.t) :
  texts_follow_instants text tbl -> incl sub tbl ->
  StronglySorted accessed_no_earlier (db.order_rows text sub).
Proof.
  intros Hf. induction sub as [| x sub IH]; intros Hi; cbn;
    [ constructor | ].
  apply (@insert_row_sorted text tbl); [ exact Hf | | | ].
  - apply Hi. left. reflexivity.
  - intros z Hz. apply Hi. right.
    exact (Permutation_in z (order_rows_perm text sub) Hz).
  - apply IH. intros z Hz. apply Hi. right. exact Hz.
Qed.

Lemma scan_rows_spec (pending : list Track.t) :
  forall (tracks : list Track.t) (w : World2) (s : State2),
    let '(res, err, s') := db.scan_rows pending tracks w s in
    core s' = core s
    /\ match err with
       | None => res = (tracks ++ pending)%list
       | Some _ => res = []
       end.
Proof.
  induction pending as [| row rest IH]; intros tracks w s.
  - cbn [db.scan_rows]. run2; rewrite ?app_nil_r; split; reflexivity.
  - cbn [db.scan_rows]. unfold db.scanTrackRow. run2.
    all: try (split; reflexivity).
    all: match goal with
         | H : db.scan_rows ?l ?t ?ww ?st = _ |- _ =>
             specialize (IH t ww st); rewrite H in IH
         end.
    all: cbn [core] in IH; rewrite <- ?app_assoc in IH; exact IH.
Qed.

Lemma ListTracks_spec (w : World2) (s : State2) :
  let '(res, err, s') := db.ListTracks w s in
  core s' = core s
  /\ match err with
     | None => res = db.order_rows (column_text (inner w)) (rows (core s))
     | Some _ => res = []
     end.
Proof.
  unfold db.ListTracks. run2.
  all: try (split; reflexivity).
  all: match goal with
       | H : db.scan_rows ?l ?t ?ww ?st = _ |- _ =>
           pose proof (scan_rows_spec l t ww st) as IH; rewrite H in IH
       end.
  all: exact IH.
Qed.

(** X24.  Listing the tracks is a read: the registry is left as it was.
    When the listing succeeds it holds every row of the table exactly
    once.  The order is that of the stored texts of the timestamps, and
    this is the order of the instants where the two agree, as they do
    when every row was written under one zone offset: then the tracks
    accessed most recently come first and the tracks never accessed
    last.  When the listing fails no row is returned. *)
Theorem X24_list_is_the_sorted_table (w : World2) (s : State2) :
  let '(tracks, err, s') := db.ListTracks w s in
  core s' = core s
  /\ (err = None ->
      Permutation tracks (rows (core s))
      /\ (texts_follow_instants (column_text (inner w)) (rows (core s)) ->
          StronglySorted accessed_no_earlier tracks))
  /\ (err <> None -> tracks = []).
Proof.
  pose proof (ListTracks_spec w s) as H.
  destruct (db.ListTracks w s) as [[tracks err] s'].
  destruct H as (Hc & Hr). split; [ exact Hc | ].
  destruct err as [e |]; subst tracks.
  - split; [ discriminate | reflexivity ].
  - split; [ intros _ | congruence ].
    split; [ apply order_rows_perm | ].
    intros Hf. apply (@order_rows_sorted _ (rows (core s))); [ exact Hf | ].
    intros z Hz. exact Hz.
Qed.

Lemma X24_list_is_the_sorted_table_witness :
  let '(tracks, err, s') :=
    db.ListTracks calm (registry2 [stale_track; fresh_track]) in
  err = None
  /\ texts_follow_instants (column_text (inner calm))
                           [stale_track; fresh_track]
  /\ tracks = [fresh_track; stale_track]
  /\ StronglySorted accessed_no_earlier tracks.
Proof.
  pose proof
    (X24_list_is_the_sorted_table
       calm (registry2 [stale_track; fresh_track])) as H.
  destruct (db.ListTracks _ _) as [[tracks err] s'] eqn:E.
  vm_compute in E. injection E as <- <- <-.
  assert (F : texts_follow_instants (column_text (inner calm))
                                    [stale_track; fresh_track]).
  { intros a b x y Ha Hb La Lb.
    destruct Ha as [<- | [<- | []]], Hb as [<- | [<- | []]];
      cbn in La, Lb; inversion La; inversion Lb; subst;
      vm_compute; reflexivity. }
  split; [ reflexivity | ]. split; [ exact F | ].
  split; [ reflexivity | ].
  exact (proj2 (proj1 (proj2 H) eq_refl) F).
Defined.

(** Where the texts do not compare like the instants the listing follows
    the texts: of two rows written under different zone offsets, the one
    accessed an hour earlier is listed first. *)
Lemma listing_follows_the_stored_text :
  fst (db.ListTracks two_zones (registry2 [fresh_track; current_track]))
  = ([fresh_track; current_track], None)
  /\ ~ accessed_no_earlier fresh_track current_track.
Proof.
  split; [ vm_compute; reflexivity | ].
  vm_compute. intros H. apply H. reflexivity.
Qed.

Lemma refresh_each_tracks (o : Ops.t) (tracks : list Track.t) :
  forall (result : list TrackWithStatus.t) (w : World2) (s : State2),
    map TrackWithStatus.Track (fst (ops.refresh_each o tracks result w s))
    = (map TrackWithStatus.Track result ++ tracks)%list.
Proof.
  induction tracks as [| trk rest IH]; intros result w s.
  - cbn. rewrite app_nil_r. reflexivity.
  - cbn [ops.refresh_each bind2 lift].
    destruct (ops.RefreshTrackStatus o trk (inner w) (core s))
      as [[st e] c].
    rewrite IH, map_app, <- app_assoc. reflexivity.
Qed.

(** X25.  The list with status has one entry per track the listing
    returned, in the order of the listing: the attempt to refresh a track
    never removes it from the list nor fails the list.  The call fails
    only when the listing itself fails, and then before any track was
    looked at. *)
Theorem X25_status_list_follows_the_listing
        (o : Ops.t) (w : World2) (s : State2) :
  let '(result, err, s') := ops.ListTracksWithStatus o w s in
  (err = None ->
   db.ListTracks w s
   = (map TrackWithStatus.Track result, None, snd (db.ListTracks w s)))
  /\ (forall e, err = Some e ->
        result = [] /\ core s' = core s
        /\ exists x,
            e = "failed to list tracks: " ++ x
            /\ snd (fst (db.ListTracks w s)) = Some x).
Proof.
  unfold ops.ListTracksWithStatus. cbn [bind2].
  destruct (db.ListTracks w s) as [[tracks lerr] s1] eqn:L.
  pose proof (ListTracks_spec w s) as H. rewrite L in H.
  destruct H as (Hc & Hr).
  destruct lerr as [x |]; cbn.
  - split; [ discriminate | ].
    intros e He. injection He as <-.
    split; [ reflexivity | ]. split; [ exact Hc | ].
    exists x. split; reflexivity.
  - pose proof (refresh_each_tracks o tracks [] w s1) as Ht.
    destruct (ops.refresh_each o tracks [] w s1) as [result s2].
    cbn in *. split; [ intros _; rewrite Ht; reflexivity | discriminate ].
Qed.

Lemma X25_status_list_follows_the_listing_witness :
  let st := registry2 [stale_track; fresh_track] in
  let '(result, err, s') := ops.ListTracksWithStatus demo_ops calm st in
  err = None
  /\ db.ListTracks calm st
     = (map TrackWithStatus.Track result, None, snd (db.ListTracks calm st))
  /\ map TrackWithStatus.Track result = [fresh_track; stale_track].
Proof.
  cbv zeta.
  pose proof
    (X25_status_list_follows_the_listing
       demo_ops calm (registry2 [stale_track; fresh_track])) as H.
  destruct (ops.ListTracksWithStatus _ _ _) as [[result err] s'] eqn:E.
  vm_compute in E. injection E as <- <- <-.
  split; [ reflexivity | ].
  split; [ exact (proj1 H eq_refl) | reflexivity ].
Defined.
(** ** Jump and Run-AI *)

(** X26.  Jumping to a branch the registry does not know, or running the
    assistant on it, stops at the lookup: the error names the branch, no
    command is started and nothing is written. *)
Theorem X26_unknown_branch_starts_no_command
        (o : Ops.t) (branch : string) (w : World2) (s : State2) :
  not_tracked o branch (inner w) (core s) ->
  (let '(err, s') := ops.JumpToTrack o branch w s in
   err = Some ("track not found for branch: " ++ branch)
   /\ (exists rep,
          journal_since s s'
          = [Core (SqlQueryRow (ops.remote_of o) branch, rep)])
   /\ rows (core s') = rows (core s))
  /\
  (let '(err, s') := ops.RunAI o branch w s in
   err = Some ("track not found for branch: " ++ branch)
   /\ (exists rep,
          journal_since s s'
          = [Core (SqlQueryRow (ops.remote_of o) branch, rep)])
   /\ rows (core s') = rows (core s)).
Proof.
  intros H. unfold not_tracked in H.
  split.
  - unfold ops.JumpToTrack. cbn [bind2 lift].
    rewrite (GetTrack_run _ _ _ _ H). cbn.
    repeat split. eexists. norm_journal. reflexivity.
  - unfold ops.RunAI. cbn [bind2 lift].
    rewrite (GetTrack_run _ _ _ _ H). cbn.
    repeat split. eexists. norm_journal. reflexivity.
Qed.

Lemma X26_unknown_branch_starts_no_command_witness :
  let '(err, s') := ops.JumpToTrack demo_ops "feature/bar" calm
                                    (registry2 [demo_worktree]) in
  not_tracked demo_ops "feature/bar" (inner calm)
              (core (registry2 [demo_worktree]))
  /\ err = Some "track not found for branch: feature/bar".
Proof.
  pose proof
    (@X26_unknown_branch_starts_no_command
       demo_ops "feature/bar" calm (registry2 [demo_worktree]) eq_refl) as H.
  destruct H as (H & _).
  destruct (ops.JumpToTrack _ _ _ _) as [err s'].
  split; [ reflexivity | exact (proj1 H) ].
Defined.

(** X27.  The assistant is refused for a devbox track, and for a worktree
    track whose row has no path, before anything else happens: the lookup
    is the only event, so last_accessed is not touched and no command is
    started. *)
Theorem X27_assistant_refused_before_any_effect
        (o : Ops.t) (branch : string) (trk : Track.t)
        (w : World2) (s : State2) :
  resolves o branch trk (inner w) (core s) ->
  Track.Type_ trk = TrackTypeDevbox
  \/ (Track.Type_ trk = TrackTypeWorktree /\ Track.Path trk = None) ->
  let '(err, s') := ops.RunAI o branch w s in
  err = Some (if (Track.Type_ trk =? TrackTypeDevbox)%string
              then "AI assistant is not supported for devbox tracks"
              else "worktree track has no path")
  /\ (exists rep,
         journal_since s s'
         = [Core (SqlQueryRow (ops.remote_of o) branch, rep)])
  /\ rows (core s') = rows (core s).
Proof.
  intros Hres Hk. unfold ops.RunAI. cbn [bind2 lift].
  rewrite (resolves_run Hres).
  destruct Hk as [Hd | (Hw & Hp)]; [ rewrite Hd | rewrite Hw, Hp ]; cbn.
  all: repeat split; eexists; norm_journal; reflexivity.
Qed.

Lemma X27_assistant_refused_before_any_effect_witness :
  let '(err, s') := ops.RunAI demo_ops "feature/foo" calm
                              (registry2 [demo_devbox]) in
  err = Some "AI assistant is not supported for devbox tracks"
  /\ rows (core s') = [demo_devbox].
Proof.
  pose proof
    (@X27_assistant_refused_before_any_effect
       demo_ops "feature/foo" demo_devbox calm (registry2 [demo_devbox])
       eq_refl (or_introl eq_refl)) as H.
  destruct (ops.RunAI _ _ _ _) as [err s'].
  destruct H as (He & _ & Hr).
  split; [ exact He | exact Hr ].
Defined.

Lemma commands_Core (l : Trace) (rest : Journal) :
  commands (map Core l ++ rest)%list = commands rest.
Proof. induction l as [| ev l IH]; [ reflexivity | exact IH ]. Qed.

Lemma In_Proc_Core (c : Cmd) (x : Exit) (l : Trace) (rest : Journal) :
  In (Proc c x) (map Core l ++ rest)%list -> In (Proc c x) rest.
Proof.
  induction l as [| ev l IH]; [ trivial | ].
  cbn. intros [H | H]; [ discriminate H | exact (IH H) ].
Qed.

Lemma forallb_Forall (A : Type) (f : A -> bool) (l : list A) :
  forallb f l = true -> Forall (fun a => f a = true) l.
Proof.
  intros H. apply Forall_forall. apply forallb_forall. exact H.
Qed.

(** The tmux commands of a jump whose answer is only passed on: each is
    one command line, whatever tmux answers. *)
Lemma only_err_run (args : list string) (w : World2) (s : State2) :
  exists x e,
    tmux.only_err (tmux.run args) w s
    = (e, mkState2 (core s)
                   (journal s ++ [Proc (mkCmd "" "tmux" args false) x])%list).
Proof. run2; do 2 eexists; reflexivity. Qed.

Lemma CreateSession_run (name : string) (w : World2) (s : State2) :
  exists x e,
    tmux.CreateSession name w s
    = (e, mkState2 (core s)
            (journal s
             ++ [Proc (mkCmd "" "tmux" ["new-session"; "-d"; "-s"; name]
                             false) x])%list).
Proof. apply only_err_run. Qed.

Lemma CreateWindow_run (session windowName startDir : string)
      (w : World2) (s : State2) :
  exists x e rest,
    tmux.CreateWindow session windowName startDir w s
    = (e, mkState2 (core s)
            (journal s
             ++ [Proc (mkCmd "" "tmux" ("new-window" :: rest) false) x])%list).
Proof.
  unfold tmux.CreateWindow.
  destruct (negb (startDir =? "")%string);
    (match goal with
     | |- context [tmux.only_err (tmux.run ?a) w s] =>
         destruct (only_err_run a w s) as (x & e & ->)
     end; do 3 eexists; reflexivity).
Qed.

Lemma SwitchToWindow_run (session windowName : string)
      (w : World2) (s : State2) :
  exists x e,
    tmux.SwitchToWindow session windowName w s
    = (e, mkState2 (core s)
            (journal s
             ++ [Proc (mkCmd "" "tmux"
                             ["switch-client"; "-t";
                              (session ++ ":" ++ windowName)%string] false) x])%list).
Proof. apply only_err_run. Qed.

Lemma SelectWindow_run (session windowName : string)
      (w : World2) (s : State2) :
  exists x e,
    tmux.SelectWindow session windowName w s
    = (e, mkState2 (core s)
            (journal s
             ++ [Proc (mkCmd "" "tmux"
                             ["select-window"; "-t";
                              (session ++ ":" ++ windowName)%string] false) x])%list).
Proof. apply only_err_run. Qed.

Lemma RunInWindow_run (session windowName command : string)
      (w : World2) (s : State2) :
  exists x e,
    tmux.RunInWindow session windowName command w s
    = (e, mkState2 (core s)
            (journal s
             ++ [Proc (mkCmd "" "tmux"
                             ["send-keys"; "-t";
                              (session ++ ":" ++ windowName)%string; command; "Enter"]
                             false) x])%list).
Proof. apply only_err_run. Qed.

Arguments tmux.CreateSession : simpl never.
Arguments tmux.CreateWindow : simpl never.
Arguments tmux.SwitchToWindow : simpl never.
Arguments tmux.SelectWindow : simpl never.
Arguments tmux.RunInWindow : simpl never.

Create HintDb jump.

#[local] Hint Unfold runner_Run runner_Exec tmux.run tmux.SessionExists
  tmux.WindowExists tmux.AttachSession tmux.IsInsideTmux
  devbox_go.run devbox_go.GetSSHCommand : jump.

(** A run of the jump: a command whose answer is only passed on is taken
    as one step. *)
Ltac skip_command :=
  match goal with
  | |- context [tmux.CreateSession ?a ?w ?s] =>
      destruct (CreateSession_run a w s) as (? & ? & ->)
  | |- context [tmux.CreateWindow ?a ?b ?c ?w ?s] =>
      destruct (CreateWindow_run a b c w s) as (? & ? & ? & ->)
  | |- context [tmux.SwitchToWindow ?a ?b ?w ?s] =>
      destruct (SwitchToWindow_run a b w s) as (? & ? & ->)
  | |- context [tmux.SelectWindow ?a ?b ?w ?s] =>
      destruct (SelectWindow_run a b w s) as (? & ? & ->)
  | |- context [tmux.RunInWindow ?a ?b ?c ?w ?s] =>
      destruct (RunInWindow_run a b c w s) as (? & ? & ->)
  end.

Ltac simpl_jump := repeat (progress (autounfold with jump; cbn)).

Ltac run_jump :=
  simpl_jump; repeat (first [ skip_command | step2_core ]; simpl_jump).

(** X28.  Jumping to a tracked branch always asks tmux for the session
    first.  When the list of windows already has the name of the branch,
    no window is opened and every command of the run is a tmux command:
    the window is reused.  For a worktree track every command is a tmux
    command in any case. *)
Theorem X28_jump_reuses_an_open_window
        (o : Ops.t) (branch : string) (trk : Track.t)
        (w : World2) (s : State2) :
  resolves o branch trk (inner w) (core s) ->
  let '(err, s') := ops.JumpToTrack o branch w s in
  let j := journal_since s s' in
  (exists rest,
      commands j
      = mkCmd "" "tmux" ["has-session"; "-t"; "trak"] false :: rest)
  /\ (forall x,
        In (Proc (list_windows "trak") x) j ->
        run_err x = None ->
        existsb (fun n => (n =? SanitizeForTmux w branch)%string)
                (Split (TrimSpace w (stdout x)) (ascii_of_nat 10)) = true ->
        Forall (fun c => is_tmux c && negb (is_new_window c) = true)
               (commands j))
  /\ (Track.Type_ trk = TrackTypeWorktree ->
      Forall (fun c => is_tmux c = true) (commands j)).
Proof.
  intros Hres.
  destruct (ops.JumpToTrack o branch w s) as [err s'] eqn:E. revert E.
  unfold ops.JumpToTrack. cbn [bind2 lift].
  rewrite (resolves_run Hres). cbn [bind2 lift].
  match goal with
  | |- context [db.UpdateLastAccessed ?a ?b ?c ?d] =>
      destruct (db.UpdateLastAccessed a b c d) as [e2 c2] eqn:U
  end.
  clear U. run_jump.
  all: intros E; close_run E.
  all: cbn [commands]; rewrite ?commands_Core; cbn [commands].
  all: split; [ eexists; reflexivity | ].
  all: split;
    [ intros y Hin Hy Hw; cbn [In] in Hin;
      (destruct Hin as [Hin | Hin]; [ discriminate Hin | ]);
      apply In_Proc_Core in Hin; cbn [In] in Hin;
      repeat (destruct Hin as [Hin | Hin];
              [ first [ discriminate Hin
                      | injection Hin as <-; try congruence ] | ]);
      try contradiction Hin;
      try match goal with
          | H : negb (existsb _ _) = true |- _ =>
              rewrite Hw in H; discriminate H
          end
    | intros Hty;
      repeat match goal with
             | H : context [(Track.Type_ _ =? _)%string] |- _ =>
                 rewrite Hty in H; cbn in H
             end;
      try discriminate ].
  all: apply forallb_Forall; reflexivity.
Qed.

Lemma X28_jump_reuses_an_open_window_witness :
  let w := world2_of quiet (fun _ _ => ok) window_open in
  let '(err, s') :=
    ops.JumpToTrack demo_ops "feature/foo" w (registry2 [demo_worktree]) in
  err = None
  /\ Forall (fun c => is_tmux c && negb (is_new_window c) = true)
            (commands (journal_since (registry2 [demo_worktree]) s')).
Proof.
  cbv zeta.
  pose proof
    (@X28_jump_reuses_an_open_window
       demo_ops "feature/foo" demo_worktree
       (world2_of quiet (fun _ _ => ok) window_open)
       (registry2 [demo_worktree]) eq_refl) as H.
  destruct (ops.JumpToTrack _ _ _ _) as [err s'] eqn:E.
  vm_compute in E. injection E as <- <-. cbv zeta in H.
  destruct H as (_ & H & _).
  split; [ reflexivity | ].
  apply (H (exit_ok "feature/foo"));
    [ vm_compute; repeat (first [ left; reflexivity | right ])
    | reflexivity | reflexivity ].
Defined.

(** ** package github, at the command line *)

Lemma normalizeCIStatus_values (upper : string -> string) (status : string) :
  In (github_go.normalizeCIStatus upper status) ci_values.
Proof.
  unfold github_go.normalizeCIStatus, ci_values. cbv zeta.
  repeat match goal with
         | |- context [if ?b then _ else _] => destruct b
         end; cbn; tauto.
Qed.

Lemma normalizeReviewStatus_values (upper : string -> string)
      (decision : string) :
  In (github_go.normalizeReviewStatus upper decision) review_values.
Proof.
  unfold github_go.normalizeReviewStatus, review_values. cbv zeta.
  repeat match goal with
         | |- context [if ?b then _ else _] => destruct b
         end; cbn; tauto.
Qed.

(** X29.  Looking up the pull request of a branch runs one gh command.
    A pull request it returns carries one of the four CI values and one
    of the four review values, whatever gh printed; it returns a pull
    request or an error, never both; and when gh fails saying that no
    pull request was found, the answer is no pull request and no
    error. *)
Theorem X29_pull_request_lookup
        (remote branch : string) (w : World2) (s : State2) :
  let '(pr, err, s') := github_go.GetPRForBranch remote branch w s in
  (forall p, pr = Some p ->
     err = None
     /\ In (PR.CIStatus p) ci_values
     /\ In (PR.ReviewStatus p) review_values)
  /\ exists x,
      journal_since s s'
      = [Proc (mkCmd "" "gh"
                     ["pr"; "view"; branch; "--repo"; remote; "--json";
                      "number,headRefName,state,statusCheckRollup,reviewDecision"]
                     false) x]
      /\ (run_err x <> None ->
          Contains (stderr x) "no pull requests found" = true ->
          pr = None /\ err = None).
Proof.
  destruct (github_go.GetPRForBranch remote branch w s) as [[pr err] s']
    eqn:E.
  revert E. run2.
  all: intros E; close_run E.
  all: split;
    [ intros p Hp;
      first [ discriminate Hp
            | injection Hp as <-;
              (split; [ reflexivity | ]);
              (split; [ apply normalizeCIStatus_values
                      | apply normalizeReviewStatus_values ]) ] | ].
  all: eexists; split; [ reflexivity | ].
  all: intros Hx Hw; try congruence.
  all: try (split; reflexivity).
  all: exfalso.
  all: match goal with
       | H : Contains ?t "no pull requests found" || _ = false |- _ =>
           apply orb_false_iff in H; destruct H as (H & _);
           enough (Contains t "no pull requests found" = true) by congruence
       end.
  all: repeat first [ exact Hw | apply Contains_app_l ].
Qed.

Lemma X29_pull_request_lookup_witness :
  let w := world2_of quiet (fun _ _ => ok) no_pr in
  let '(pr, err, s') :=
    github_go.GetPRForBranch "owner/repo" "feature/foo" w (registry2 []) in
  pr = None /\ err = None.
Proof.
  cbv zeta.
  pose proof
    (@X29_pull_request_lookup
       "owner/repo" "feature/foo" (world2_of quiet (fun _ _ => ok) no_pr)
       (registry2 [])) as H.
  destruct (github_go.GetPRForBranch _ _ _ _) as [[pr err] s'] eqn:E.
  vm_compute in E. injection E as <- <- <-. cbv zeta in H.
  destruct H as (_ & x & Hj & H).
  vm_compute in Hj. injection Hj as <-.
  exact (H ltac:(discriminate) eq_refl).
Defined.

